(** * quickrepo: the OBD-II ECU simulator and its reader

    A shallow embedding of [ecu-simulator/ecu-simulator.py] and
    [ecu-simulator/obd_reader.py]: the 13-byte frame codec of the TCP
    bridge, the ECU service dispatcher with its trouble-code store and
    background generator, and the reader's response correlation.

    Bytes are integers in [0, 256); Python lists are lists; Python
    exceptions are the [Raise] results of a small error monad; the
    module-level globals of the simulator are the fields of a [world]
    record threaded through a state-and-error monad. *)

From Stdlib Require Import ZArith QArith Qabs String Ascii Lia.
From Stdlib Require PrimFloat Uint63 SpecFloat FloatOps.
From stdpp Require Import base tactics decidable option list.

#[local] Open Scope Z_scope.

(** ** Python values and exceptions *)

Module Py.

Inductive exn := IndexError | ValueError | StructError.

Inductive res (A : Type) : Type :=
| Ret (a : A)
| Raise (e : exn).
Arguments Ret {A} a.
Arguments Raise {A} e.

#[export] Instance res_ret : MRet res := fun A a => Ret a.
#[export] Instance res_bind : MBind res := fun A B f m =>
  match m with
  | Ret a => f a
  | Raise e => Raise e
  end.

(** Code that reads and writes a state [S] and may raise. *)
Definition ST (S A : Type) : Type := S -> res (A * S).

#[export] Instance ST_ret {S} : MRet (ST S) := fun A a s => Ret (a, s).
#[export] Instance ST_bind {S} : MBind (ST S) := fun A B f m s =>
  match m s with
  | Ret (a, s') => f a s'
  | Raise e => Raise e
  end.

Definition lift {S A} (r : res A) : ST S A := fun s =>
  match r with
  | Ret a => Ret (a, s)
  | Raise e => Raise e
  end.

(** [l[i]] for a non-negative index. *)
Definition index {A} (l : list A) (i : nat) : res A :=
  match l !! i with
  | Some x => Ret x
  | None => Raise IndexError
  end.

(** The values a [bytearray] cell accepts. *)
Definition is_byte (b : Z) : bool := (0 <=? b) && (b <? 256).

(** [l.remove(x)]: drops the first occurrence (the callers test
    membership first, so the missing-element error is not modelled). *)
Fixpoint list_remove (x : nat) (l : list nat) : list nat :=
  match l with
  | [] => []
  | y :: l' => if Nat.eqb x y then l' else y :: list_remove x l'
  end.

(** [bytes.ljust(n, b'\x00')] *)
Definition ljust (n : nat) (d : list Z) : list Z :=
  d ++ replicate (n - length d)%nat 0.

(** One upper-case hexadecimal digit. *)
Definition hex_digit (d : Z) : ascii :=
  if d <? 10 then ascii_of_N (Z.to_N (48 + d))
  else ascii_of_N (Z.to_N (55 + d)).

(** The format [{b:02X}] of a byte. *)
Definition format_02X (b : Z) : string :=
  String (hex_digit (b / 16)) (String (hex_digit (b mod 16)) EmptyString).

(** Python's [float] is the IEEE 754 binary64 double, which the kernel
    has as a primitive type. *)
Definition float : Set := PrimFloat.float.

(** [float(n)] for an [int]; exact when [|n| < 2^53]. *)
Definition float_of_int (n : Z) : float :=
  if n <? 0 then PrimFloat.opp (PrimFloat.of_uint63 (Uint63.of_Z (- n)))
  else PrimFloat.of_uint63 (Uint63.of_Z n).

(** [n / d] on two [int]s with [|n|, |d| < 2^53] and [d] not zero: the
    division of the two as doubles, rounded to the nearest double. *)
Definition true_divide (n d : Z) : float :=
  PrimFloat.div (float_of_int n) (float_of_int d).


End Py.
Import Py.

(** ** python-can's message and the [struct] layout ['<I B 8s'] *)

Module can.

(** [can.Message]: only the fields the programs use. [dlc] is not
    passed by the callers, so it is [len(data)]. *)
Record Message := { arbitration_id : Z; data : list Z }.

(** The constructor stores [data] as a [bytearray], which refuses a
    value outside a byte; with the default [check=False] nothing bounds
    the number of data bytes. *)
Definition mk (arb : Z) (d : list Z) : res Message :=
  if forallb is_byte d then Ret {| arbitration_id := arb; data := d |}
  else Raise ValueError.

Definition dlc (m : Message) : Z := Z.of_nat (length (data m)).

End can.
Import can.

Module struct.

(** [<I]: four bytes, least significant first. *)
Definition pack_I (x : Z) : list Z :=
  [Z.land x 255; Z.land (Z.shiftr x 8) 255;
   Z.land (Z.shiftr x 16) 255; Z.land (Z.shiftr x 24) 255].

Definition unpack_I (b0 b1 b2 b3 : Z) : Z :=
  Z.lor b0 (Z.lor (Z.shiftl b1 8) (Z.lor (Z.shiftl b2 16) (Z.shiftl b3 24))).

(** [8s]: the first 8 bytes of the argument, nul-padded when shorter. *)
Definition pack_8s (d : list Z) : list Z := take 8 (ljust 8 d).

(** [struct.pack('<I B 8s', arb, n, d)] *)
Definition pack (arb n : Z) (d : list Z) : res (list Z) :=
  if (0 <=? arb) && (arb <? 2 ^ 32) && (0 <=? n) && (n <? 256)
  then Ret (pack_I arb ++ [n] ++ pack_8s d)
  else Raise StructError.

(** [struct.unpack('<I B 8s', w)]: refuses anything but 13 bytes. *)
Definition unpack (w : list Z) : res (Z * Z * list Z) :=
  match w with
  | [b0; b1; b2; b3; n; p0; p1; p2; p3; p4; p5; p6; p7] =>
      Ret (unpack_I b0 b1 b2 b3, n, [p0; p1; p2; p3; p4; p5; p6; p7])
  | _ => Raise StructError
  end.

End struct.

(** The two ends of the bridge share one encoder and one decoder
    (the same expressions appear in both files). *)
Module codec.

(** [struct.pack('<I B 8s', msg.arbitration_id, len(msg.data),
    bytes(msg.data).ljust(8, b'\x00'))] *)
Definition encode (msg : Message) : res (list Z) :=
  struct.pack (arbitration_id msg) (dlc msg) (ljust 8 (data msg)).

(** [arb_id, dlc, msg_data = struct.unpack('<I B 8s', data)] followed by
    [can.Message(arbitration_id=arb_id, data=msg_data[:dlc])] *)
Definition decode (w : list Z) : res Message :=
  '(arb_id, n, msg_data) ← struct.unpack w;
  can.mk arb_id (take (Z.to_nat n) msg_data).

End codec.

(** What a socket read hands back: up to 13 bytes, or an error. *)
Inductive recv_result :=
| Recv (bytes : list Z)
| RecvError.

Inductive task := Running | Stopped.

(** ** ecu-simulator.py *)

Module ecu_simulator.

(** The [random] module: a cursor over a tape of raw draws. *)
Record rng := { entropy : nat -> Z; cursor : nat }.

(** The module-level state of the simulator, with the sockets' side of
    the world: [broken] lists the clients whose socket refuses writes,
    [bus_sent] what [bus.send] received, [tcp_sent] what [sendall]
    delivered. *)
Record world := {
  gen : rng;
  active_dtcs : list (Z * Z);
  client_sockets : list nat;
  incoming_requests : list Message;
  broken : list nat;
  bus_sent : list Message;
  tcp_sent : list (nat * list Z)
}.

Abbreviation M := (ST world).

Definition with_gen (g : rng) (w : world) : world :=
  {| gen := g; active_dtcs := active_dtcs w;
     client_sockets := client_sockets w;
     incoming_requests := incoming_requests w; broken := broken w;
     bus_sent := bus_sent w; tcp_sent := tcp_sent w |}.

Definition with_dtcs (l : list (Z * Z)) (w : world) : world :=
  {| gen := gen w; active_dtcs := l;
     client_sockets := client_sockets w;
     incoming_requests := incoming_requests w; broken := broken w;
     bus_sent := bus_sent w; tcp_sent := tcp_sent w |}.

Definition with_clients (l : list nat) (w : world) : world :=
  {| gen := gen w; active_dtcs := active_dtcs w; client_sockets := l;
     incoming_requests := incoming_requests w; broken := broken w;
     bus_sent := bus_sent w; tcp_sent := tcp_sent w |}.

Definition with_requests (l : list Message) (w : world) : world :=
  {| gen := gen w; active_dtcs := active_dtcs w;
     client_sockets := client_sockets w;
     incoming_requests := l; broken := broken w;
     bus_sent := bus_sent w; tcp_sent := tcp_sent w |}.

Definition with_bus (l : list Message) (w : world) : world :=
  {| gen := gen w; active_dtcs := active_dtcs w;
     client_sockets := client_sockets w;
     incoming_requests := incoming_requests w; broken := broken w;
     bus_sent := l; tcp_sent := tcp_sent w |}.

Definition with_tcp (l : list (nat * list Z)) (w : world) : world :=
  {| gen := gen w; active_dtcs := active_dtcs w;
     client_sockets := client_sockets w;
     incoming_requests := incoming_requests w; broken := broken w;
     bus_sent := bus_sent w; tcp_sent := l |}.

(** *** Randomness *)

Definition draw : M Z := fun w =>
  let g := gen w in
  Ret (entropy g (cursor g),
       with_gen {| entropy := entropy g; cursor := S (cursor g) |} w).

(** [randint(a, b)]: an integer of [a..b]; an empty range is an error. *)
Definition randint (a b : Z) : M Z :=
  if b <? a then lift (Raise ValueError)
  else r ← draw; mret (a + r mod (b - a + 1)).

(** [random()]: a multiple of 2^-53 in [0, 1). *)
Definition random : M Q :=
  r ← draw; mret (Qmake (r mod 2 ^ 53) (2 ^ 53)).

(** [choice(seq)] *)
Definition choice {A} (l : list A) : M A :=
  r ← draw; lift (index l (Z.to_nat (r mod Z.of_nat (length l)))).

(** The doubles nearest to the literals [0.7] and [0.1]. *)
Definition float_0_7 : Q := Qmake 6305039478318694 (2 ^ 53).
Definition float_0_1 : Q := Qmake 7205759403792794 (2 ^ 56).

Definition Qltb (x y : Q) : bool := negb (Qle_bool y x).

(** *** The bridge *)

Definition get_dtcs : M (list (Z * Z)) := fun w => Ret (active_dtcs w, w).
Definition set_dtcs (l : list (Z * Z)) : M unit := fun w =>
  Ret (tt, with_dtcs l w).

(** [bus.send(msg)] on the in-process virtual bus. *)
Definition bus_send (msg : Message) : M unit := fun w =>
  Ret (tt, with_bus (bus_sent w ++ [msg]) w).

Definition sendall_ok (w : world) (client : nat) : bool :=
  negb (existsb (Nat.eqb client) (broken w)).

(** The two loops of [broadcast_can_message]: write to every client,
    then drop those whose write failed. *)
Definition sendall_each (wire : list Z) : M unit := fun w =>
  let reached := filter (fun c => sendall_ok w c = true) (client_sockets w) in
  let disconnected :=
    filter (fun c => sendall_ok w c = false) (client_sockets w) in
  Ret (tt,
       with_clients
         (foldl (fun l c => list_remove c l) (client_sockets w) disconnected)
         (with_tcp (tcp_sent w ++ map (fun c => (c, wire)) reached) w)).

Definition broadcast_can_message (msg : Message) : M unit :=
  wire ← lift (codec.encode msg);
  sendall_each wire.

(** One turn of the loop of [receive_from_client]: a 13-byte read is
    decoded and queued, any other read is dropped and the loop goes on,
    an exception leaves the loop. *)
Definition receive_step (ev : recv_result) (w : world) : task * world :=
  match ev with
  | RecvError => (Stopped, w)
  | Recv bytes =>
      if (length bytes =? 13)%nat then
        match codec.decode bytes with
        | Ret msg => (Running, with_requests (incoming_requests w ++ [msg]) w)
        | Raise _ => (Stopped, w)
        end
      else (Running, w)
  end.

(** [receive_from_client(client)] over the reads the socket delivers;
    [Running] at the end of the script is a task blocked in [recv]. *)
Fixpoint receive_loop (evs : list recv_result) (w : world) : task * world :=
  match evs with
  | [] => (Running, w)
  | ev :: evs' =>
      match receive_step ev w with
      | (Running, w') => receive_loop evs' w'
      | (Stopped, w') => (Stopped, w')
      end
  end.

Definition receive_from_client (client : nat) (evs : list recv_result)
    (w : world) : task * world :=
  match receive_loop evs w with
  | (Running, w') => (Running, w')
  | (Stopped, w') =>
      (Stopped,
       if existsb (Nat.eqb client) (client_sockets w')
       then with_clients (list_remove client (client_sockets w')) w'
       else w')
  end.

(** *** The services *)

Definition DTC_POOL : list (Z * Z) :=
  [(0x01, 0x33); (0x01, 0x71); (0x01, 0x74); (0x03, 0x00);
   (0x03, 0x01); (0x04, 0x20); (0x04, 0x40); (0x05, 0x62)].

Definition respond (d : list Z) : M (option Message) :=
  msg ← lift (can.mk 0x7e8 d); mret (Some msg).

Definition service1 (msg : Message) : M (option Message) :=
  pid ← lift (index (data msg) 2);
  response ←
    (if pid =? 0x00 then respond [0x06; 0x41; 0x00; 0xBF; 0xDF; 0xB9; 0x91]
     else if pid =? 0x04 then respond [0x03; 0x41; 0x04; 0x20]
     else if pid =? 0x05 then
       a ← randint (88 + 40) (95 + 40); respond [0x03; 0x41; 0x05; a]
     else if pid =? 0x0B then
       a ← randint 10 40; respond [0x04; 0x41; 0x0B; a]
     else if pid =? 0x0C then
       a ← randint 18 70; b ← randint 0 255;
       respond [0x04; 0x41; 0x0C; a; b]
     else if pid =? 0x0D then
       a ← randint 40 60; respond [0x03; 0x41; 0x0D; a]
     else if pid =? 0x0F then
       a ← randint 60 64; respond [0x03; 0x41; 0x0F; a]
     else if pid =? 0x10 then respond [0x04; 0x41; 0x10; 0x00; 0xFA]
     else if pid =? 0x11 then
       a ← randint 20 60; respond [0x03; 0x41; 0x11; a]
     else if pid =? 0x33 then
       a ← randint 20 60; respond [0x03; 0x41; 0x33; a]
     else mret None);
  match response with
  | Some r => bus_send r
  | None => mret tt
  end;;
  mret response.

(** The bytes of [active_dtcs[:3]], high byte first. *)
Definition dtc_bytes (dtcs : list (Z * Z)) : list Z :=
  flat_map (fun dtc => [fst dtc; snd dtc]) (take 3 dtcs).

(** [while len(dtc_data) < 8: dtc_data.append(0x00)] *)
Definition pad8 (dtc_data : list Z) : list Z :=
  dtc_data ++ replicate (8 - length dtc_data)%nat 0.

Definition service3 (msg : Message) : M Message :=
  dtcs ← get_dtcs;
  response ←
    (if (length dtcs =? 0)%nat then
       lift (can.mk 0x7e8 [0x01; 0x43; 0x00; 0x00; 0x00; 0x00; 0x00; 0x00])
     else
       let dtc_data := pad8 ([0x43] ++ dtc_bytes dtcs) in
       lift (can.mk 0x7e8 ([Z.of_nat (length dtc_data) - 1] ++ dtc_data)));
  bus_send response;;
  mret response.

Definition service4 (msg : Message) : M Message :=
  set_dtcs [];;
  response ←
    lift (can.mk 0x7e8 [0x01; 0x44; 0x00; 0x00; 0x00; 0x00; 0x00; 0x00]);
  bus_send response;;
  mret response.

Definition dtc_eqb (x y : Z * Z) : bool :=
  (fst x =? fst y) && (snd x =? snd y).

(** [xs.pop(i)] for an index in range. *)
Definition pop_at (i : Z) (l : list (Z * Z)) : res (list (Z * Z)) :=
  if (0 <=? i) && (i <? Z.of_nat (length l)) then Ret (delete (Z.to_nat i) l)
  else Raise IndexError.

(** The first [if] of the loop of [random_dtc_generator]: with
    probability 0.7, below five codes, add a code of the pool that is
    not there yet. *)
Definition tick_insert : M unit :=
  r ← random;
  if Qltb r float_0_7 then
    dtcs ← get_dtcs;
    if (length dtcs <? 5)%nat then
      new_dtc ← choice DTC_POOL;
      if negb (existsb (dtc_eqb new_dtc) dtcs)
      then set_dtcs (dtcs ++ [new_dtc])
      else mret tt
    else mret tt
  else mret tt.

(** The second [if]: a non-empty store loses one code with
    probability 0.1 ([random()] is not called on an empty store). *)
Definition tick_remove : M unit :=
  dtcs ← get_dtcs;
  match dtcs with
  | [] => mret tt
  | _ :: _ =>
      r ← random;
      if Qltb r float_0_1 then
        i ← randint 0 (Z.of_nat (length dtcs) - 1);
        rest ← lift (pop_at i dtcs);
        set_dtcs rest
      else mret tt
  end.

(** One turn of the loop of [random_dtc_generator]; the first draw is
    the one of [time.sleep(randint(5, 10))]. *)
Definition generator_tick : M unit :=
  randint 5 10;;
  tick_insert;;
  tick_remove.

(** What [receive_all] does with a request it has no service for: the
    branch for the local bus logs the identifier and [msg.data[1]], the
    branch for the bridge has no [else]. *)
Definition unserved (local : bool) (msg : Message) : M unit :=
  if local then lift (index (data msg) 1);; mret tt else mret tt.

(** The chain of tests of [receive_all], which its two branches share:
    [local] tells the branch for the local bus from the one for the
    requests of the bridge clients. *)
Definition serve (local : bool) (msg : Message) : M unit :=
  if arbitration_id msg =? 0x7df then
    svc ← lift (index (data msg) 1);
    if svc =? 0x01 then
      response ← service1 msg;
      match response with
      | Some r => broadcast_can_message r
      | None => mret tt
      end
    else if svc =? 0x03 then
      response ← service3 msg; broadcast_can_message response
    else if svc =? 0x04 then
      response ← service4 msg; broadcast_can_message response
    else unserved local msg
  else unserved local msg.

(** [if incoming_requests: msg = incoming_requests.pop(0); ...] *)
Definition serve_next : M unit := fun w =>
  match incoming_requests w with
  | [] => Ret (tt, w)
  | msg :: rest => serve false msg (with_requests rest w)
  end.

(** One turn of the loop of [receive_all]: [bus_msg] is what
    [bus.recv(0.01)] returned. *)
Definition loop_turn (bus_msg : option Message) : M unit :=
  match bus_msg with
  | Some msg => serve true msg
  | None => mret tt
  end;;
  serve_next.

(** The activities that touch the trouble-code store, one atomic step
    each: a turn of the generator, or a request served. *)
Inductive step := Tick | Serve (msg : Message).

Definition run_step (s : step) : M unit :=
  match s with
  | Tick => generator_tick
  | Serve msg => serve false msg
  end.

Fixpoint run (ss : list step) : M unit :=
  match ss with
  | [] => mret tt
  | s :: ss' => run_step s;; run ss'
  end.

Definition boot (g : rng) (clients : list nat) : world :=
  {| gen := g; active_dtcs := []; client_sockets := clients;
     incoming_requests := []; broken := []; bus_sent := []; tcp_sent := [] |}.

(** One turn of the loop of [start_tcp_server]: the accepted client
    joins the registry. *)
Definition accept (client : nat) : M unit := fun w =>
  Ret (tt, with_clients (client_sockets w ++ [client]) w).

End ecu_simulator.

(** ** obd_reader.py *)

Module obd_reader.

Definition REQUEST_ID : Z := 0x7DF.
Definition RESPONSE_ID : Z := 0x7E8.

Definition SERVICE_CURRENT_DATA : Z := 0x01.
Definition SERVICE_READ_DTCS : Z := 0x03.
Definition SERVICE_CLEAR_DTCS : Z := 0x04.

(** The fields of [OBDReader] the queries use, with the socket's side
    of the world: [link_up] tells whether [sendall] succeeds, [tcp_out]
    what it delivered. *)
Record reader := {
  response_queue : list Message;
  link_up : bool;
  tcp_out : list (list Z)
}.

Abbreviation R := (ST reader).

Definition with_queue (q : list Message) (r : reader) : reader :=
  {| response_queue := q; link_up := link_up r; tcp_out := tcp_out r |}.

Definition with_out (o : list (list Z)) (r : reader) : reader :=
  {| response_queue := response_queue r; link_up := link_up r; tcp_out := o |}.

(** One turn of the loop of [_tcp_receiver], on the queue. *)
Definition receiver_step (ev : recv_result) (q : list Message)
    : task * list Message :=
  match ev with
  | RecvError => (Stopped, q)
  | Recv bytes =>
      if (length bytes =? 13)%nat then
        match codec.decode bytes with
        | Ret msg => (Running, q ++ [msg])
        | Raise _ => (Stopped, q)
        end
      else (Running, q)
  end.

Fixpoint _tcp_receiver (evs : list recv_result) (q : list Message)
    : task * list Message :=
  match evs with
  | [] => (Running, q)
  | ev :: evs' =>
      match receiver_step ev q with
      | (Running, q') => _tcp_receiver evs' q'
      | (Stopped, q') => (Stopped, q')
      end
  end.

(** [self.tcp_socket.sendall(packed_data)]; [true] when it went out. *)
Definition sendall (packed_data : list Z) : R bool := fun r =>
  if link_up r then Ret (true, with_out (tcp_out r ++ [packed_data]) r)
  else Ret (false, r).

Definition send_request (service pid : Z) : R unit :=
  msg ← lift (can.mk REQUEST_ID
                [0x02; service; pid; 0x00; 0x00; 0x00; 0x00; 0x00]);
  packed_data ← lift (codec.encode msg);
  sendall packed_data;;
  mret tt.

(** [wait_response]: the clock allows one turn of the loop per element
    of [arrivals]; the element is what the receiver thread appended to
    the queue since the previous turn. A turn takes the head of the
    queue off, returns it when it carries the response id, and drops it
    otherwise. *)
Fixpoint wait_loop (arrivals : list (list Message)) (q : list Message)
    : option Message * list Message :=
  match arrivals with
  | [] => (None, q)
  | arrived :: later =>
      match q ++ arrived with
      | [] => wait_loop later []
      | msg :: rest =>
          if arbitration_id msg =? RESPONSE_ID then (Some msg, rest)
          else wait_loop later rest
      end
  end.

Definition wait_response (arrivals : list (list Message))
    : R (option Message) := fun r =>
  let (response, q) := wait_loop arrivals (response_queue r) in
  Ret (response, with_queue q r).

(** [response and response.data[1] == s and response.data[2] == pid] *)
Definition answers (response : option Message) (s pid : Z) : res (option Message) :=
  match response with
  | None => Ret None
  | Some m =>
      b1 ← index (data m) 1;
      if b1 =? s then
        b2 ← index (data m) 2;
        if b2 =? pid then Ret (Some m) else Ret None
      else Ret None
  end.

Definition read_rpm (arrivals : list (list Message)) : R (option Q) :=
  send_request SERVICE_CURRENT_DATA 0x0C;;
  response ← wait_response arrivals;
  ok ← lift (answers response 0x41 0x0C);
  match ok with
  | Some m =>
      a ← lift (index (data m) 3);
      b ← lift (index (data m) 4);
      mret (Some (inject_Z (a * 256 + b) / inject_Z 4)%Q)
  | None => mret None
  end.

Definition read_speed (arrivals : list (list Message)) : R (option Z) :=
  send_request SERVICE_CURRENT_DATA 0x0D;;
  response ← wait_response arrivals;
  ok ← lift (answers response 0x41 0x0D);
  match ok with
  | Some m => a ← lift (index (data m) 3); mret (Some a)
  | None => mret None
  end.

(** [range(2, n - 1, 2)] *)
Fixpoint pair_offsets_from (fuel i : nat) (stop : Z) : list nat :=
  match fuel with
  | O => []
  | S fuel' =>
      if Z.of_nat i <? stop then i :: pair_offsets_from fuel' (i + 2)%nat stop
      else []
  end.

Definition pair_offsets (n : nat) : list nat :=
  pair_offsets_from n 2 (Z.of_nat n - 1).

(** The body of the loop of [read_dtcs] at offset [i]. *)
Definition parse_pair (d : list Z) (i : nat) : res (list string) :=
  hi ← index d i;
  if negb (hi =? 0x00) then
    lo ← index d (i + 1);
    Ret [append "P" (append (format_02X hi) (format_02X lo))]
  else Ret [].

Fixpoint parse_pairs (d : list Z) (offsets : list nat) : res (list string) :=
  match offsets with
  | [] => Ret []
  | i :: offsets' =>
      here ← parse_pair d i;
      later ← parse_pairs d offsets';
      Ret (here ++ later)
  end.

(** What [read_dtcs] makes of the frame [wait_response] returned. *)
Definition parse_dtcs (response : option Message) : res (list string) :=
  match response with
  | None => Ret []
  | Some m =>
      b1 ← index (data m) 1;
      if b1 =? 0x43 then parse_pairs (data m) (pair_offsets (length (data m)))
      else Ret []
  end.

Definition read_dtcs (arrivals : list (list Message)) : R (list string) :=
  msg ← lift (can.mk REQUEST_ID
                [0x01; SERVICE_READ_DTCS; 0x00; 0x00; 0x00; 0x00; 0x00; 0x00]);
  packed_data ← lift (codec.encode msg);
  sent ← sendall packed_data;
  if sent : bool then
    response ← wait_response arrivals;
    lift (parse_dtcs response)
  else mret [].

Definition clear_dtcs (arrivals : list (list Message)) : R bool :=
  msg ← lift (can.mk REQUEST_ID
                [0x01; SERVICE_CLEAR_DTCS; 0x00; 0x00; 0x00; 0x00; 0x00; 0x00]);
  packed_data ← lift (codec.encode msg);
  sent ← sendall packed_data;
  if sent : bool then
    response ← wait_response arrivals;
    match response with
    | None => mret false
    | Some m => b1 ← lift (index (data m) 1); mret (b1 =? 0x44)
    end
  else mret false.

(** The request frames as the queries build them. *)
Definition request (service pid : Z) : Message :=
  {| arbitration_id := REQUEST_ID;
     data := [0x02; service; pid; 0x00; 0x00; 0x00; 0x00; 0x00] |}.

Definition read_request : Message :=
  {| arbitration_id := REQUEST_ID;
     data := [0x01; SERVICE_READ_DTCS; 0x00; 0x00; 0x00; 0x00; 0x00; 0x00] |}.

Definition clear_request : Message :=
  {| arbitration_id := REQUEST_ID;
     data := [0x01; SERVICE_CLEAR_DTCS; 0x00; 0x00; 0x00; 0x00; 0x00; 0x00] |}.

Definition start (q : list Message) : reader :=
  {| response_queue := q; link_up := true; tcp_out := [] |}.

(** *** The other queries *)

Definition read_coolant_temp (arrivals : list (list Message)) : R (option Z) :=
  send_request SERVICE_CURRENT_DATA 0x05;;
  response ← wait_response arrivals;
  ok ← lift (answers response 0x41 0x05);
  match ok with
  | Some m => a ← lift (index (data m) 3); mret (Some (a - 40))
  | None => mret None
  end.

Definition read_throttle (arrivals : list (list Message)) : R (option float) :=
  send_request SERVICE_CURRENT_DATA 0x11;;
  response ← wait_response arrivals;
  ok ← lift (answers response 0x41 0x11);
  match ok with
  | Some m =>
      a ← lift (index (data m) 3);
      mret (Some (true_divide (a * 100) 255))
  | None => mret None
  end.

Definition read_engine_load (arrivals : list (list Message)) : R (option float) :=
  send_request SERVICE_CURRENT_DATA 0x04;;
  response ← wait_response arrivals;
  ok ← lift (answers response 0x41 0x04);
  match ok with
  | Some m =>
      a ← lift (index (data m) 3);
      mret (Some (true_divide (a * 100) 255))
  | None => mret None
  end.

Definition read_intake_temp (arrivals : list (list Message)) : R (option Z) :=
  send_request SERVICE_CURRENT_DATA 0x0F;;
  response ← wait_response arrivals;
  ok ← lift (answers response 0x41 0x0F);
  match ok with
  | Some m => a ← lift (index (data m) 3); mret (Some (a - 40))
  | None => mret None
  end.

(** The readings of one turn of [display_dashboard]. *)
Record readings := {
  rpm : option Q;
  speed : option Z;
  coolant : option Z;
  throttle : option float;
  load : option float;
  intake : option Z
}.

(** The six queries of one turn of [display_dashboard], in its order;
    each has its own wait, hence its own arrivals. *)
Definition dashboard_reads (a1 a2 a3 a4 a5 a6 : list (list Message))
    : R readings :=
  v1 ← read_rpm a1;
  v2 ← read_speed a2;
  v3 ← read_coolant_temp a3;
  v4 ← read_throttle a4;
  v5 ← read_engine_load a5;
  v6 ← read_intake_temp a6;
  mret {| rpm := v1; speed := v2; coolant := v3;
          throttle := v4; load := v5; intake := v6 |}.

(** The dictionary of [get_dtc_description]. *)
Definition descriptions : list (string * string) :=
  [("P0133", "O2 Sensor Circuit Slow Response");
   ("P0171", "System Too Lean (Bank 1)");
   ("P0174", "System Too Lean (Bank 2)");
   ("P0300", "Random/Multiple Cylinder Misfire");
   ("P0301", "Cylinder 1 Misfire Detected");
   ("P0420", "Catalyst System Efficiency Below Threshold");
   ("P0440", "EVAP System Malfunction");
   ("P0562", "System Voltage Low")]%string.

(** [d.get(key, default)] *)
Fixpoint dict_get (d : list (string * string)) (key default : string) : string :=
  match d with
  | [] => default
  | (k, v) :: d' => if String.eqb k key then v else dict_get d' key default
  end.

Definition get_dtc_description (dtc_code : string) : string :=
  dict_get descriptions dtc_code "Unknown DTC".

End obd_reader.

(** ** Autopulse/server/app.py: the listener on the bridge *)

Module autopulse_app.

(** The loop over [range(2, len(payload), 2)] of [listen_to_ecu]: a pair
    that lies within the payload and is not (0, 0) is put on the queue
    as text. *)
Definition listen_pair (payload : list Z) (i : nat) : list string :=
  if (i + 1 <? length payload)%nat then
    match payload !! i, payload !! (i + 1)%nat with
    | Some a, Some b =>
        if (a =? 0) && (b =? 0) then []
        else [append "P" (append (format_02X a) (format_02X b))]
    | _, _ => []
    end
  else [].

Definition listen_payload (payload : list Z) : list string :=
  if (1 <? length payload)%nat && bool_decide (payload !! 1%nat = Some 0x43)
  then flat_map (listen_pair payload)
         (obd_reader.pair_offsets_from (length payload) 2
            (Z.of_nat (length payload)))
  else [].

(** One turn of the loop of [listen_to_ecu] on [dtc_queue]. The loop has
    no handler: an error of [recv] ends the thread. *)
Definition listen_step (ev : recv_result) (dtc_queue : list string)
    : task * list string :=
  match ev with
  | RecvError => (Stopped, dtc_queue)
  | Recv bytes =>
      if (length bytes =? 13)%nat then
        match struct.unpack bytes with
        | Ret (arb_id, n, msg_data) =>
            (Running, dtc_queue ++ listen_payload (take (Z.to_nat n) msg_data))
        | Raise _ => (Stopped, dtc_queue)
        end
      else (Running, dtc_queue)
  end.

Fixpoint listen_to_ecu (evs : list recv_result) (dtc_queue : list string)
    : task * list string :=
  match evs with
  | [] => (Running, dtc_queue)
  | ev :: evs' =>
      match listen_step ev dtc_queue with
      | (Running, q') => listen_to_ecu evs' q'
      | (Stopped, q') => (Stopped, q')
      end
  end.

(** [latest_dtc]: the oldest code of the queue, if any. *)
Definition latest_dtc (dtc_queue : list string) : option string * list string :=
  match dtc_queue with
  | [] => (None, [])
  | code :: rest => (Some code, rest)
  end.

End autopulse_app.

(** ** Notions the properties are stated with *)

Module Spec.
Import ecu_simulator obd_reader.

(** The PIDs [service1] has a branch for. *)
Definition supported_pids : list Z :=
  [0x00; 0x04; 0x05; 0x0B; 0x0C; 0x0D; 0x0F; 0x10; 0x11; 0x33].

(** The state of the trouble-code store the generator maintains. *)
Definition store_ok (l : list (Z * Z)) : Prop :=
  (length l <= 5)%nat /\ NoDup l /\ Forall (fun d => d ∈ DTC_POOL) l
  /\ (0, 0) ∉ l.

(** The two writers of the store: a turn of the generator, and a clear
    request served by the dispatcher. *)
Inductive store_op := Generate | Clear.

Definition to_step (o : store_op) : step :=
  match o with
  | Generate => Tick
  | Clear => Serve clear_request
  end.

(** The world after one draw. *)
Definition advance (w : world) : world :=
  with_gen {| entropy := entropy (gen w); cursor := S (cursor (gen w)) |} w.

(** The value [randint(a, b)] returns in the world [w]. *)
Definition drawn (a b : Z) (w : world) : Z :=
  a + entropy (gen w) (cursor (gen w)) mod (b - a + 1).

(** What a query for service-1 data with PID [pid] expects of a frame. *)
Definition expected (s pid : Z) (m : Message) : bool :=
  (arbitration_id m =? RESPONSE_ID)
  && bool_decide (data m !! 1%nat = Some s)
  && bool_decide (data m !! 2%nat = Some pid).

(** The text of a trouble code. *)
Definition dtc_text (dtc : Z * Z) : string :=
  append "P" (append (format_02X (fst dtc)) (format_02X (snd dtc))).

(** A trouble code whose two halves are bytes. *)
Definition byte_pair (d : Z * Z) : Prop :=
  0 <= d.1 < 256 /\ 0 <= d.2 < 256.

(** What the reader reports for one pair of payload bytes. *)
Definition chunk (hi lo : Z) : list string :=
  if decide (hi <> 0) then [dtc_text (hi, lo)] else [].

(** A tape of raw draws that starts with [l]. *)
Definition tape (l : list Z) : rng :=
  {| entropy := fun n => nth n l 0; cursor := 0 |}.

End Spec.

(** ** Notions the further properties are stated with *)

Module Notions.
Import ecu_simulator obd_reader Spec.

(** A frame the codec carries without loss. *)
Definition well_formed (m : Message) : Prop :=
  0 <= arbitration_id m < 2 ^ 32
  /\ (length (data m) <= 8)%nat
  /\ Forall (fun b => 0 <= b < 256) (data m).

(** What holds of a response [r] of [service1] to a request for [pid],
    and of the worlds before and after: the shape of the frame, that it
    went on the local bus and nowhere else, and byte 0, which counts the
    bytes that follow in every branch but the one for PID 0x0B. *)
Definition service1_facts (pid : Z) (w w' : world) (r : Message) : Prop :=
  arbitration_id r = 0x7e8
  /\ data r !! 1%nat = Some 0x41
  /\ data r !! 2%nat = Some pid
  /\ (4 <= length (data r) <= 7)%nat
  /\ Forall (fun b => 0 <= b < 256) (data r)
  /\ data r !! 0%nat
     = Some (if pid =? 0x0B then Z.of_nat (length (data r))
             else Z.of_nat (length (data r)) - 1)
  /\ bus_sent w' = bus_sent w ++ [r]
  /\ tcp_sent w' = tcp_sent w
  /\ active_dtcs w' = active_dtcs w
  /\ client_sockets w' = client_sockets w
  /\ incoming_requests w' = incoming_requests w
  /\ broken w' = broken w.

(** The data of the service 0x03 response for a store. *)
Definition stored_codes_data (dtcs : list (Z * Z)) : list Z :=
  match dtcs with
  | [] => [0x01; 0x43; 0; 0; 0; 0; 0; 0]
  | _ :: _ =>
      [0x07; 0x43] ++ dtc_bytes dtcs
        ++ replicate (7 - length (dtc_bytes dtcs))%nat 0
  end.

(** The world after the 13 bytes [wire] were offered to every client. *)
Definition after_broadcast (wire : list Z) (w : world) : world :=
  with_clients (filter (fun c => sendall_ok w c = true) (client_sockets w))
    (with_tcp
       (tcp_sent w ++ map (fun c => (c, wire))
          (filter (fun c => sendall_ok w c = true) (client_sockets w)))
       w).

(** The requests on which the dispatcher loop dies of an [IndexError]. *)
Definition crashes (local : bool) (msg : Message) : Prop :=
  ((arbitration_id msg = 0x7df \/ local = true) /\ (length (data msg) < 2)%nat)
  \/ (arbitration_id msg = 0x7df /\ data msg !! 1%nat = Some 0x01
      /\ (length (data msg) < 3)%nat).

(** What a request that is answered leaves behind: the response [r] on
    the local bus and its 13 bytes [wire] with every client that takes
    writes. *)
Definition answered (w w' : world) (r : Message) (wire : list Z) : Prop :=
  codec.encode r = Ret wire
  /\ arbitration_id r = 0x7e8
  /\ bus_sent w' = bus_sent w ++ [r]
  /\ tcp_sent w'
     = tcp_sent w ++ map (fun c => (c, wire))
         (filter (fun c => sendall_ok w c = true) (client_sockets w))
  /\ client_sockets w'
     = filter (fun c => sendall_ok w c = true) (client_sockets w)
  /\ incoming_requests w' = incoming_requests w
  /\ broken w' = broken w.

(** What the dispatcher did with a request it did not die on: nothing,
    or an answer. *)
Definition served (local : bool) (msg : Message) (w w' : world) : Prop :=
  (w' = w
   /\ (arbitration_id msg <> 0x7df
       \/ exists svc, data msg !! 1%nat = Some svc
            /\ (svc ∉ [0x01; 0x03; 0x04]
                \/ (svc = 0x01
                    /\ exists pid, data msg !! 2%nat = Some pid
                                   /\ pid ∉ supported_pids))))
  \/ (arbitration_id msg = 0x7df
      /\ exists svc r wire,
           data msg !! 1%nat = Some svc
           /\ svc ∈ [0x01; 0x03; 0x04]
           /\ answered w w' r wire
           /\ active_dtcs w' = (if svc =? 0x04 then [] else active_dtcs w)
           /\ data r !! 1%nat = Some (0x40 + svc)
           /\ (svc = 0x01 -> data r !! 2%nat = data msg !! 2%nat)
           /\ (svc = 0x03 -> data r = stored_codes_data (active_dtcs w))
           /\ (svc = 0x04 -> data r = [0x01; 0x44; 0; 0; 0; 0; 0; 0])).


(** The reader after [send_request(service, pid)]: the request went out
    if the link is up, and nothing else changed. *)
Definition after_send (s pid : Z) (r : reader) : reader :=
  if link_up r
  then with_out (tcp_out r ++ [[0xDF; 0x07; 0; 0; 8; 0x02; s; pid; 0; 0; 0; 0; 0]]) r
  else r.

(** A response frame with the positive-response code of service 0x01. *)
Definition reply (b0 pid : Z) (rest : list Z) : Message :=
  {| arbitration_id := 0x7E8; data := b0 :: 0x41 :: pid :: rest |}.

(** The part the queries for service 0x01 share. *)
Definition ask (pid : Z) (arrivals : list (list Message)) : R (option Message) :=
  send_request SERVICE_CURRENT_DATA pid;;
  response ← wait_response arrivals;
  lift (answers response 0x41 pid).

(** The reader after a query for [pid] that left [q] queued. *)
Definition asked (pid : Z) (q : list Message) (r : reader) : reader :=
  with_queue q (after_send SERVICE_CURRENT_DATA pid r).

(** The reader after the request [wire] went out and the wait left [q]. *)
Definition sent_and_waited (wire : list Z) (q : list Message) (r : reader) : reader :=
  with_queue q (with_out (tcp_out r ++ [wire]) r).

(** The 13 bytes of the requests of [read_dtcs] and [clear_dtcs]. *)
Definition read_wire : list Z := [0xDF; 0x07; 0; 0; 8; 0x01; 0x03; 0; 0; 0; 0; 0; 0].
Definition clear_wire : list Z := [0xDF; 0x07; 0; 0; 8; 0x01; 0x04; 0; 0; 0; 0; 0; 0].

(** The frames on which [read_rpm] dies of an [IndexError]. *)
Definition rpm_crashes (f : Message) : Prop :=
  (length (data f) < 2)%nat
  \/ (data f !! 1%nat = Some 0x41
      /\ ((length (data f) < 3)%nat
          \/ (data f !! 2%nat = Some 0x0C /\ (length (data f) < 5)%nat))).

(** What the listener of app.py reports for one pair of payload bytes. *)
Definition heard (a b : Z) : list string :=
  if (a =? 0) && (b =? 0) then [] else [dtc_text (a, b)].

(** A read that handed back some bytes, but fewer than a frame. *)
Definition short_read (ev : recv_result) : bool :=
  match ev with
  | Recv bytes => (0 <? length bytes)%nat && (length bytes <? 13)%nat
  | RecvError => false
  end.

(** A read of [recv(13)] that handed back at least one byte. *)
Definition delivers (ev : recv_result) : Prop :=
  match ev with
  | Recv bytes =>
      (0 < length bytes <= 13)%nat /\ Forall (fun b => 0 <= b < 256) bytes
  | RecvError => False
  end.

(** The message a read decodes to. *)
Definition frame_of (ev : recv_result) (m : Message) : Prop :=
  match ev with
  | Recv bytes => codec.decode bytes = Ret m
  | RecvError => False
  end.

End Notions.

(** * Properties *)

(** ** The frame codec *)

Section Codec.

Lemma testbit_255 n : 0 <= n -> Z.testbit 255 n = (n <? 8).
Proof.
  intros Hn. change 255 with (Z.ones 8).
  apply Z.testbit_ones_nonneg; lia.
Qed.

Lemma testbit_above x n : 0 <= x < 2 ^ 32 -> 32 <= n -> Z.testbit x n = false.
Proof.
  intros [H0 H1] Hn. destruct (Z.eq_dec x 0) as [->|Hx].
  - apply Z.testbit_0_l.
  - apply Z.bits_above_log2; [lia|].
    assert (Z.log2 x < 32) by (apply Z.log2_lt_pow2; lia). lia.
Qed.

Lemma testbit_byte_at x k n :
  0 <= k -> 0 <= n ->
  Z.testbit (Z.shiftl (Z.land (Z.shiftr x k) 255) k) n
  = Z.testbit x n && (k <=? n) && (n <? k + 8).
Proof.
  intros Hk Hn. rewrite Z.shiftl_spec by lia.
  destruct (Z.leb_spec k n) as [Hle|Hlt].
  - rewrite Z.land_spec, Z.shiftr_spec, testbit_255 by lia.
    replace (n - k + k) with n by lia.
    rewrite andb_true_r. f_equal.
    destruct (Z.ltb_spec (n - k) 8), (Z.ltb_spec n (k + 8)); lia || reflexivity.
  - rewrite Z.testbit_neg_r by lia. now rewrite andb_false_r.
Qed.

(** The four identifier bytes, read back least significant first, give
    the identifier. *)
Lemma unpack_pack_I x :
  0 <= x < 2 ^ 32 ->
  struct.unpack_I (Z.land x 255) (Z.land (Z.shiftr x 8) 255)
    (Z.land (Z.shiftr x 16) 255) (Z.land (Z.shiftr x 24) 255) = x.
Proof.
  intros Hx. unfold struct.unpack_I.
  apply Z.bits_inj'. intros n Hn.
  rewrite !Z.lor_spec, !testbit_byte_at by lia.
  rewrite Z.land_spec, testbit_255 by lia.
  destruct (Z.ltb_spec n 32) as [Hlt|Hge].
  - destruct (Z.testbit x n); cbn [andb orb]; [|reflexivity].
    destruct (Z.ltb_spec n 8), (Z.leb_spec 8 n), (Z.ltb_spec n (8 + 8)),
      (Z.leb_spec 16 n), (Z.ltb_spec n (16 + 8)), (Z.leb_spec 24 n),
      (Z.ltb_spec n (24 + 8)); cbn; lia || reflexivity.
  - rewrite (testbit_above x n) by lia. reflexivity.
Qed.

Lemma is_byte_spec b : is_byte b = true <-> 0 <= b < 256.
Proof. unfold is_byte. rewrite andb_true_iff, Z.leb_le, Z.ltb_lt. tauto. Qed.

Lemma forallb_is_byte d :
  Forall (fun b => 0 <= b < 256) d -> forallb is_byte d = true.
Proof.
  induction 1 as [|b d Hb _ IH]; [reflexivity|].
  cbn [forallb]. rewrite IH, andb_true_r. now apply is_byte_spec.
Qed.

Lemma mk_bytes arb d :
  Forall (fun b => 0 <= b < 256) d ->
  can.mk arb d = Ret {| arbitration_id := arb; data := d |}.
Proof. intros Hd. unfold can.mk. now rewrite forallb_is_byte. Qed.

(** Whatever the message, what goes on the wire is 13 bytes, 8 of them
    payload. *)
Lemma pack_8s_length d : length (struct.pack_8s d) = 8%nat.
Proof.
  unfold struct.pack_8s, ljust.
  rewrite length_take, length_app, length_replicate. lia.
Qed.

Lemma encode_length msg w : codec.encode msg = Ret w -> length w = 13%nat.
Proof.
  unfold codec.encode, struct.pack. case_match; [|discriminate].
  intros [= <-]. cbn [length]. now rewrite pack_8s_length.
Qed.

(** The RPM query of the reader, as it leaves for the bridge. *)
Example encode_rpm_request :
  codec.encode (obd_reader.request 0x01 0x0C)
  = Ret [0xDF; 0x07; 0; 0; 8; 0x02; 0x01; 0x0C; 0; 0; 0; 0; 0].
Proof. reflexivity. Qed.

(** Thirteen bytes with a short length field decode to a short payload. *)
Example decode_truncates :
  codec.decode [0xE8; 0x07; 0; 0; 4; 0x03; 0x41; 0x0D; 0x32; 9; 9; 9; 9]
  = Ret {| arbitration_id := 0x7E8; data := [0x03; 0x41; 0x0D; 0x32] |}.
Proof. reflexivity. Qed.

Example dtc_text_P0301 : Spec.dtc_text (0x03, 0x01) = "P0301"%string.
Proof. reflexivity. Qed.

End Codec.

(** C1. For every frame with an identifier below 2^32 and a payload of at
    most 8 bytes, the encoder produces the 13 bytes "identifier, least
    significant byte first; length; payload, zero-padded to 8", and the
    decoder gives back the frame: the same identifier, the same length
    and the same payload bytes. *)
Theorem codec_round_trip (arb : Z) (d : list Z) :
  0 <= arb < 2 ^ 32 ->
  (length d <= 8)%nat ->
  Forall (fun b => 0 <= b < 256) d ->
  exists w,
    codec.encode {| arbitration_id := arb; data := d |} = Ret w
    /\ w = struct.pack_I arb ++ [Z.of_nat (length d)]
             ++ d ++ replicate (8 - length d)%nat 0
    /\ length w = 13%nat
    /\ codec.decode w = Ret {| arbitration_id := arb; data := d |}.
Proof.
  intros Harb Hlen Hd.
  assert (Hpack : codec.encode {| arbitration_id := arb; data := d |}
    = Ret (struct.pack_I arb ++ [Z.of_nat (length d)]
             ++ d ++ replicate (8 - length d)%nat 0)).
  { unfold codec.encode, struct.pack, dlc. cbn [arbitration_id data].
    replace ((0 <=? arb) && (arb <? 2 ^ 32) && (0 <=? Z.of_nat (length d))
             && (Z.of_nat (length d) <? 256)) with true
      by (symmetry; rewrite !andb_true_iff, !Z.leb_le, !Z.ltb_lt; lia).
    do 3 f_equal. unfold struct.pack_8s, ljust.
    rewrite !length_app, !length_replicate.
    replace (8 - (length d + (8 - length d)))%nat with 0%nat by lia.
    cbn [replicate]. rewrite app_nil_r. apply take_ge.
    rewrite length_app, length_replicate. lia. }
  eexists. split; [exact Hpack|]. split; [reflexivity|].
  split; [exact (encode_length _ _ Hpack)|].
  do 9 (destruct d as [|? d]; [cbn; rewrite unpack_pack_I by lia;
                                apply mk_bytes; assumption|]).
  cbn in Hlen. lia.
Qed.

Lemma codec_round_trip_witness :
  codec.decode
    (struct.pack_I 0x7E8 ++ [5] ++ [0x04; 0x41; 0x0C; 0x1A; 0xF8] ++ [0; 0; 0])
  = Ret {| arbitration_id := 0x7E8; data := [0x04; 0x41; 0x0C; 0x1A; 0xF8] |}.
Proof.
  destruct (codec_round_trip 0x7E8 [0x04; 0x41; 0x0C; 0x1A; 0xF8])
    as (w & _ & -> & _ & Hdec).
  - lia.
  - cbn. lia.
  - repeat constructor; lia.
  - exact Hdec.
Defined.

(** ** The trouble-code store *)

Section Store.
Import ecu_simulator obd_reader Spec.

Lemma bind_ret {S A B} (m : ST S A) (f : A -> ST S B) s a s' :
  m s = Ret (a, s') -> (m ≫= f) s = f a s'.
Proof. intros H. unfold mbind, ST_bind. now rewrite H. Qed.

Lemma get_dtcs_bind {B} (f : list (Z * Z) -> M B) w :
  (get_dtcs ≫= f) w = f (active_dtcs w) w.
Proof. reflexivity. Qed.

Lemma randint_eq a b w :
  a <= b -> randint a b w = Ret (drawn a b w, advance w).
Proof.
  intros Hab. unfold randint. now destruct (Z.ltb_spec b a); [lia|].
Qed.

Lemma drawn_range a b w : a <= b -> a <= drawn a b w <= b.
Proof.
  intros Hab. unfold drawn.
  pose proof (Z.mod_pos_bound (entropy (gen w) (cursor (gen w))) (b - a + 1)).
  lia.
Qed.

Lemma randint_spec a b w :
  a <= b -> exists v, randint a b w = Ret (v, advance w) /\ a <= v <= b.
Proof.
  intros Hab. exists (drawn a b w).
  split; [now apply randint_eq|now apply drawn_range].
Qed.

Lemma random_spec w : exists q, random w = Ret (q, advance w).
Proof. eexists. reflexivity. Qed.

Lemma choice_pool w :
  exists d, choice DTC_POOL w = Ret (d, advance w) /\ d ∈ DTC_POOL.
Proof.
  unfold choice, mbind, ST_bind, draw, lift, index.
  set (r := entropy (gen w) (cursor (gen w))).
  pose proof (Z.mod_pos_bound r (Z.of_nat (length DTC_POOL))
                ltac:(cbn; lia)) as Hr.
  destruct (DTC_POOL !! Z.to_nat (r mod Z.of_nat (length DTC_POOL)))
    as [d|] eqn:Hd.
  - exists d. split; [reflexivity|]. eapply list_elem_of_lookup_2, Hd.
  - apply lookup_ge_None in Hd. cbn in Hd, Hr. lia.
Qed.

Lemma existsb_dtc_eqb d l : existsb (dtc_eqb d) l = true <-> d ∈ l.
Proof.
  rewrite existsb_exists. split.
  - intros (x & Hin & Heq). unfold dtc_eqb in Heq.
    apply andb_true_iff in Heq as [H1 H2].
    apply Z.eqb_eq in H1, H2. destruct d, x; cbn in *; subst.
    now apply list_elem_of_In.
  - intros Hin. exists d. split; [now apply list_elem_of_In|].
    unfold dtc_eqb. now rewrite !Z.eqb_refl.
Qed.

Lemma pool_nonzero d : d ∈ DTC_POOL -> d <> (0, 0).
Proof.
  unfold DTC_POOL. rewrite !elem_of_cons, elem_of_nil.
  intros H. repeat destruct H as [->|H]; try discriminate. destruct H.
Qed.

Lemma store_ok_nil : store_ok [].
Proof.
  repeat split; [cbn; lia | constructor | constructor | apply not_elem_of_nil].
Qed.

Lemma store_ok_snoc l d :
  store_ok l -> (length l < 5)%nat -> d ∈ DTC_POOL -> d ∉ l ->
  store_ok (l ++ [d]).
Proof.
  intros (Hlen & Hnd & Hpool & Hz) Hlt Hd Hnew. repeat split.
  - rewrite length_app. cbn. lia.
  - apply NoDup_app. split; [assumption|]. split.
    + intros x Hx Hx'. apply list_elem_of_singleton in Hx'. now subst.
    + apply NoDup_singleton.
  - apply Forall_app. split; [assumption|]. now constructor.
  - rewrite elem_of_app, list_elem_of_singleton. intros [?|Heq]; [tauto|].
    symmetry in Heq. now apply pool_nonzero in Heq.
Qed.

Lemma store_ok_delete l i : store_ok l -> store_ok (delete i l).
Proof.
  intros (Hlen & Hnd & Hpool & Hz).
  pose proof (sublist_delete l i) as Hsub.
  repeat split.
  - apply sublist_length in Hsub. lia.
  - eapply sublist_NoDup; eassumption.
  - now apply Forall_delete.
  - intros Hin. apply Hz. eapply sublist_subseteq; eassumption.
Qed.

Lemma tick_insert_ok w :
  store_ok (active_dtcs w) ->
  exists w', tick_insert w = Ret (tt, w') /\ store_ok (active_dtcs w').
Proof.
  intros Hok. unfold tick_insert.
  destruct (random_spec w) as (q & Hq). rewrite (bind_ret _ _ _ _ _ Hq).
  destruct (Qltb q float_0_7); [|eexists; split; [reflexivity|exact Hok]].
  rewrite get_dtcs_bind.
  change (active_dtcs (advance w)) with (active_dtcs w).
  destruct (Nat.ltb_spec (length (active_dtcs w)) 5) as [Hlt|Hge];
    [|eexists; split; [reflexivity|exact Hok]].
  destruct (choice_pool (advance w)) as (d & Hd & Hin).
  rewrite (bind_ret _ _ _ _ _ Hd).
  destruct (existsb (dtc_eqb d) (active_dtcs w)) eqn:Hex; cbn [negb].
  - eexists; split; [reflexivity|exact Hok].
  - eexists; split; [reflexivity|]. cbn. apply store_ok_snoc; try assumption.
    rewrite <- existsb_dtc_eqb. now rewrite Hex.
Qed.

Lemma tick_remove_ok w :
  store_ok (active_dtcs w) ->
  exists w', tick_remove w = Ret (tt, w') /\ store_ok (active_dtcs w').
Proof.
  intros Hok. unfold tick_remove. rewrite get_dtcs_bind.
  destruct (active_dtcs w) as [|d l] eqn:Hl;
    [eexists; split; [reflexivity|now rewrite Hl]|].
  destruct (random_spec w) as (q & Hq). rewrite (bind_ret _ _ _ _ _ Hq).
  destruct (Qltb q float_0_1);
    [|eexists; split; [reflexivity|cbn; now rewrite Hl]].
  destruct (randint_spec 0 (Z.of_nat (length (d :: l)) - 1) (advance w))
    as (i & Hi & Hrange); [cbn [length]; lia|].
  rewrite (bind_ret _ _ _ _ _ Hi).
  unfold pop_at.
  replace ((0 <=? i) && (i <? Z.of_nat (length (d :: l)))) with true
    by (symmetry; rewrite andb_true_iff, Z.leb_le, Z.ltb_lt; lia).
  eexists; split; [reflexivity|]. cbn [active_dtcs with_dtcs].
  now apply store_ok_delete.
Qed.

(** A turn of the generator always completes and keeps the store in
    order. *)
Lemma generator_tick_ok w :
  store_ok (active_dtcs w) ->
  exists w', generator_tick w = Ret (tt, w') /\ store_ok (active_dtcs w').
Proof.
  intros Hok. unfold generator_tick.
  destruct (randint_spec 5 10 w ltac:(lia)) as (v & Hv & _).
  rewrite (bind_ret _ _ _ _ _ Hv).
  destruct (tick_insert_ok (advance w) Hok) as (w1 & H1 & Hok1).
  rewrite (bind_ret _ _ _ _ _ H1).
  now apply tick_remove_ok.
Qed.

(** A clear request always completes and leaves the store empty. *)
Lemma serve_clear_ok w :
  exists w', serve false clear_request w = Ret (tt, w') /\ active_dtcs w' = [].
Proof. eexists. split; reflexivity. Qed.

Lemma run_step_ok o w :
  store_ok (active_dtcs w) ->
  exists w', run_step (to_step o) w = Ret (tt, w')
             /\ store_ok (active_dtcs w').
Proof.
  intros Hok. destruct o; cbn [to_step run_step].
  - now apply generator_tick_ok.
  - destruct (serve_clear_ok w) as (w' & Hw' & Hnil).
    exists w'. split; [exact Hw'|]. rewrite Hnil. apply store_ok_nil.
Qed.

Lemma run_ok ops : forall w,
  store_ok (active_dtcs w) ->
  exists w', run (map to_step ops) w = Ret (tt, w')
             /\ store_ok (active_dtcs w').
Proof.
  induction ops as [|o ops IH]; intros w Hok; cbn [map run].
  - exists w. split; [reflexivity|exact Hok].
  - destruct (run_step_ok o w Hok) as (w1 & H1 & Hok1).
    rewrite (bind_ret _ _ _ _ _ H1). now apply IH.
Qed.

End Store.

(** C8. Started on an empty store, every sequence of generator turns and
    clear requests runs to its end, and the store then holds at most 5
    codes, no code twice, only codes of the pool, and never (0x00,0x00).
    A prefix of a sequence being a sequence, this holds at every point of
    a run. *)
Theorem active_dtcs_invariant (ops : list Spec.store_op) (w : ecu_simulator.world) :
  exists w',
    ecu_simulator.run (map Spec.to_step ops) (ecu_simulator.with_dtcs [] w)
      = Ret (tt, w')
    /\ (length (ecu_simulator.active_dtcs w') <= 5)%nat
    /\ NoDup (ecu_simulator.active_dtcs w')
    /\ Forall (fun d => d ∈ ecu_simulator.DTC_POOL) (ecu_simulator.active_dtcs w')
    /\ (0, 0) ∉ ecu_simulator.active_dtcs w'.
Proof.
  apply (run_ok ops (ecu_simulator.with_dtcs [] w)). apply store_ok_nil.
Qed.

(** ** Services 0x03 and 0x04 *)

Section Services.
Import ecu_simulator obd_reader Spec.

(** A tape on which the first turn of the generator sleeps, passes the
    0.7 test, picks the fourth code of the pool, and fails the 0.1 test. *)
Example generator_inserts_P0300 :
  exists w', generator_tick (boot (tape [0; 0; 3; 2 ^ 53 - 1]) []) = Ret (tt, w')
             /\ active_dtcs w' = [(0x03, 0x00)].
Proof. eexists. split; reflexivity. Qed.

(** On an empty store service 0x03 answers the 8 bytes of the
    zero-count frame. *)
Lemma service3_empty msg w :
  exists r w', service3 msg (with_dtcs [] w) = Ret (r, w')
    /\ r = {| arbitration_id := 0x7e8;
              data := [0x01; 0x43; 0; 0; 0; 0; 0; 0] |}
    /\ active_dtcs w' = [].
Proof. do 2 eexists. repeat split. Qed.

Lemma service4_clears msg w :
  exists w', service4 msg w
    = Ret ({| arbitration_id := 0x7e8;
              data := [0x01; 0x44; 0; 0; 0; 0; 0; 0] |}, w')
    /\ active_dtcs w' = [].
Proof. eexists. split; reflexivity. Qed.

End Services.

(** C9. Service 0x04 served twice in a row answers the payload
    [0x01,0x44,0,0,0,0,0,0] both times and leaves the store empty; service
    0x03 served next answers [0x01,0x43,0,0,0,0,0,0]. *)
Theorem clear_idempotent (m1 m2 m3 : Message) (w : ecu_simulator.world) :
  exists r w1 w2 r3 w3,
    ecu_simulator.service4 m1 w = Ret (r, w1)
    /\ ecu_simulator.service4 m2 w1 = Ret (r, w2)
    /\ data r = [0x01; 0x44; 0; 0; 0; 0; 0; 0]
    /\ ecu_simulator.active_dtcs w1 = []
    /\ ecu_simulator.active_dtcs w2 = []
    /\ ecu_simulator.service3 m3 w2 = Ret (r3, w3)
    /\ data r3 = [0x01; 0x43; 0; 0; 0; 0; 0; 0]
    /\ ecu_simulator.active_dtcs w3 = [].
Proof.
  destruct (service4_clears m1 w) as (w1 & H1 & E1).
  destruct (service4_clears m2 w1) as (w2 & H2 & E2).
  exists {| arbitration_id := 0x7e8; data := [0x01; 0x44; 0; 0; 0; 0; 0; 0] |},
    w1, w2.
  destruct (service3_empty m3 w2) as (r3 & w3 & H3 & -> & E3).
  replace (ecu_simulator.with_dtcs [] w2) with w2 in H3
    by (destruct w2; cbn in E2; now subst).
  do 2 eexists. repeat split; eassumption || reflexivity.
Qed.

(** C3 (the code departs from it). With the single code (0x03,0x00)
    stored, service 0x03 builds a message of 9 data bytes whose first byte
    is 0x07, and the bridge puts the length byte 9 and the payload
    [0x07,0x43,0x03,0,0,0,0,0] on the wire; on the empty store it answers
    [0x01,0x43,0,0,0,0,0,0]. *)
Theorem service3_single_code (msg : Message) (w : ecu_simulator.world) :
  (exists r w',
     ecu_simulator.service3 msg (ecu_simulator.with_dtcs [(0x03, 0x00)] w)
       = Ret (r, w')
     /\ data r = [0x07; 0x43; 0x03; 0x00; 0; 0; 0; 0; 0]
     /\ codec.encode r
        = Ret ([0xE8; 0x07; 0; 0] ++ [9] ++ [0x07; 0x43; 0x03; 0x00; 0; 0; 0; 0]))
  /\ (exists r w',
        ecu_simulator.service3 msg (ecu_simulator.with_dtcs [] w) = Ret (r, w')
        /\ data r = [0x01; 0x43; 0; 0; 0; 0; 0; 0]).
Proof.
  split.
  - do 2 eexists. repeat split.
  - destruct (service3_empty msg w) as (r & w' & H & -> & _).
    do 2 eexists. split; [exact H|reflexivity].
Qed.

(** C4 (the code departs from it). A read request served with one code in
    the store reaches the client as 13 bytes whose length field is 9. *)
Theorem service3_frame_length_field (g : ecu_simulator.rng) :
  exists w' wire,
    ecu_simulator.serve false obd_reader.read_request
      (ecu_simulator.with_dtcs [(0x03, 0x00)] (ecu_simulator.boot g [0%nat]))
      = Ret (tt, w')
    /\ ecu_simulator.tcp_sent w' = [(0%nat, wire)]
    /\ length wire = 13%nat
    /\ wire !! 4%nat = Some 9
    /\ drop 5 wire = [0x07; 0x43; 0x03; 0x00; 0; 0; 0; 0].
Proof. do 2 eexists. repeat split. Qed.

(** ** The reader's correlation *)

Section Reader.
Import obd_reader Spec.

Lemma wait_loop_spec arrivals : forall q,
  exists n dropped,
    (n <= length arrivals)%nat
    /\ Forall (fun m => arbitration_id m <> RESPONSE_ID) dropped
    /\ q ++ concat (take n arrivals)
       = dropped ++ option_list (wait_loop arrivals q).1 ++ (wait_loop arrivals q).2
    /\ (length dropped + length (option_list (wait_loop arrivals q).1) <= n)%nat
    /\ match (wait_loop arrivals q).1 with
       | Some m => arbitration_id m = RESPONSE_ID
       | None => n = length arrivals
       end.
Proof.
  induction arrivals as [|a later IH]; intros q; cbn [wait_loop].
  - exists 0%nat, []. cbn. rewrite app_nil_r. repeat split; constructor.
  - destruct (q ++ a) as [|msg rest] eqn:Hqa.
    + destruct (IH []) as (n & dropped & Hn & Hd & Heq & Hlen & Hres).
      exists (S n), dropped. cbn [take concat length].
      rewrite app_assoc, Hqa. repeat split; [lia|assumption..|lia| ].
      destruct (wait_loop later []).1; [assumption|lia].
    + destruct (Z.eqb_spec (arbitration_id msg) RESPONSE_ID) as [Hid|Hid].
      * exists 1%nat, []. cbn. rewrite !app_nil_r, Hqa.
        repeat split; [lia|constructor|lia|assumption].
      * destruct (IH rest) as (n & dropped & Hn & Hd & Heq & Hlen & Hres).
        exists (S n), (msg :: dropped). cbn [take concat length].
        rewrite app_assoc, Hqa. cbn [app]. rewrite Heq.
        repeat split; [lia|now constructor|lia| ].
        destruct (wait_loop later rest).1; [assumption|lia].
Qed.

(** A wait during which nothing arrives, on a queue whose first frame
    with the response id is within reach of the turns there are. *)
Lemma wait_loop_reaches pre m post : forall k,
  Forall (fun m => arbitration_id m <> RESPONSE_ID) pre ->
  arbitration_id m = RESPONSE_ID -> (length pre < k)%nat ->
  wait_loop (replicate k []) (pre ++ m :: post) = (Some m, post).
Proof.
  induction pre as [|x pre IH]; intros k Hpre Hm Hk.
  - destruct k as [|k]; [cbn in Hk; lia|].
    cbn [replicate wait_loop app]. rewrite app_nil_r.
    now rewrite Hm, Z.eqb_refl.
  - destruct k as [|k]; [cbn in Hk; lia|].
    apply Forall_cons in Hpre as [Hx Hpre].
    cbn [replicate wait_loop app]. rewrite app_nil_r.
    rewrite (proj2 (Z.eqb_neq _ _) Hx).
    apply IH; [assumption..|cbn in Hk; lia].
Qed.

(** The same wait when the first [k] frames queued all carry another
    id: one frame goes per turn. *)
Lemma wait_loop_runs_out k : forall q,
  Forall (fun m => arbitration_id m <> RESPONSE_ID) (take k q) ->
  wait_loop (replicate k []) q = (None, drop k q).
Proof.
  induction k as [|k IH]; intros q Hq; [now destruct q|].
  cbn [replicate wait_loop]. rewrite app_nil_r.
  destruct q as [|x q].
  - rewrite (IH []); [now destruct k|]. destruct k; constructor.
  - cbn [firstn] in Hq. apply Forall_cons in Hq as [Hx Hq].
    rewrite (proj2 (Z.eqb_neq _ _) Hx). now apply IH.
Qed.

Lemma with_queue_same r : with_queue (response_queue r) r = r.
Proof. now destruct r. Qed.

Lemma wait_response_eq arrivals r :
  wait_response arrivals r
  = Ret ((wait_loop arrivals (response_queue r)).1,
         with_queue (wait_loop arrivals (response_queue r)).2 r).
Proof.
  unfold wait_response. now destruct (wait_loop arrivals (response_queue r)).
Qed.

Lemma index_Ret {A} (l : list A) i x : index l i = Ret x <-> l !! i = Some x.
Proof. unfold index. destruct (l !! i); split; congruence. Qed.

Lemma read_rpm_after_wait arrivals r :
  match read_rpm arrivals r with
  | Ret (v, r') =>
      response_queue r' = (wait_loop arrivals (response_queue r)).2
      /\ (is_Some v <->
          exists m, (wait_loop arrivals (response_queue r)).1 = Some m
                    /\ data m !! 1%nat = Some 0x41
                    /\ data m !! 2%nat = Some 0x0C)
  | Raise e =>
      e = IndexError
      /\ exists m, (wait_loop arrivals (response_queue r)).1 = Some m
                   /\ (length (data m) < 5)%nat
  end.
Proof.
  unfold read_rpm.
  assert (Hsend : exists r1, send_request SERVICE_CURRENT_DATA 0x0C r = Ret (tt, r1)
                             /\ response_queue r1 = response_queue r).
  { unfold send_request, sendall, mbind, ST_bind, lift. cbn.
    set (e := codec.encode _). vm_compute in e. subst e. cbn.
    destruct (link_up r); eexists; split; reflexivity. }
  destruct Hsend as (r1 & Hsend & Hq). rewrite (bind_ret _ _ _ _ _ Hsend).
  unfold wait_response at 1. unfold mbind at 1, ST_bind at 1. rewrite Hq.
  destruct (wait_loop arrivals (response_queue r)) as [[m|] q']; cbn [fst snd].
  2:{ cbn. split; [reflexivity|]. split; [intros [? [=]]|intros (? & [=] & _)]. }
  assert (Hshort : forall i, (i < 5)%nat -> data m !! i = None ->
            @Raise (option Q * reader) IndexError = Raise IndexError
            /\ exists m', Some m = Some m' /\ (length (data m') < 5)%nat).
  { intros i Hi Hnone. split; [reflexivity|]. exists m. split; [reflexivity|].
    apply lookup_ge_None in Hnone. lia. }
  unfold answers, lift, index, mbind, ST_bind, res_bind.
  destruct (data m !! 1%nat) as [b1|] eqn:H1;
    [|destruct (Hshort 1%nat ltac:(lia) H1) as [_ Hm]; now split].
  destruct (Z.eqb_spec b1 0x41) as [->|Hb1].
  2:{ cbn. split; [reflexivity|]. split; [intros [? [=]]|].
      intros (? & [= <-] & E & _). congruence. }
  destruct (data m !! 2%nat) as [b2|] eqn:H2;
    [|destruct (Hshort 2%nat ltac:(lia) H2) as [_ Hm]; now split].
  destruct (Z.eqb_spec b2 0x0C) as [->|Hb2].
  2:{ cbn. split; [reflexivity|]. split; [intros [? [=]]|].
      intros (? & [= <-] & _ & E). congruence. }
  destruct (data m !! 3%nat) as [a|] eqn:H3;
    [|destruct (Hshort 3%nat ltac:(lia) H3) as [_ Hm]; now split].
  destruct (data m !! 4%nat) as [b|] eqn:H4;
    [|destruct (Hshort 4%nat ltac:(lia) H4) as [_ Hm]; now split].
  cbn. split; [reflexivity|]. split; [|eauto].
  intros _. exists m. auto.
Qed.

End Reader.

(** C2, the claim refuted. With an answer to a speed query left at the
    head of the queue, an RPM query takes that frame off the queue, finds
    that byte 2 is not 0x0C, and returns nothing: the frame did not match
    what the query expected, and it is gone. *)
Lemma unmatched_frame_removed :
  let stale := {| arbitration_id := 0x7E8; data := [0x03; 0x41; 0x0D; 0x32] |} in
  exists r',
    obd_reader.read_rpm [[]] (obd_reader.start [stale]) = Ret (None, r')
    /\ Spec.expected 0x41 0x0C stale = false
    /\ stale ∉ obd_reader.response_queue r'.
Proof.
  eexists. split; [reflexivity|]. split; [reflexivity|]. apply not_elem_of_nil.
Qed.

(** C2, as the code has it. A turn of the loop of [wait_response] takes
    the frame at the head of the queue off, whatever it is: the call
    returns it when its identifier is 0x7E8, with the frames behind it
    left queued, and drops it and goes on otherwise; a turn that finds
    the queue empty takes nothing, and when the turns run out nothing is
    returned. So over a wait of [k] turns during which nothing arrives,
    the first frame with identifier 0x7E8 is returned when fewer than [k]
    frames stand before it, those frames are gone and the ones behind it
    stay; when the first [k] frames all carry other identifiers they are
    all gone and nothing is returned. Over any wait, what was queued and
    what arrived splits into the frames dropped (other identifiers, at
    most one per turn), the frame returned, and the frames left, in
    arrival order. Bytes 1 and 2 are compared by the query, after the
    removal: [read_rpm] yields a value exactly when the frame returned
    has 0x41 and 0x0C there, it leaves the queue as [wait_response] left
    it, and it raises only [IndexError], on a frame of fewer than five
    data bytes. *)
Theorem wait_response_fifo (arrived : list Message)
    (later arrivals : list (list Message)) (k : nat) (r : obd_reader.reader) :
  let q := obd_reader.response_queue r in
  let other := fun m => arbitration_id m <> obd_reader.RESPONSE_ID in
  (forall msg rest,
     q ++ arrived = msg :: rest ->
     arbitration_id msg = obd_reader.RESPONSE_ID ->
     obd_reader.wait_response (arrived :: later) r
     = Ret (Some msg, obd_reader.with_queue rest r))
  /\ (forall msg rest,
        q ++ arrived = msg :: rest -> other msg ->
        obd_reader.wait_response (arrived :: later) r
        = obd_reader.wait_response later (obd_reader.with_queue rest r))
  /\ (q ++ arrived = [] ->
      obd_reader.wait_response (arrived :: later) r
      = obd_reader.wait_response later r)
  /\ obd_reader.wait_response [] r = Ret (None, r)
  /\ (forall pre m post,
        q = pre ++ m :: post -> Forall other pre ->
        arbitration_id m = obd_reader.RESPONSE_ID -> (length pre < k)%nat ->
        obd_reader.wait_response (replicate k []) r
        = Ret (Some m, obd_reader.with_queue post r))
  /\ (Forall other (take k q) ->
      obd_reader.wait_response (replicate k []) r
      = Ret (None, obd_reader.with_queue (drop k q) r))
  /\ (exists result q' n dropped,
        obd_reader.wait_response arrivals r
        = Ret (result, obd_reader.with_queue q' r)
        /\ (n <= length arrivals)%nat
        /\ Forall other dropped
        /\ q ++ concat (take n arrivals) = dropped ++ option_list result ++ q'
        /\ (length dropped + length (option_list result) <= n)%nat
        /\ match result with
           | Some m => arbitration_id m = obd_reader.RESPONSE_ID
           | None => n = length arrivals
           end)
  /\ (forall result r1,
        obd_reader.wait_response arrivals r = Ret (result, r1) ->
        match obd_reader.read_rpm arrivals r with
        | Ret (v, r') =>
            obd_reader.response_queue r' = obd_reader.response_queue r1
            /\ (is_Some v <->
                exists m, result = Some m
                          /\ data m !! 1%nat = Some 0x41
                          /\ data m !! 2%nat = Some 0x0C)
        | Raise e =>
            e = IndexError
            /\ exists m, result = Some m /\ (length (data m) < 5)%nat
        end).
Proof.
  cbv zeta. repeat apply conj.
  - intros msg rest Hq Hid. rewrite wait_response_eq.
    cbn [obd_reader.wait_loop]. rewrite Hq, Hid, Z.eqb_refl. reflexivity.
  - intros msg rest Hq Hid. rewrite !wait_response_eq.
    cbn [obd_reader.wait_loop]. rewrite Hq, (proj2 (Z.eqb_neq _ _) Hid).
    now destruct r.
  - intros Hq. rewrite !wait_response_eq. cbn [obd_reader.wait_loop].
    rewrite Hq. apply app_eq_nil in Hq as [-> _]. reflexivity.
  - rewrite wait_response_eq. cbn. now rewrite with_queue_same.
  - intros pre m post Hq Hpre Hm Hk. rewrite wait_response_eq, Hq.
    now rewrite (wait_loop_reaches pre m post k Hpre Hm Hk).
  - intros Hq. rewrite wait_response_eq.
    now rewrite (wait_loop_runs_out k _ Hq).
  - destruct (wait_loop_spec arrivals (obd_reader.response_queue r))
      as (n & dropped & H).
    eexists _, _, n, dropped. split; [apply wait_response_eq|exact H].
  - intros result r1 Hw. rewrite wait_response_eq in Hw.
    injection Hw as <- <-. apply read_rpm_after_wait.
Qed.

Lemma wait_response_fifo_witness :
  let stray := {| arbitration_id := 0x7DF; data := [0x02; 0x01; 0x0C] |} in
  let answer := {| arbitration_id := 0x7E8; data := [0x03; 0x41; 0x0D; 0x32] |} in
  let next := {| arbitration_id := 0x7E8; data := [0x03; 0x41; 0x05; 0x80] |} in
  obd_reader.wait_response (replicate 2 [])
    (obd_reader.start [stray; answer; next])
  = Ret (Some answer,
         obd_reader.with_queue [next] (obd_reader.start [stray; answer; next])).
Proof.
  intros stray answer next.
  refine (proj1 (proj2 (proj2 (proj2 (proj2
            (wait_response_fifo [] [] [] 2
               (obd_reader.start [stray; answer; next]))))))
            [stray] answer [next] eq_refl _ eq_refl _).
  - apply Forall_cons. split; [discriminate|constructor].
  - cbn. lia.
Defined.

(** ** The receive tasks *)

Section Receive.
Import ecu_simulator obd_reader Spec.

Lemma receive_step_short bytes w :
  length bytes <> 13%nat -> receive_step (Recv bytes) w = (Running, w).
Proof.
  intros Hlen. unfold receive_step.
  now destruct (Nat.eqb_spec (length bytes) 13).
Qed.

Lemma receiver_step_short bytes q :
  length bytes <> 13%nat -> receiver_step (Recv bytes) q = (Running, q).
Proof.
  intros Hlen. unfold receiver_step.
  now destruct (Nat.eqb_spec (length bytes) 13).
Qed.

Lemma receive_from_client_error client evs w :
  exists w', receive_from_client client (RecvError :: evs) w = (Stopped, w')
    /\ client_sockets w' = list_remove client (client_sockets w)
    /\ incoming_requests w' = incoming_requests w.
Proof.
  unfold receive_from_client. cbn [receive_loop receive_step].
  destruct (existsb (Nat.eqb client) (client_sockets w)) eqn:Hin.
  - eexists. repeat split.
  - exists w. repeat split.
    induction (client_sockets w) as [|c l IH]; [reflexivity|].
    cbn in Hin |- *. destruct (Nat.eqb client c); [discriminate|].
    cbn in Hin. now rewrite <- IH.
Qed.

End Receive.

(** C5, the claim refuted. The ECU's receive task gets 3 bytes and then a
    whole frame from client 7: after the short read the task is still
    running and the client still registered, and the frame that follows
    is read from the same stream and queued. *)
Lemma short_read_keeps_connection :
  exists w',
    ecu_simulator.receive_from_client 7
      [Recv [0xDF; 0x07; 0x00];
       Recv [0xDF; 0x07; 0; 0; 8; 0x02; 0x01; 0x0C; 0; 0; 0; 0; 0]]
      (ecu_simulator.boot (Spec.tape []) [7%nat])
    = (Running, w')
    /\ ecu_simulator.client_sockets w' = [7%nat]
    /\ ecu_simulator.incoming_requests w' = [obd_reader.request 0x01 0x0C].
Proof. eexists. repeat split. Qed.

(** ** Service 0x01 and the queries for it *)

Section Dispatcher.
Import ecu_simulator obd_reader Spec.

Lemma service1_unknown pid msg w :
  pid ∉ supported_pids -> data msg !! 2%nat = Some pid ->
  service1 msg w = Ret (None, w).
Proof.
  unfold supported_pids. rewrite !not_elem_of_cons.
  intros (?&?&?&?&?&?&?&?&?&?&_) Hpid.
  unfold service1, index. rewrite Hpid.
  unfold lift at 1. unfold mbind at 1, ST_bind at 1.
  repeat match goal with
         | H : pid <> ?k |- _ => rewrite (proj2 (Z.eqb_neq pid k) H); clear H
         end.
  reflexivity.
Qed.

Lemma serve_unknown pid local msg w :
  pid ∉ supported_pids ->
  arbitration_id msg = 0x7df ->
  data msg !! 1%nat = Some 0x01 ->
  data msg !! 2%nat = Some pid ->
  serve local msg w = Ret (tt, w).
Proof.
  intros Hu Hid Hsvc Hpid. unfold serve, index. rewrite Hid, Hsvc.
  cbn [Z.eqb Pos.eqb].
  rewrite (bind_ret _ _ _ 0x01 w eq_refl). cbn [Z.eqb Pos.eqb].
  now rewrite (bind_ret _ _ _ _ _ (service1_unknown pid msg w Hu Hpid)).
Qed.

Lemma wait_loop_silent n : wait_loop (replicate n []) [] = (None, []).
Proof. induction n as [|n IH]; [reflexivity|exact IH]. Qed.

Lemma encode_frame8 arb b0 b1 b2 b3 b4 b5 b6 b7 :
  0 <= arb < 2 ^ 32 ->
  codec.encode {| arbitration_id := arb; data := [b0; b1; b2; b3; b4; b5; b6; b7] |}
  = Ret (struct.pack_I arb ++ [8; b0; b1; b2; b3; b4; b5; b6; b7]).
Proof.
  intros Harb. unfold codec.encode, struct.pack, dlc. cbn [arbitration_id data length].
  replace ((0 <=? arb) && (arb <? 2 ^ 32)) with true
    by (symmetry; rewrite andb_true_iff, Z.leb_le, Z.ltb_lt; lia).
  reflexivity.
Qed.

Lemma send_request_wire s pid r :
  0 <= s < 256 -> 0 <= pid < 256 -> link_up r = true ->
  send_request s pid r
  = Ret (tt, with_out (tcp_out r ++ [[0xDF; 0x07; 0; 0; 8; 0x02; s; pid; 0; 0; 0; 0; 0]]) r).
Proof.
  intros Hs Hp Hup. unfold send_request.
  rewrite mk_bytes by (repeat constructor; lia).
  unfold lift, mbind, ST_bind, sendall. cbv beta iota.
  rewrite encode_frame8 by (unfold REQUEST_ID; lia). now rewrite Hup.
Qed.

Lemma decode_request s pid :
  0 <= s < 256 -> 0 <= pid < 256 ->
  codec.decode [0xDF; 0x07; 0; 0; 8; 0x02; s; pid; 0; 0; 0; 0; 0]
  = Ret (request s pid).
Proof.
  intros Hs Hp. unfold codec.decode. cbn.
  apply mk_bytes. repeat constructor; lia.
Qed.

Lemma service1_rpm msg w :
  data msg !! 2%nat = Some 0x0C ->
  let A := drawn 18 70 w in
  let B := drawn 0 255 (advance w) in
  let response :=
    {| arbitration_id := 0x7e8; data := [0x04; 0x41; 0x0C; A; B] |} in
  service1 msg w
  = Ret (Some response,
         with_bus (bus_sent w ++ [response]) (advance (advance w))).
Proof.
  intros Hpid A B response.
  pose proof (drawn_range 18 70 w ltac:(lia)).
  pose proof (drawn_range 0 255 (advance w) ltac:(lia)).
  unfold service1, index. rewrite Hpid.
  rewrite (bind_ret _ _ _ 0x0C w eq_refl). cbn [Z.eqb Pos.eqb].
  assert (Hdraws :
    (randint 18 70 ≫= λ a, randint 0 255 ≫= λ b,
       respond [0x04; 0x41; 0x0C; a; b]) w
    = Ret (Some response, advance (advance w))).
  { rewrite (bind_ret _ _ _ _ _ (randint_eq 18 70 w ltac:(lia))).
    rewrite (bind_ret _ _ _ _ _ (randint_eq 0 255 (advance w) ltac:(lia))).
    unfold respond.
    rewrite mk_bytes
      by (repeat (apply Forall_cons; split; [lia|]); constructor).
    reflexivity. }
  rewrite (bind_ret _ _ _ _ _ Hdraws). reflexivity.
Qed.

Lemma rpm_bytes_attainable A B clients :
  18 <= A <= 70 -> 0 <= B <= 255 ->
  exists w',
    service1 (request SERVICE_CURRENT_DATA 0x0C) (boot (tape [A - 18; B]) clients)
    = Ret (Some {| arbitration_id := 0x7e8; data := [0x04; 0x41; 0x0C; A; B] |}, w').
Proof.
  intros HA HB.
  pose proof (service1_rpm (request SERVICE_CURRENT_DATA 0x0C)
                (boot (tape [A - 18; B]) clients) eq_refl) as Hs.
  cbv zeta in Hs. unfold drawn in Hs.
  cbn [boot gen tape entropy cursor nth advance with_gen] in Hs.
  change (70 - 18 + 1) with 53 in Hs. change (255 - 0 + 1) with 256 in Hs.
  rewrite (Z.mod_small (A - 18)), (Z.mod_small B) in Hs by lia.
  replace (18 + (A - 18)) with A in Hs by lia.
  eexists. exact Hs.
Qed.

Lemma rpm_frame_read A B :
  0 <= A < 256 -> 0 <= B < 256 ->
  let f := {| arbitration_id := 0x7e8; data := [0x04; 0x41; 0x0C; A; B] |} in
  exists wire r',
    codec.encode f = Ret wire
    /\ _tcp_receiver [Recv wire] [] = (Running, [f])
    /\ read_rpm [[f]] (start [])
       = Ret (Some (inject_Z (A * 256 + B) / inject_Z 4)%Q, r').
Proof.
  intros HA HB f. do 2 eexists. split; [reflexivity|]. split.
  - cbn. unfold codec.decode. cbn.  rewrite mk_bytes by (repeat constructor; lia). reflexivity.
  - reflexivity.
Qed.

End Dispatcher.

(** ** Reading the trouble codes back *)

Section TroubleCodes.
Import ecu_simulator obd_reader Spec.

Lemma pair_offsets_8 : pair_offsets 8 = [2; 4; 6]%nat.
Proof. reflexivity. Qed.

Lemma pair_offsets_le8 n i :
  (n <= 8)%nat -> i ∈ pair_offsets n -> i ∈ [2; 4; 6]%nat.
Proof.
  intros Hn.
  do 9 (destruct n as [|n];
        [vm_compute (pair_offsets _); rewrite !elem_of_cons, ?elem_of_nil; tauto|]).
  lia.
Qed.

Lemma parse_pair_spec d i hi lo :
  d !! i = Some hi -> d !! (i + 1)%nat = Some lo ->
  parse_pair d i = Ret (if decide (hi <> 0) then [dtc_text (hi, lo)] else []).
Proof.
  intros Hhi Hlo. unfold parse_pair, index. rewrite Hhi. cbn.
  destruct (Z.eqb_spec hi 0) as [->|Hne]; cbn.
  - reflexivity.
  - rewrite Hlo. cbn. destruct (decide (hi <> 0)); [reflexivity|contradiction].
Qed.

Ltac bytes_ok :=
  repeat (apply Forall_cons; split; [cbn in *; lia|]); constructor.

Lemma parse_pair_chunk d i hi lo :
  d !! i = Some hi -> d !! (i + 1)%nat = Some lo ->
  parse_pair d i = Ret (chunk hi lo).
Proof. apply parse_pair_spec. Qed.

Lemma frame9_read_back a1 b1 a2 b2 a3 b3 :
  Forall (fun b => 0 <= b < 256) [a1; b1; a2; b2; a3; b3] ->
  let resp := {| arbitration_id := 0x7e8;
                 data := [0x07; 0x43; a1; b1; a2; b2; a3; b3; 0] |} in
  let wire := [0xE8; 0x07; 0; 0; 9; 0x07; 0x43; a1; b1; a2; b2; a3; b3] in
  let m := {| arbitration_id := 0x7e8;
              data := [0x07; 0x43; a1; b1; a2; b2; a3; b3] |} in
  can.mk 0x7e8 (data resp) = Ret resp
  /\ codec.encode resp = Ret wire
  /\ codec.decode wire = Ret m
  /\ parse_dtcs (Some m) = Ret (chunk a1 b1 ++ chunk a2 b2 ++ chunk a3 b3).
Proof.
  intros Hb resp wire m.
  assert (Hall : Forall (fun b => 0 <= b < 256)
                   [0x07; 0x43; a1; b1; a2; b2; a3; b3; 0]).
  { apply Forall_cons; split; [lia|]. apply Forall_cons; split; [lia|].
    apply Forall_app with (l1 := [a1; b1; a2; b2; a3; b3]) (l2 := [0]).
    split; [exact Hb|]. apply Forall_cons; split; [lia|constructor]. }
  split; [now apply mk_bytes|]. split; [reflexivity|]. split.
  - unfold codec.decode. cbn. apply mk_bytes.
    exact (Forall_take _ 8 _ Hall).
  - unfold parse_dtcs, m. cbn [data]. change (index _ 1%nat) with (Ret (A:=Z) 0x43).
    cbn [mbind res_bind Z.eqb Pos.eqb]. cbn [length]. rewrite pair_offsets_8.
    cbn [parse_pairs].
    rewrite (parse_pair_chunk _ 2 a1 b1), (parse_pair_chunk _ 4 a2 b2),
      (parse_pair_chunk _ 6 a3 b3) by reflexivity.
    cbn [mbind res_bind]. now rewrite app_nil_r.
Qed.

Lemma service3_some d dtcs msg w :
  Forall byte_pair (d :: dtcs) ->
  exists a1 b1 a2 b2 a3 b3,
    Forall (fun b => 0 <= b < 256) [a1; b1; a2; b2; a3; b3]
    /\ service3 msg (with_dtcs (d :: dtcs) w)
       = Ret ({| arbitration_id := 0x7e8;
                 data := [0x07; 0x43; a1; b1; a2; b2; a3; b3; 0] |},
              with_bus (bus_sent w ++
                          [{| arbitration_id := 0x7e8;
                              data := [0x07; 0x43; a1; b1; a2; b2; a3; b3; 0] |}])
                (with_dtcs (d :: dtcs) w))
    /\ chunk a1 b1 ++ chunk a2 b2 ++ chunk a3 b3
       = map dtc_text (filter (fun d => d.1 <> 0) (take 3 (d :: dtcs))).
Proof.
  intros Hb.
  assert (Hgo : forall a1 b1 a2 b2 a3 b3,
    Forall (fun b => 0 <= b < 256) [a1; b1; a2; b2; a3; b3] ->
    pad8 ([0x43] ++ dtc_bytes (d :: dtcs)) = [0x43; a1; b1; a2; b2; a3; b3; 0] ->
    service3 msg (with_dtcs (d :: dtcs) w)
    = Ret ({| arbitration_id := 0x7e8;
              data := [0x07; 0x43; a1; b1; a2; b2; a3; b3; 0] |},
           with_bus (bus_sent w ++
                       [{| arbitration_id := 0x7e8;
                           data := [0x07; 0x43; a1; b1; a2; b2; a3; b3; 0] |}])
             (with_dtcs (d :: dtcs) w))).
  { intros a1 b1 a2 b2 a3 b3 Hbytes Hpad. unfold service3.
    rewrite get_dtcs_bind. cbn [active_dtcs with_dtcs length Nat.eqb].
    rewrite Hpad.
    change (can.mk 0x7e8 _)
      with (can.mk 0x7e8 [0x07; 0x43; a1; b1; a2; b2; a3; b3; 0]).
    destruct (frame9_read_back a1 b1 a2 b2 a3 b3 Hbytes) as (Hmk & _).
    cbn [data] in Hmk. rewrite Hmk. reflexivity. }
  destruct d as [h1 l1]. destruct dtcs as [|[h2 l2] [|[h3 l3] rest]].
  - apply Forall_cons in Hb as [[? ?] _]. cbn in *.
    exists h1, l1, 0, 0, 0, 0. split; [bytes_ok|].
    split; [now apply Hgo; [bytes_ok|]|].
    unfold chunk. cbn [firstn]. rewrite ?filter_cons, ?filter_nil. cbn [fst].
    destruct (decide (h1 <> 0)); reflexivity.
  - apply Forall_cons in Hb as [[? ?] Hb].
    apply Forall_cons in Hb as [[? ?] _]. cbn in *.
    exists h1, l1, h2, l2, 0, 0. split; [bytes_ok|].
    split; [now apply Hgo; [bytes_ok|]|].
    unfold chunk. cbn [firstn]. rewrite ?filter_cons, ?filter_nil. cbn [fst].
    destruct (decide (h1 <> 0)), (decide (h2 <> 0)); reflexivity.
  - apply Forall_cons in Hb as [[? ?] Hb].
    apply Forall_cons in Hb as [[? ?] Hb].
    apply Forall_cons in Hb as [[? ?] _]. cbn in *.
    exists h1, l1, h2, l2, h3, l3. split; [bytes_ok|].
    split; [now apply Hgo; [bytes_ok|]|].
    unfold chunk. cbn [firstn]. rewrite ?filter_cons, ?filter_nil. cbn [fst].
    destruct (decide (h1 <> 0)), (decide (h2 <> 0)), (decide (h3 <> 0));
      reflexivity.
Qed.

Lemma read_dtcs_sent arrivals :
  read_dtcs arrivals (start [])
  = (wait_response arrivals ≫= λ response, lift (parse_dtcs response))
      (with_out [[0xDF; 0x07; 0; 0; 8; 0x01; 0x03; 0; 0; 0; 0; 0; 0]] (start [])).
Proof. reflexivity. Qed.

Lemma read_dtcs_of_frame m texts :
  arbitration_id m = RESPONSE_ID ->
  parse_dtcs (Some m) = Ret texts ->
  exists r', read_dtcs [[m]] (start []) = Ret (texts, r')
             /\ response_queue r' = [].
Proof.
  intros Hid Hparse. rewrite read_dtcs_sent.
  unfold mbind, ST_bind, wait_response.
  cbn [wait_loop response_queue with_out start app].
  rewrite Hid, Z.eqb_refl. unfold lift. rewrite Hparse.
  eexists. split; reflexivity.
Qed.

End TroubleCodes.

(** C6. A service 0x01 request whose PID is none of the ten served ones
    gets no response: [service1] returns nothing, sends nothing on the
    bus and leaves the world as it was, and so does either branch of the
    dispatcher loop that calls it. Sent by the reader over the
    bridge, such a request is decoded and served by the ECU without a
    single byte going back, and the reader's wait, with nothing arriving,
    ends after its last turn with the absent result: no exception, no
    error value. *)
Theorem unknown_pid_silence (pid : Z) :
  0 <= pid < 256 ->
  pid ∉ Spec.supported_pids ->
  (forall msg w,
      data msg !! 2%nat = Some pid ->
      ecu_simulator.service1 msg w = Ret (None, w))
  /\ (forall local msg w,
        arbitration_id msg = 0x7df ->
        data msg !! 1%nat = Some 0x01 ->
        data msg !! 2%nat = Some pid ->
        ecu_simulator.serve local msg w = Ret (tt, w))
  /\ (forall g clients client n,
        exists r1 wire w1,
          obd_reader.send_request obd_reader.SERVICE_CURRENT_DATA pid
            (obd_reader.start []) = Ret (tt, r1)
          /\ obd_reader.tcp_out r1 = [wire]
          /\ ecu_simulator.receive_from_client client [Recv wire]
               (ecu_simulator.boot g clients) = (Running, w1)
          /\ ecu_simulator.incoming_requests w1
             = [obd_reader.request obd_reader.SERVICE_CURRENT_DATA pid]
          /\ ecu_simulator.serve_next w1 = Ret (tt, ecu_simulator.boot g clients)
          /\ obd_reader.wait_response (replicate n []) r1 = Ret (None, r1)).
Proof.
  intros Hb Hu. split; [|split].
  - intros msg w. now apply service1_unknown.
  - intros local msg w Hid Hsvc Hpid. now apply (serve_unknown pid).
  - intros g clients client n. do 3 eexists.
    split; [apply send_request_wire;
            [unfold obd_reader.SERVICE_CURRENT_DATA; lia|lia|reflexivity]|].
    split; [reflexivity|].
    unfold ecu_simulator.receive_from_client.
    cbn [ecu_simulator.receive_loop ecu_simulator.receive_step length Nat.eqb].
    rewrite decode_request by (unfold obd_reader.SERVICE_CURRENT_DATA; lia).
    split; [reflexivity|]. split; [reflexivity|]. split.
    + exact (serve_unknown pid false
               (obd_reader.request obd_reader.SERVICE_CURRENT_DATA pid)
               (ecu_simulator.boot g clients) Hu eq_refl eq_refl eq_refl).
    + unfold obd_reader.wait_response.
      cbn [obd_reader.response_queue obd_reader.with_out obd_reader.start].
      now rewrite wait_loop_silent.
Qed.

Lemma unknown_pid_silence_witness :
  ecu_simulator.service1 (obd_reader.request 0x01 0x99)
    (ecu_simulator.boot (Spec.tape []) [])
  = Ret (None, ecu_simulator.boot (Spec.tape []) []).
Proof.
  refine (proj1 (unknown_pid_silence 0x99 _ _)
            (obd_reader.request 0x01 0x99)
            (ecu_simulator.boot (Spec.tape []) []) eq_refl).
  - lia.
  - unfold Spec.supported_pids. rewrite !not_elem_of_cons.
    repeat split; try lia. apply not_elem_of_nil.
Defined.

(** C7. A service 0x01 request for PID 0x0C is answered with the payload
    [0x04,0x41,0x0C,A,B] where A is a draw from 18..70 and B a draw from
    0..255, and every pair of that range is the answer on some tape of
    draws; the frame crosses the bridge unchanged, and the reader's RPM
    query on it yields ((A*256)+B)/4. *)
Theorem rpm_generated_and_decoded (msg : Message) (w : ecu_simulator.world) :
  data msg !! 2%nat = Some 0x0C ->
  (exists A B w' wire r',
      let f := {| arbitration_id := 0x7e8; data := [0x04; 0x41; 0x0C; A; B] |} in
      ecu_simulator.service1 msg w = Ret (Some f, w')
      /\ 18 <= A <= 70 /\ 0 <= B <= 255
      /\ codec.encode f = Ret wire
      /\ obd_reader._tcp_receiver [Recv wire] [] = (Running, [f])
      /\ obd_reader.read_rpm [[f]] (obd_reader.start [])
         = Ret (Some (inject_Z (A * 256 + B) / inject_Z 4)%Q, r'))
  /\ (forall A B clients,
        18 <= A <= 70 -> 0 <= B <= 255 ->
        exists w',
          ecu_simulator.service1
            (obd_reader.request obd_reader.SERVICE_CURRENT_DATA 0x0C)
            (ecu_simulator.boot (Spec.tape [A - 18; B]) clients)
          = Ret (Some {| arbitration_id := 0x7e8;
                         data := [0x04; 0x41; 0x0C; A; B] |}, w')).
Proof.
  intros Hpid. split.
  - pose proof (service1_rpm msg w Hpid) as Hs. cbv zeta in Hs.
    pose proof (drawn_range 18 70 w ltac:(lia)) as HA.
    pose proof (drawn_range 0 255 (Spec.advance w) ltac:(lia)) as HB.
    destruct (rpm_frame_read (Spec.drawn 18 70 w)
                (Spec.drawn 0 255 (Spec.advance w)) ltac:(lia) ltac:(lia))
      as (wire & r' & Henc & Hrecv & Hread).
    exists (Spec.drawn 18 70 w), (Spec.drawn 0 255 (Spec.advance w)).
    eexists. exists wire, r'. cbv zeta.
    split; [exact Hs|]. repeat split; try lia; assumption.
  - intros A B clients HA HB. now apply rpm_bytes_attainable.
Qed.

Lemma rpm_generated_and_decoded_witness :
  exists A B w',
    ecu_simulator.service1 (obd_reader.request 0x01 0x0C)
      (ecu_simulator.boot (Spec.tape [8; 248]) [])
    = Ret (Some {| arbitration_id := 0x7e8;
                   data := [0x04; 0x41; 0x0C; A; B] |}, w')
    /\ 18 <= A <= 70.
Proof.
  destruct (rpm_generated_and_decoded (obd_reader.request 0x01 0x0C)
              (ecu_simulator.boot (Spec.tape [8; 248]) []) eq_refl)
    as [(A & B & w' & _ & _ & Hs & HA & _) _].
  exists A, B, w'. split; [exact Hs|exact HA].
Defined.

(** C10. For every content of the store, the service 0x03 response as it
    reaches the reader has 8 data bytes, so the loop of [read_dtcs] visits
    the offsets 2, 4 and 6 and no other (for any frame of at most 8 data
    bytes it visits no offset outside these three); it reports the pair at
    an offset exactly when the first byte of the pair is not zero. What
    [read_dtcs] returns is the text of those of the first three stored
    codes whose high byte is not 0x00: a code with high byte 0x00 is never
    reported, and (0x03,0x00) is reported as "P0300". *)
Theorem read_dtcs_pairs (dtcs : list (Z * Z)) (msg : Message)
    (w : ecu_simulator.world) :
  Forall Spec.byte_pair dtcs ->
  (exists resp w' wire m r',
      ecu_simulator.service3 msg (ecu_simulator.with_dtcs dtcs w) = Ret (resp, w')
      /\ codec.encode resp = Ret wire
      /\ codec.decode wire = Ret m
      /\ obd_reader.pair_offsets (length (data m)) = [2; 4; 6]%nat
      /\ (exists b0 a1 b1 a2 b2 a3 b3,
            data m = [b0; 0x43; a1; b1; a2; b2; a3; b3]
            /\ obd_reader.parse_dtcs (Some m)
               = Ret (Spec.chunk a1 b1 ++ Spec.chunk a2 b2 ++ Spec.chunk a3 b3))
      /\ obd_reader.read_dtcs [[m]] (obd_reader.start [])
         = Ret (map Spec.dtc_text (filter (fun d => d.1 <> 0) (take 3 dtcs)), r'))
  /\ (forall (m : Message) (i : nat),
        (length (data m) <= 8)%nat ->
        i ∈ obd_reader.pair_offsets (length (data m)) -> i ∈ [2; 4; 6]%nat)
  /\ Spec.dtc_text (0x03, 0x00) = "P0300"%string
  /\ (forall lo, Spec.chunk 0x00 lo = []).
Proof.
  intros Hb. split; [|split; [|split]].
  - destruct dtcs as [|d dtcs].
    + exists {| arbitration_id := 0x7e8; data := [0x01; 0x43; 0; 0; 0; 0; 0; 0] |}.
      eexists.
      exists [0xE8; 0x07; 0; 0; 8; 0x01; 0x43; 0; 0; 0; 0; 0; 0],
        {| arbitration_id := 0x7e8; data := [0x01; 0x43; 0; 0; 0; 0; 0; 0] |}.
      eexists. repeat split.
      exists 0x01, 0, 0, 0, 0, 0, 0. split; reflexivity.
    + destruct (service3_some d dtcs msg w Hb)
        as (a1 & b1 & a2 & b2 & a3 & b3 & Hbytes & Hs & Htexts).
      destruct (frame9_read_back a1 b1 a2 b2 a3 b3 Hbytes)
        as (_ & Henc & Hdec & Hparse).
      destruct (read_dtcs_of_frame
                  {| arbitration_id := 0x7e8;
                     data := [0x07; 0x43; a1; b1; a2; b2; a3; b3] |}
                  _ eq_refl Hparse) as (r' & Hread & _).
      rewrite Htexts in Hread.
      do 2 eexists. exists [0xE8; 0x07; 0; 0; 9; 0x07; 0x43; a1; b1; a2; b2; a3; b3].
      eexists. exists r'.
      split; [exact Hs|]. split; [exact Henc|]. split; [exact Hdec|].
      split; [reflexivity|]. split; [|exact Hread].
      exists 0x07, a1, b1, a2, b2, a3, b3. split; [reflexivity|exact Hparse].
  - intros m i. apply pair_offsets_le8.
  - reflexivity.
  - reflexivity.
Qed.

Lemma read_dtcs_pairs_witness :
  exists r',
    obd_reader.read_dtcs
      [[{| arbitration_id := 0x7e8;
           data := [0x07; 0x43; 0x03; 0x00; 0x00; 0x05; 0; 0] |}]]
      (obd_reader.start [])
    = Ret (["P0300"%string], r').
Proof.
  destruct (read_dtcs_pairs [(0x03, 0x00); (0x00, 0x05)]
              obd_reader.read_request
              (ecu_simulator.boot (Spec.tape []) []))
    as [(resp & w' & wire & m & r' & Hs & Henc & Hdec & _ & _ & Hread) _].
  - repeat constructor; cbn; lia.
  - exists r'. injection Hs as <- _.
    injection Henc as <-. injection Hdec as <-. exact Hread.
Defined.


(** * Further properties *)

(** ** The codec beyond well-formed frames *)

Section CodecEdges.

Lemma pack_8s_ljust (d : list Z) : struct.pack_8s (ljust 8 d) = take 8 (d ++ replicate (8 - length d)%nat 0).
Proof.
  unfold struct.pack_8s, ljust.
  rewrite !length_app, !length_replicate.
  replace (8 - (length d + (8 - length d)))%nat with 0%nat by lia.
  cbn [replicate]. now rewrite app_nil_r.
Qed.

Lemma encode_eq arb d :
  0 <= arb < 2 ^ 32 -> (length d < 256)%nat ->
  codec.encode {| arbitration_id := arb; data := d |}
  = Ret (struct.pack_I arb ++ [Z.of_nat (length d)]
           ++ take 8 (d ++ replicate (8 - length d)%nat 0)).
Proof.
  intros Harb Hlen. unfold codec.encode, struct.pack, dlc.
  cbn [arbitration_id data].
  replace ((0 <=? arb) && (arb <? 2 ^ 32) && (0 <=? Z.of_nat (length d))
           && (Z.of_nat (length d) <? 256)) with true
    by (symmetry; rewrite !andb_true_iff, !Z.leb_le, !Z.ltb_lt; lia).
  now rewrite pack_8s_ljust.
Qed.

Lemma take8_shape (d : list Z) :
  exists p0 p1 p2 p3 p4 p5 p6 p7,
    take 8 (d ++ replicate (8 - length d)%nat 0) = [p0; p1; p2; p3; p4; p5; p6; p7].
Proof.
  do 8 (destruct d as [|? d]; [cbn; eauto 10|]). cbn. eauto 10.
Qed.

Lemma decode_wire arb n p :
  0 <= arb < 2 ^ 32 -> length p = 8%nat ->
  Forall (fun b => 0 <= b < 256) (take (Z.to_nat n) p) ->
  codec.decode (struct.pack_I arb ++ [n] ++ p)
  = Ret {| arbitration_id := arb; data := take (Z.to_nat n) p |}.
Proof.
  intros Harb Hp Hb.
  do 8 (destruct p as [|? p]; [discriminate|]). destruct p; [|discriminate].
  unfold codec.decode. cbn [struct.pack_I app struct.unpack mbind res_bind].
  rewrite unpack_pack_I by lia. now apply mk_bytes.
Qed.

Lemma encode_decode_take arb d :
  0 <= arb < 2 ^ 32 -> (length d < 256)%nat ->
  Forall (fun b => 0 <= b < 256) d ->
  exists w,
    codec.encode {| arbitration_id := arb; data := d |} = Ret w
    /\ length w = 13%nat
    /\ w !! 4%nat = Some (Z.of_nat (length d))
    /\ codec.decode w = Ret {| arbitration_id := arb; data := take 8 d |}.
Proof.
  intros Harb Hlen Hd. eexists. split; [now apply encode_eq|].
  assert (Hlen8 : length (take 8 (d ++ replicate (8 - length d)%nat 0)) = 8%nat).
  { rewrite length_take, length_app, length_replicate. lia. }
  split; [|split].
  - rewrite !length_app, Hlen8. reflexivity.
  - reflexivity.
  - assert (Htake : take (Z.to_nat (Z.of_nat (length d)))
                      (take 8 (d ++ replicate (8 - length d)%nat 0)) = take 8 d).
    { rewrite Nat2Z.id, take_take.
      destruct (Nat.le_gt_cases (length d) 8).
      - rewrite Nat.min_l by lia. rewrite take_app_length. symmetry. now apply take_ge.
      - rewrite Nat.min_r by lia. rewrite take_app_le by lia. reflexivity. }
    rewrite decode_wire; [now rewrite Htake|lia|exact Hlen8|].
    rewrite Htake. now apply Forall_take.
Qed.

Lemma encode_rejects_aux arb d :
  arb < 0 \/ 2 ^ 32 <= arb \/ (256 <= length d)%nat ->
  codec.encode {| arbitration_id := arb; data := d |} = Raise StructError.
Proof.
  intros H. unfold codec.encode, struct.pack, dlc. cbn [arbitration_id data].
  destruct (Z.leb_spec 0 arb), (Z.ltb_spec arb (2 ^ 32)),
    (Z.leb_spec 0 (Z.of_nat (length d))),
    (Z.ltb_spec (Z.of_nat (length d)) 256); cbn; try reflexivity. lia.
Qed.

Lemma decode_rejects_aux w : length w <> 13%nat -> codec.decode w = Raise StructError.
Proof.
  intros H. unfold codec.decode.
  do 14 (destruct w as [|? w]; [try reflexivity; now contradiction H|]).
  reflexivity.
Qed.

Lemma testbit_byte_high b n : 0 <= b < 256 -> 8 <= n -> Z.testbit b n = false.
Proof.
  intros [H0 H1] Hn. destruct (Z.eq_dec b 0) as [->|Hb].
  - apply Z.testbit_0_l.
  - apply Z.bits_above_log2; [lia|].
    assert (Z.log2 b < 8) by (apply Z.log2_lt_pow2; lia). lia.
Qed.

Lemma testbit_shifted_byte b k n :
  0 <= b < 256 -> 0 <= k -> 0 <= n ->
  Z.testbit (Z.shiftl b k) n
  = (k <=? n) && (n <? k + 8) && Z.testbit b (n - k).
Proof.
  intros Hb Hk Hn. rewrite Z.shiftl_spec by lia.
  destruct (Z.leb_spec k n); cbn [andb].
  - destruct (Z.ltb_spec n (k + 8)); cbn [andb]; [reflexivity|].
    apply testbit_byte_high; lia.
  - apply Z.testbit_neg_r. lia.
Qed.

Lemma testbit_unpack_I b0 b1 b2 b3 n :
  0 <= b0 < 256 -> 0 <= b1 < 256 -> 0 <= b2 < 256 -> 0 <= b3 < 256 ->
  0 <= n ->
  Z.testbit (struct.unpack_I b0 b1 b2 b3) n
  = if n <? 8 then Z.testbit b0 n
    else if n <? 16 then Z.testbit b1 (n - 8)
    else if n <? 24 then Z.testbit b2 (n - 16)
    else if n <? 32 then Z.testbit b3 (n - 24)
    else false.
Proof.
  intros H0 H1 H2 H3 Hn. unfold struct.unpack_I.
  rewrite !Z.lor_spec, !testbit_shifted_byte by lia.
  destruct (Z.ltb_spec n 8), (Z.ltb_spec n 16), (Z.ltb_spec n 24),
    (Z.ltb_spec n 32); try lia;
    repeat match goal with
      | |- context [?a <=? ?b] => destruct (Z.leb_spec a b); try lia
      | |- context [?a <? ?b] => destruct (Z.ltb_spec a b); try lia
      end; cbn [andb orb]; rewrite ?orb_false_r; try reflexivity.
  all: try (rewrite testbit_byte_high by lia; reflexivity).
Qed.

Lemma unpack_I_range b0 b1 b2 b3 :
  0 <= b0 < 256 -> 0 <= b1 < 256 -> 0 <= b2 < 256 -> 0 <= b3 < 256 ->
  0 <= struct.unpack_I b0 b1 b2 b3 < 2 ^ 32.
Proof.
  intros H0 H1 H2 H3.
  assert (Hnn : 0 <= struct.unpack_I b0 b1 b2 b3).
  { unfold struct.unpack_I. rewrite !Z.lor_nonneg, !Z.shiftl_nonneg. lia. }
  split; [exact Hnn|].
  destruct (Z.lt_ge_cases (struct.unpack_I b0 b1 b2 b3) (2 ^ 32)) as [|Hge];
    [assumption|exfalso].
  assert (Hpos : 0 < struct.unpack_I b0 b1 b2 b3) by lia.
  pose proof (Z.bit_log2 _ Hpos) as Hbit.
  assert (32 <= Z.log2 (struct.unpack_I b0 b1 b2 b3))
    by (apply Z.log2_le_pow2; lia).
  rewrite testbit_unpack_I in Hbit by lia.
  destruct (Z.ltb_spec (Z.log2 (struct.unpack_I b0 b1 b2 b3)) 8),
    (Z.ltb_spec (Z.log2 (struct.unpack_I b0 b1 b2 b3)) 16),
    (Z.ltb_spec (Z.log2 (struct.unpack_I b0 b1 b2 b3)) 24),
    (Z.ltb_spec (Z.log2 (struct.unpack_I b0 b1 b2 b3)) 32); lia.
Qed.

Lemma pack_unpack_I b0 b1 b2 b3 :
  0 <= b0 < 256 -> 0 <= b1 < 256 -> 0 <= b2 < 256 -> 0 <= b3 < 256 ->
  struct.pack_I (struct.unpack_I b0 b1 b2 b3) = [b0; b1; b2; b3].
Proof.
  intros H0 H1 H2 H3. unfold struct.pack_I.
  assert (Hbyte : forall b k, 0 <= b < 256 -> 0 <= k ->
            (forall n, 0 <= n -> n < 8 ->
               Z.testbit (struct.unpack_I b0 b1 b2 b3) (n + k) = Z.testbit b n) ->
            Z.land (Z.shiftr (struct.unpack_I b0 b1 b2 b3) k) 255 = b).
  { intros b k Hb Hk Hbits. apply Z.bits_inj'. intros n Hn.
    rewrite Z.land_spec, Z.shiftr_spec, testbit_255 by lia.
    destruct (Z.ltb_spec n 8).
    - rewrite andb_true_r. now apply Hbits.
    - rewrite andb_false_r. symmetry. apply testbit_byte_high; lia. }
  rewrite <- (Z.shiftr_0_r (struct.unpack_I b0 b1 b2 b3)) at 1.
  rewrite (Hbyte b0 0), (Hbyte b1 8), (Hbyte b2 16), (Hbyte b3 24);
    try lia; try reflexivity;
    intros n Hn Hlt; rewrite testbit_unpack_I by lia;
    repeat match goal with
      | |- context [?a <? ?b] => destruct (Z.ltb_spec a b); try lia
      end; f_equal; lia.
Qed.

Lemma decode_frame b0 b1 b2 b3 n p :
  Forall (fun b => 0 <= b < 256) [b0; b1; b2; b3] ->
  Forall (fun b => 0 <= b < 256) p -> length p = 8%nat ->
  codec.decode ([b0; b1; b2; b3; n] ++ p)
  = Ret {| arbitration_id := struct.unpack_I b0 b1 b2 b3;
           data := take (Z.to_nat n) p |}.
Proof.
  intros Hid Hp Hlen.
  do 8 (destruct p as [|? p]; [discriminate|]). destruct p; [|discriminate].
  unfold codec.decode. cbn [app struct.unpack mbind res_bind].
  apply mk_bytes. now apply Forall_take.
Qed.

Lemma split_frame (w : list Z) :
  length w = 13%nat ->
  exists b0 b1 b2 b3 n p, w = [b0; b1; b2; b3; n] ++ p /\ length p = 8%nat.
Proof.
  intros H. do 5 (destruct w as [|? w]; [discriminate|]).
  do 6 eexists. split; [reflexivity|]. cbn in H. lia.
Qed.

Lemma decode_any_frame_aux w n :
  length w = 13%nat -> Forall (fun b => 0 <= b < 256) w ->
  w !! 4%nat = Some n ->
  exists m,
    codec.decode w = Ret m
    /\ 0 <= arbitration_id m < 2 ^ 32
    /\ data m = take (Z.to_nat n) (drop 5 w)
    /\ length (data m) = Nat.min (Z.to_nat n) 8
    /\ exists w', codec.encode m = Ret w'.
Proof.
  intros Hlen Hb Hn.
  destruct (split_frame w Hlen) as (b0 & b1 & b2 & b3 & n' & p & -> & Hp).
  cbn in Hn. injection Hn as ->.
  apply Forall_app in Hb as [Hhead Hp'].
  assert (Hid : Forall (fun b => 0 <= b < 256) [b0; b1; b2; b3]).
  { apply (Forall_take _ 4) in Hhead. exact Hhead. }
  pose proof Hid as Hid'.
  apply Forall_cons in Hid' as [? Hid']. apply Forall_cons in Hid' as [? Hid'].
  apply Forall_cons in Hid' as [? Hid']. apply Forall_cons in Hid' as [? _].
  pose proof (unpack_I_range b0 b1 b2 b3) as Hr.
  eexists. split; [now apply decode_frame|]. cbn [arbitration_id data].
  split; [auto|]. split; [reflexivity|].
  assert (Hl : length (take (Z.to_nat n) p) = Nat.min (Z.to_nat n) 8).
  { rewrite length_take. lia. }
  split; [exact Hl|].
  eexists. apply encode_eq; [auto|]. lia.
Qed.

Lemma decode_encode_aux w n :
  length w = 13%nat -> Forall (fun b => 0 <= b < 256) w ->
  w !! 4%nat = Some n -> n <= 8 ->
  Forall (fun b => b = 0) (drop (5 + Z.to_nat n) w) ->
  exists m, codec.decode w = Ret m /\ codec.encode m = Ret w.
Proof.
  intros Hlen Hb Hn Hn8 Hz.
  destruct (split_frame w Hlen) as (b0 & b1 & b2 & b3 & n' & p & -> & Hp).
  cbn in Hn. injection Hn as ->.
  change (drop (5 + Z.to_nat n) ([b0; b1; b2; b3; n] ++ p))
    with (drop (Z.to_nat n) p) in Hz.
  apply Forall_app in Hb as [Hhead Hp'].
  assert (Hnb : 0 <= n < 256).
  { apply (Forall_drop _ 4) in Hhead. cbn in Hhead.
    now apply Forall_cons in Hhead as [? _]. }
  assert (Hid : Forall (fun b => 0 <= b < 256) [b0; b1; b2; b3]).
  { apply (Forall_take _ 4) in Hhead. exact Hhead. }
  pose proof Hid as Hid'.
  apply Forall_cons in Hid' as [? Hid']. apply Forall_cons in Hid' as [? Hid'].
  apply Forall_cons in Hid' as [? Hid']. apply Forall_cons in Hid' as [? _].
  eexists. split; [now apply decode_frame|].
  assert (Hl : length (take (Z.to_nat n) p) = Z.to_nat n).
  { rewrite length_take. lia. }
  rewrite encode_eq by (try apply unpack_I_range; auto; lia).
  rewrite pack_unpack_I by auto. rewrite Hl, Z2Nat.id by lia.
  cbn [app]. do 6 f_equal.
  assert (Hpad : replicate (8 - Z.to_nat n)%nat 0 = drop (Z.to_nat n) p).
  { apply replicate_as_Forall_2.
    - rewrite length_drop. lia.
    - eapply Forall_impl; [exact Hz|]. intros ? ->. reflexivity. }
  rewrite Hpad, take_drop. apply take_ge. lia.
Qed.

End CodecEdges.

(** X1. A message with an identifier below 2^32 and fewer than 256 data
    bytes is encoded into 13 bytes whose fifth byte is the true number of
    data bytes, and decoding them gives the message with its data cut to
    the first 8 bytes: the codec is lossless up to 8 data bytes and drops
    the rest. *)
Theorem encode_decode_truncates (arb : Z) (d : list Z) :
  0 <= arb < 2 ^ 32 ->
  (length d < 256)%nat ->
  Forall (fun b => 0 <= b < 256) d ->
  exists w,
    codec.encode {| arbitration_id := arb; data := d |} = Ret w
    /\ length w = 13%nat
    /\ w !! 4%nat = Some (Z.of_nat (length d))
    /\ codec.decode w = Ret {| arbitration_id := arb; data := take 8 d |}.
Proof. apply encode_decode_take. Qed.

Lemma encode_decode_truncates_witness :
  exists w,
    codec.encode
      {| arbitration_id := 0x7e8; data := [0x07; 0x43; 1; 2; 3; 4; 5; 6; 0] |}
    = Ret w
    /\ codec.decode w
       = Ret {| arbitration_id := 0x7e8; data := [0x07; 0x43; 1; 2; 3; 4; 5; 6] |}.
Proof.
  destruct (encode_decode_truncates 0x7e8 [0x07; 0x43; 1; 2; 3; 4; 5; 6; 0])
    as (w & Henc & _ & _ & Hdec).
  - lia.
  - cbn. lia.
  - repeat constructor; lia.
  - exists w. split; [exact Henc|exact Hdec].
Defined.

(** X2. Encoding raises [struct.error] when the identifier is negative or
    does not fit 32 bits, or when the message has 256 data bytes or more
    (its length does not fit the length byte). *)
Theorem encode_rejects (arb : Z) (d : list Z) :
  arb < 0 \/ 2 ^ 32 <= arb \/ (256 <= length d)%nat ->
  codec.encode {| arbitration_id := arb; data := d |} = Raise StructError.
Proof. apply encode_rejects_aux. Qed.

Lemma encode_rejects_witness :
  codec.encode {| arbitration_id := 2 ^ 32; data := [] |} = Raise StructError.
Proof. apply (encode_rejects (2 ^ 32) []). lia. Defined.

(** X3. Decoding raises [struct.error] on anything but 13 bytes. On 13
    bytes it never fails, whatever the length byte [n]: the identifier is
    below 2^32, the data are the first [min n 8] payload bytes, and the
    message decoded can always be encoded again. *)
Theorem decode_any_frame (w : list Z) :
  Forall (fun b => 0 <= b < 256) w ->
  (length w <> 13%nat -> codec.decode w = Raise StructError)
  /\ (forall n,
        length w = 13%nat -> w !! 4%nat = Some n ->
        exists m,
          codec.decode w = Ret m
          /\ 0 <= arbitration_id m < 2 ^ 32
          /\ data m = take (Z.to_nat n) (drop 5 w)
          /\ length (data m) = Nat.min (Z.to_nat n) 8
          /\ exists w', codec.encode m = Ret w').
Proof.
  intros Hb. split.
  - apply decode_rejects_aux.
  - intros n Hlen Hn. now apply decode_any_frame_aux.
Qed.

Lemma decode_any_frame_witness :
  exists m,
    codec.decode [0xE8; 0x07; 0; 0; 200; 1; 2; 3; 4; 5; 6; 7; 8] = Ret m
    /\ data m = [1; 2; 3; 4; 5; 6; 7; 8].
Proof.
  destruct (decode_any_frame [0xE8; 0x07; 0; 0; 200; 1; 2; 3; 4; 5; 6; 7; 8])
    as [_ H].
  - repeat constructor; lia.
  - destruct (H 200 eq_refl eq_refl) as (m & Hdec & _ & Hdata & _).
    exists m. split; [exact Hdec|exact Hdata].
Defined.

(** X4. The round trip in the other direction: 13 bytes whose length byte
    is at most 8 and whose payload is zero beyond that length are decoded
    into a message that encodes back to the same 13 bytes. *)
Theorem decode_encode (w : list Z) (n : Z) :
  length w = 13%nat ->
  Forall (fun b => 0 <= b < 256) w ->
  w !! 4%nat = Some n ->
  n <= 8 ->
  Forall (fun b => b = 0) (drop (5 + Z.to_nat n) w) ->
  exists m, codec.decode w = Ret m /\ codec.encode m = Ret w.
Proof. apply decode_encode_aux. Qed.

Lemma decode_encode_witness :
  exists m,
    codec.decode [0xDF; 0x07; 0; 0; 3; 0x02; 0x01; 0x0C; 0; 0; 0; 0; 0] = Ret m
    /\ codec.encode m
       = Ret [0xDF; 0x07; 0; 0; 3; 0x02; 0x01; 0x0C; 0; 0; 0; 0; 0].
Proof.
  apply (decode_encode [0xDF; 0x07; 0; 0; 3; 0x02; 0x01; 0x0C; 0; 0; 0; 0; 0] 3).
  - reflexivity.
  - repeat constructor; lia.
  - reflexivity.
  - lia.
  - repeat constructor.
Defined.

(** ** The receive tasks over a whole stream *)

Section ReceiveRuns.
Import ecu_simulator obd_reader Notions.

Lemma receive_loop_app pre : forall evs w,
  receive_loop (pre ++ evs) w
  = match receive_loop pre w with
    | (Running, w') => receive_loop evs w'
    | (Stopped, w') => (Stopped, w')
    end.
Proof.
  induction pre as [|ev pre IH]; intros evs w; [reflexivity|].
  cbn [app receive_loop]. destruct (receive_step ev w) as [[|] w']; [apply IH|reflexivity].
Qed.

Lemma tcp_receiver_app pre : forall evs q,
  _tcp_receiver (pre ++ evs) q
  = match _tcp_receiver pre q with
    | (Running, q') => _tcp_receiver evs q'
    | (Stopped, q') => (Stopped, q')
    end.
Proof.
  induction pre as [|ev pre IH]; intros evs q; [reflexivity|].
  cbn [app _tcp_receiver]. destruct (receiver_step ev q) as [[|] q']; [apply IH|reflexivity].
Qed.

Lemma short_read_length bytes :
  short_read (Recv bytes) = true -> length bytes <> 13%nat.
Proof.
  unfold short_read. rewrite andb_true_iff, !Nat.ltb_lt. lia.
Qed.

(** Short reads leave no trace in either task. *)
Lemma receive_loop_skips reads : forall w,
  receive_loop (filter (fun ev => short_read ev = false) reads) w
  = receive_loop reads w.
Proof.
  induction reads as [|ev reads IH]; intros w; [reflexivity|].
  destruct (short_read ev) eqn:Hs.
  - rewrite filter_cons_False by congruence.
    destruct ev as [bytes|]; [|discriminate].
    cbn [receive_loop]. rewrite (receive_step_short _ _ (short_read_length _ Hs)).
    apply IH.
  - rewrite filter_cons_True by assumption. cbn [receive_loop].
    destruct (receive_step ev w) as [[|] w']; [apply IH|reflexivity].
Qed.

Lemma tcp_receiver_skips reads : forall q,
  _tcp_receiver (filter (fun ev => short_read ev = false) reads) q
  = _tcp_receiver reads q.
Proof.
  induction reads as [|ev reads IH]; intros q; [reflexivity|].
  destruct (short_read ev) eqn:Hs.
  - rewrite filter_cons_False by congruence.
    destruct ev as [bytes|]; [|discriminate].
    cbn [_tcp_receiver]. rewrite (receiver_step_short _ _ (short_read_length _ Hs)).
    apply IH.
  - rewrite filter_cons_True by assumption. cbn [_tcp_receiver].
    destruct (receiver_step ev q) as [[|] q']; [apply IH|reflexivity].
Qed.

(** A read that delivers is dropped when short and decoded otherwise. *)
Lemma delivers_cases ev :
  delivers ev ->
  exists bytes, ev = Recv bytes
    /\ ((short_read ev = true /\ length bytes <> 13%nat)
        \/ (short_read ev = false /\ length bytes = 13%nat
            /\ exists m, codec.decode bytes = Ret m)).
Proof.
  destruct ev as [bytes|]; [|intros []]. intros [Hlen Hb].
  exists bytes. split; [reflexivity|].
  destruct (Nat.eq_dec (length bytes) 13%nat) as [H13|H13].
  - right. unfold short_read. rewrite H13.
    split; [reflexivity|]. split; [reflexivity|].
    destruct (bytes !! 4%nat) as [n|] eqn:Hn.
    + destruct (decode_any_frame_aux bytes n H13 Hb Hn) as (m & Hm & _). eauto.
    + apply lookup_ge_None in Hn. lia.
  - left. split; [|assumption]. unfold short_read.
    apply andb_true_iff. rewrite !Nat.ltb_lt. lia.
Qed.

Lemma receive_runs reads :
  Forall delivers reads ->
  exists msgs,
    Forall2 frame_of (filter (fun ev => short_read ev = false) reads) msgs
    /\ (forall w, receive_loop reads w
                  = (Running, with_requests (incoming_requests w ++ msgs) w))
    /\ (forall q, _tcp_receiver reads q = (Running, q ++ msgs)).
Proof.
  induction 1 as [|ev reads Hev _ IH].
  - exists []. split; [constructor|]. split; intros x; cbn; rewrite app_nil_r;
      [now destruct x|reflexivity].
  - destruct IH as (msgs & Hf & Hecu & Hrd).
    destruct (delivers_cases ev Hev) as (bytes & -> & [[Hs Hlen]|(Hs & Hlen & m & Hm)]).
    + exists msgs. rewrite filter_cons_False by congruence.
      split; [assumption|]. split; intros x.
      * cbn [receive_loop]. rewrite (receive_step_short _ _ Hlen). apply Hecu.
      * cbn [_tcp_receiver]. rewrite (receiver_step_short _ _ Hlen). apply Hrd.
    + exists (m :: msgs). rewrite filter_cons_True by assumption.
      split; [now constructor|]. split; intros x.
      * cbn [receive_loop receive_step]. rewrite Hlen, Hm. cbn [Nat.eqb].
        rewrite Hecu. cbn [incoming_requests with_requests].
        now rewrite <- app_assoc.
      * cbn [_tcp_receiver receiver_step]. rewrite Hlen, Hm. cbn [Nat.eqb].
        rewrite Hrd. now rewrite <- app_assoc.
Qed.

End ReceiveRuns.

(** C5, as the code has it. Over any sequence of reads that each hand
    back between 1 and 13 bytes, both receive tasks keep running: a read
    of fewer than 13 bytes is dropped without being decoded, so that the
    run is the one the task makes of the 13-byte reads alone, and the
    task goes on to its next read of the same stream with the peer still
    registered; each read of 13 bytes is decoded and queued, in order. A
    task ends at the first read that raises an error; the ECU then takes
    the client out of its registry, and the queue keeps what was read
    before. *)
Theorem short_read_discarded (reads post : list recv_result) (client : nat)
    (w : ecu_simulator.world) (q : list Message) :
  Forall Notions.delivers reads ->
  let whole := filter (fun ev => Notions.short_read ev = false) reads in
  exists msgs,
    Forall2 Notions.frame_of whole msgs
    /\ ecu_simulator.receive_from_client client reads w
       = (Running,
          ecu_simulator.with_requests
            (ecu_simulator.incoming_requests w ++ msgs) w)
    /\ ecu_simulator.receive_from_client client whole w
       = ecu_simulator.receive_from_client client reads w
    /\ obd_reader._tcp_receiver reads q = (Running, q ++ msgs)
    /\ obd_reader._tcp_receiver whole q = obd_reader._tcp_receiver reads q
    /\ (exists w',
          ecu_simulator.receive_from_client client (reads ++ RecvError :: post) w
          = (Stopped, w')
          /\ ecu_simulator.client_sockets w'
             = list_remove client (ecu_simulator.client_sockets w)
          /\ ecu_simulator.incoming_requests w'
             = ecu_simulator.incoming_requests w ++ msgs)
    /\ obd_reader._tcp_receiver (reads ++ RecvError :: post) q
       = (Stopped, q ++ msgs).
Proof.
  intros Hreads whole.
  destruct (receive_runs reads Hreads) as (msgs & Hf & Hecu & Hrd).
  exists msgs. split; [exact Hf|].
  split; [unfold ecu_simulator.receive_from_client; now rewrite Hecu|].
  split; [unfold ecu_simulator.receive_from_client, whole;
          now rewrite receive_loop_skips|].
  split; [apply Hrd|].
  split; [apply tcp_receiver_skips|].
  split.
  - destruct (receive_from_client_error client post
                (ecu_simulator.with_requests
                   (ecu_simulator.incoming_requests w ++ msgs) w))
      as (w' & Hw' & Hc & Hr).
    exists w'. split; [|split; [exact Hc|exact Hr]].
    unfold ecu_simulator.receive_from_client in Hw' |- *.
    now rewrite receive_loop_app, Hecu.
  - now rewrite tcp_receiver_app, Hrd.
Qed.

Lemma short_read_discarded_witness :
  exists msgs,
    ecu_simulator.receive_from_client 7
      [Recv [0xDF; 0x07; 0x00];
       Recv [0xDF; 0x07; 0; 0; 8; 0x02; 0x01; 0x0C; 0; 0; 0; 0; 0]]
      (ecu_simulator.boot (Spec.tape []) [7%nat])
    = (Running,
       ecu_simulator.with_requests
         (ecu_simulator.incoming_requests
            (ecu_simulator.boot (Spec.tape []) [7%nat]) ++ msgs)
         (ecu_simulator.boot (Spec.tape []) [7%nat]))
    /\ length msgs = 1%nat.
Proof.
  destruct (short_read_discarded
              [Recv [0xDF; 0x07; 0x00];
               Recv [0xDF; 0x07; 0; 0; 8; 0x02; 0x01; 0x0C; 0; 0; 0; 0; 0]]
              [] 7 (ecu_simulator.boot (Spec.tape []) [7%nat]) [])
    as (msgs & Hf & Hecu & _).
  - repeat (apply Forall_cons; split);
      [split; [cbn; lia|repeat constructor; lia]..|constructor].
  - exists msgs. split; [exact Hecu|].
    apply Forall2_length in Hf. now rewrite <- Hf.
Defined.

Section Further.
Import ecu_simulator obd_reader Spec autopulse_app Notions.

(** ** The bridge: fan-out and arrival order *)

Lemma list_remove_app pre x l :
  Forall (fun y => y <> x) pre -> list_remove x (pre ++ x :: l) = pre ++ l.
Proof.
  induction 1 as [|y pre Hy _ IH]; cbn [app list_remove].
  - now rewrite Nat.eqb_refl.
  - destruct (Nat.eqb_spec x y); [congruence|]. now rewrite IH.
Qed.

Lemma foldl_remove_filter (bad : nat -> bool) l : forall pre,
  Forall (fun c => bad c = false) pre ->
  foldl (fun acc c => list_remove c acc) (pre ++ l)
    (filter (fun c => bad c = true) l)
  = pre ++ filter (fun c => bad c = false) l.
Proof.
  induction l as [|c l IH]; intros pre Hpre.
  - reflexivity.
  - rewrite !filter_cons. destruct (bad c) eqn:Hc.
    + rewrite decide_True by reflexivity. rewrite decide_False by discriminate.
      cbn [foldl]. rewrite list_remove_app.
      * now apply IH.
      * eapply Forall_impl; [exact Hpre|]. intros y Hy ->. congruence.
    + rewrite decide_False by discriminate. rewrite decide_True by reflexivity.
      rewrite (cons_middle c pre l), app_assoc.
      rewrite IH.
      * now rewrite <- app_assoc.
      * apply Forall_app. split; [exact Hpre|]. now constructor.
Qed.

Lemma sendall_each_spec wire w :
  sendall_each wire w
  = Ret (tt,
         with_clients (filter (fun c => sendall_ok w c = true) (client_sockets w))
           (with_tcp
              (tcp_sent w ++ map (fun c => (c, wire))
                 (filter (fun c => sendall_ok w c = true) (client_sockets w)))
              w)).
Proof.
  unfold sendall_each. do 3 f_equal.
  pose proof (foldl_remove_filter (fun c => negb (sendall_ok w c))
                (client_sockets w) [] ltac:(constructor)) as H.
  cbn [app] in H.
  assert (E1 : filter (fun c => sendall_ok w c = false) (client_sockets w)
               = filter (fun c => negb (sendall_ok w c) = true) (client_sockets w)).
  { apply list_filter_iff. intros c. destruct (sendall_ok w c); cbn; split; congruence. }
  assert (E2 : filter (fun c => sendall_ok w c = true) (client_sockets w)
               = filter (fun c => negb (sendall_ok w c) = false) (client_sockets w)).
  { apply list_filter_iff. intros c. destruct (sendall_ok w c); cbn; split; congruence. }
  rewrite E1, E2. exact H.
Qed.

Lemma broadcast_spec msg wire w :
  codec.encode msg = Ret wire ->
  broadcast_can_message msg w
  = Ret (tt,
         with_clients (filter (fun c => sendall_ok w c = true) (client_sockets w))
           (with_tcp
              (tcp_sent w ++ map (fun c => (c, wire))
                 (filter (fun c => sendall_ok w c = true) (client_sockets w)))
              w)).
Proof.
  intros Henc. unfold broadcast_can_message.
  rewrite (bind_ret _ _ _ wire w); [apply sendall_each_spec|].
  unfold lift. now rewrite Henc.
Qed.

Lemma broadcast_raises msg e w :
  codec.encode msg = Raise e -> broadcast_can_message msg w = Raise e.
Proof.
  intros Henc. unfold broadcast_can_message, mbind, ST_bind, lift.
  now rewrite Henc.
Qed.

Lemma sendall_ok_spec w c : sendall_ok w c = true <-> c ∉ broken w.
Proof.
  unfold sendall_ok. rewrite negb_true_iff, <- not_true_iff_false, existsb_exists.
  split.
  - intros H Hin. apply H. exists c. split; [now apply list_elem_of_In|].
    apply Nat.eqb_refl.
  - intros H (x & Hin & Heq). apply Nat.eqb_eq in Heq. subst.
    apply H. now apply list_elem_of_In.
Qed.

Lemma decode_encode_id m wire :
  well_formed m -> codec.encode m = Ret wire -> codec.decode wire = Ret m.
Proof.
  intros (Hid & Hlen & Hb) Henc. destruct m as [arb d]. cbn in *.
  destruct (encode_decode_take arb d Hid ltac:(lia) Hb) as (w & Hw & _ & _ & Hdec).
  rewrite Hw in Henc. injection Henc as <-.
  rewrite Hdec. now rewrite take_ge by lia.
Qed.

Lemma encode_length_13 m wire : codec.encode m = Ret wire -> length wire = 13%nat.
Proof. apply encode_length. Qed.

Lemma receive_loop_frames msgs : forall wires w,
  Forall2 (fun m wire => well_formed m /\ codec.encode m = Ret wire) msgs wires ->
  receive_loop (map Recv wires) w
  = (Running, with_requests (incoming_requests w ++ msgs) w).
Proof.
  induction msgs as [|m msgs IH]; intros wires w H.
  - apply Forall2_nil_inv_l in H as ->. cbn. rewrite app_nil_r.
    now destruct w.
  - apply Forall2_cons_inv_l in H as (wire & wires' & [Hwf Henc] & H & ->).
    cbn [map receive_loop receive_step].
    rewrite (encode_length_13 _ _ Henc). cbn [Nat.eqb].
    rewrite (decode_encode_id _ _ Hwf Henc).
    rewrite (IH _ _ H). cbn [incoming_requests with_requests].
    now rewrite <- app_assoc.
Qed.

Lemma tcp_receiver_frames msgs : forall wires q,
  Forall2 (fun m wire => well_formed m /\ codec.encode m = Ret wire) msgs wires ->
  _tcp_receiver (map Recv wires) q = (Running, q ++ msgs).
Proof.
  induction msgs as [|m msgs IH]; intros wires q H.
  - apply Forall2_nil_inv_l in H as ->. cbn. now rewrite app_nil_r.
  - apply Forall2_cons_inv_l in H as (wire & wires' & [Hwf Henc] & H & ->).
    cbn [map _tcp_receiver receiver_step].
    rewrite (encode_length_13 _ _ Henc). cbn [Nat.eqb].
    rewrite (decode_encode_id _ _ Hwf Henc).
    rewrite (IH _ _ H). now rewrite <- app_assoc.
Qed.

(** ** Service 0x01, branch by branch *)

Lemma respond_bytes d w :
  Forall (fun b => 0 <= b < 256) d ->
  respond d w = Ret (Some {| arbitration_id := 0x7e8; data := d |}, w).
Proof. intros Hd. unfold respond. now rewrite mk_bytes. Qed.

Lemma randint_respond lo hi (f : Z -> list Z) w :
  lo <= hi ->
  Forall (fun b => 0 <= b < 256) (f (drawn lo hi w)) ->
  (randint lo hi ≫= λ a, respond (f a)) w
  = Ret (Some {| arbitration_id := 0x7e8; data := f (drawn lo hi w) |}, advance w).
Proof.
  intros Hr Hb. rewrite (bind_ret _ _ _ _ _ (randint_eq lo hi w Hr)).
  now apply respond_bytes.
Qed.

Lemma service1_after_branch msg pid (branch : M (option Message)) r w w1 :
  data msg !! 2%nat = Some pid ->
  branch w = Ret (Some r, w1) ->
  (lift (index (data msg) 2) ≫= λ pid',
     (if pid' =? pid then branch else mret None) ≫= λ response,
       match response with Some r => bus_send r | None => mret tt end;;
       mret response) w
  = Ret (Some r, with_bus (bus_sent w1 ++ [r]) w1).
Proof.
  intros Hpid Hb. unfold index. rewrite Hpid.
  rewrite (bind_ret _ _ _ pid w eq_refl). rewrite Z.eqb_refl.
  now rewrite (bind_ret _ _ _ _ _ Hb).
Qed.

Ltac bytes_ok' :=
  repeat (apply Forall_cons; split; [lia|]); constructor.

Lemma service1_one_byte msg w pid lo hi b0 :
  data msg !! 2%nat = Some pid ->
  (pid, lo, hi, b0) ∈ [(0x05, 128, 135, 0x03); (0x0B, 10, 40, 0x04);
                       (0x0D, 40, 60, 0x03); (0x0F, 60, 64, 0x03);
                       (0x11, 20, 60, 0x03); (0x33, 20, 60, 0x03)] ->
  service1 msg w
  = Ret (Some {| arbitration_id := 0x7e8;
                 data := [b0; 0x41; pid; drawn lo hi w] |},
         with_bus (bus_sent w ++
                     [{| arbitration_id := 0x7e8;
                         data := [b0; 0x41; pid; drawn lo hi w] |}])
           (advance w)).
Proof.
  intros Hpid Hin.
  rewrite !elem_of_cons, elem_of_nil in Hin.
  unfold service1, index. rewrite Hpid.
  rewrite (bind_ret _ _ _ pid w eq_refl).
  repeat destruct Hin as [[= -> -> -> ->]|Hin]; [..|destruct Hin];
    cbn [Z.eqb Pos.eqb];
    change (88 + 40) with 128; change (95 + 40) with 135;
    match goal with
    | |- context [drawn ?lo ?hi w] =>
        pose proof (drawn_range lo hi w ltac:(lia)) as Hr;
        match goal with
        | |- context [respond [?b; 0x41; ?p; _]] =>
            rewrite (bind_ret _ _ _ _ _
                       (randint_respond lo hi (fun a => [b; 0x41; p; a]) w
                          ltac:(lia) ltac:(bytes_ok')))
        end;
        reflexivity
    end.
Qed.

Lemma service1_const msg w pid d :
  data msg !! 2%nat = Some pid ->
  (pid, d) ∈ [(0x00, [0x06; 0x41; 0x00; 0xBF; 0xDF; 0xB9; 0x91]);
              (0x04, [0x03; 0x41; 0x04; 0x20]);
              (0x10, [0x04; 0x41; 0x10; 0x00; 0xFA])] ->
  service1 msg w
  = Ret (Some {| arbitration_id := 0x7e8; data := d |},
         with_bus (bus_sent w ++ [{| arbitration_id := 0x7e8; data := d |}]) w).
Proof.
  intros Hpid Hin. rewrite !elem_of_cons, elem_of_nil in Hin.
  unfold service1, index. rewrite Hpid.
  rewrite (bind_ret _ _ _ pid w eq_refl).
  repeat destruct Hin as [[= -> ->]|Hin]; [..|destruct Hin]; reflexivity.
Qed.

Ltac in_list := repeat first [apply list_elem_of_here | apply list_elem_of_further].

Ltac facts w lo hi :=
  pose proof (drawn_range lo hi w ltac:(lia));
  unfold service1_facts; cbn;
  repeat split; try lia; try reflexivity; bytes_ok'.

Lemma service1_supported_aux pid msg w :
  pid ∈ supported_pids ->
  data msg !! 2%nat = Some pid ->
  exists r w', service1 msg w = Ret (Some r, w') /\ service1_facts pid w w' r.
Proof.
  intros Hin Hpid. unfold supported_pids in Hin.
  rewrite !elem_of_cons, elem_of_nil in Hin.
  destruct Hin as [->|[->|[->|[->|[->|[->|[->|[->|[->|[->|[]]]]]]]]]]].
  - do 2 eexists. split.
    + apply (service1_const msg w 0x00
               [0x06; 0x41; 0x00; 0xBF; 0xDF; 0xB9; 0x91] Hpid). in_list.
    + facts w 0 0.
  - do 2 eexists. split.
    + apply (service1_const msg w 0x04 [0x03; 0x41; 0x04; 0x20] Hpid). in_list.
    + facts w 0 0.
  - do 2 eexists. split.
    + apply (service1_one_byte msg w 0x05 128 135 0x03 Hpid). in_list.
    + facts w 128 135.
  - do 2 eexists. split.
    + apply (service1_one_byte msg w 0x0B 10 40 0x04 Hpid). in_list.
    + facts w 10 40.
  - do 2 eexists. split.
    + exact (service1_rpm msg w Hpid).
    + pose proof (drawn_range 0 255 (advance w) ltac:(lia)). facts w 18 70.
  - do 2 eexists. split.
    + apply (service1_one_byte msg w 0x0D 40 60 0x03 Hpid). in_list.
    + facts w 40 60.
  - do 2 eexists. split.
    + apply (service1_one_byte msg w 0x0F 60 64 0x03 Hpid). in_list.
    + facts w 60 64.
  - do 2 eexists. split.
    + apply (service1_const msg w 0x10 [0x04; 0x41; 0x10; 0x00; 0xFA] Hpid).
      in_list.
    + facts w 0 0.
  - do 2 eexists. split.
    + apply (service1_one_byte msg w 0x11 20 60 0x03 Hpid). in_list.
    + facts w 20 60.
  - do 2 eexists. split.
    + apply (service1_one_byte msg w 0x33 20 60 0x03 Hpid). in_list.
    + facts w 20 60.
Qed.

Lemma service1_short msg w :
  (length (data msg) < 3)%nat -> service1 msg w = Raise IndexError.
Proof.
  intros Hlen. unfold service1, index.
  rewrite (proj2 (lookup_ge_None (data msg) 2)) by lia. reflexivity.
Qed.

Lemma service1_outcome msg w :
  (service1 msg w = Raise IndexError /\ (length (data msg) < 3)%nat)
  \/ (exists pid, data msg !! 2%nat = Some pid /\ (pid ∉ supported_pids)
                  /\ service1 msg w = Ret (None, w))
  \/ (exists pid r w', data msg !! 2%nat = Some pid /\ (pid ∈ supported_pids)
                       /\ service1 msg w = Ret (Some r, w')
                       /\ service1_facts pid w w' r).
Proof.
  destruct (data msg !! 2%nat) as [pid|] eqn:Hpid.
  - right. destruct (decide (pid ∈ supported_pids)) as [Hin|Hout].
    + right. destruct (service1_supported_aux pid msg w Hin Hpid) as (r & w' & H & F).
      exists pid, r, w'. auto.
    + left. exists pid. split; [reflexivity|]. split; [assumption|].
      now apply (service1_unknown pid).
  - left. apply lookup_ge_None in Hpid. split; [|lia].
    apply service1_short. lia.
Qed.

(** ** The dispatcher *)

Lemma dtc_bytes_length dtcs :
  length (dtc_bytes dtcs) = (2 * Nat.min 3 (length dtcs))%nat.
Proof.
  unfold dtc_bytes.
  destruct dtcs as [|? [|? [|? ?]]]; reflexivity.
Qed.

Lemma dtc_bytes_ok dtcs :
  Forall byte_pair dtcs -> Forall (fun b => 0 <= b < 256) (dtc_bytes dtcs).
Proof.
  intros H. unfold dtc_bytes. apply (Forall_take _ 3) in H.
  induction H as [|[h l] ds [Hh Hl] _ IH]; cbn; [constructor|].
  apply Forall_cons; split; [exact Hh|].
  apply Forall_cons; split; [exact Hl|]. exact IH.
Qed.

Lemma dtc_bytes_take dtcs : dtc_bytes (take 3 dtcs) = dtc_bytes dtcs.
Proof. unfold dtc_bytes. now rewrite take_take. Qed.

Lemma stored_codes_data_ok dtcs :
  Forall byte_pair dtcs ->
  Forall (fun b => 0 <= b < 256) (stored_codes_data dtcs).
Proof.
  intros H. destruct dtcs as [|d dtcs]; cbn [stored_codes_data].
  - bytes_ok'.
  - apply Forall_app. split; [bytes_ok'|].
    apply Forall_app. split; [now apply dtc_bytes_ok|].
    apply Forall_replicate. lia.
Qed.

Lemma stored_codes_data_length dtcs :
  length (stored_codes_data dtcs) = match dtcs with [] => 8%nat | _ => 9%nat end.
Proof.
  destruct dtcs as [|d dtcs]; [reflexivity|]. cbn [stored_codes_data].
  rewrite !length_app, length_replicate, dtc_bytes_length. cbn [length]. lia.
Qed.

Lemma service3_outcome msg w :
  Forall byte_pair (active_dtcs w) ->
  service3 msg w
  = Ret ({| arbitration_id := 0x7e8; data := stored_codes_data (active_dtcs w) |},
         with_bus (bus_sent w ++
                     [{| arbitration_id := 0x7e8;
                         data := stored_codes_data (active_dtcs w) |}]) w).
Proof.
  intros Hb. unfold service3. rewrite get_dtcs_bind.
  destruct (active_dtcs w) as [|d dtcs] eqn:Hd; cbn [length Nat.eqb].
  - reflexivity.
  - assert (Hdata : [Z.of_nat (length (pad8 ([0x43] ++ dtc_bytes (d :: dtcs)))) - 1]
                      ++ pad8 ([0x43] ++ dtc_bytes (d :: dtcs))
                    = stored_codes_data (d :: dtcs)).
    { unfold pad8, stored_codes_data.
      rewrite !length_app, length_replicate, dtc_bytes_length.
      cbn [length app].
      replace (Z.of_nat (S (2 * Nat.min 3 (S (length dtcs)))
                         + (8 - S (2 * Nat.min 3 (S (length dtcs))))) - 1)
        with 7 by lia.
      do 3 f_equal. f_equal. lia. }
    rewrite Hdata.
    rewrite mk_bytes by (now apply stored_codes_data_ok).
    reflexivity.
Qed.

Lemma service4_outcome msg w :
  service4 msg w
  = Ret ({| arbitration_id := 0x7e8; data := [0x01; 0x44; 0; 0; 0; 0; 0; 0] |},
         with_bus (bus_sent w ++
                     [{| arbitration_id := 0x7e8;
                         data := [0x01; 0x44; 0; 0; 0; 0; 0; 0] |}])
           (with_dtcs [] w)).
Proof. reflexivity. Qed.

Lemma unserved_outcome local msg w :
  unserved local msg w
  = if local && (length (data msg) <? 2)%nat then Raise IndexError
    else Ret (tt, w).
Proof.
  unfold unserved, index. destruct local; [|reflexivity]. cbn [andb].
  destruct (Nat.ltb_spec (length (data msg)) 2) as [Hlt|Hge].
  - rewrite (proj2 (lookup_ge_None (data msg) 1)) by lia. reflexivity.
  - destruct (lookup_lt_is_Some_2 (data msg) 1 ltac:(lia)) as [x Hx].
    rewrite Hx. reflexivity.
Qed.

Lemma serve_foreign local msg w :
  arbitration_id msg <> 0x7df -> serve local msg w = unserved local msg w.
Proof.
  intros Hid. unfold serve. now destruct (Z.eqb_spec (arbitration_id msg) 0x7df).
Qed.

Lemma serve_service local msg svc w :
  arbitration_id msg = 0x7df -> data msg !! 1%nat = Some svc ->
  serve local msg w
  = (if svc =? 0x01 then
       response ← service1 msg;
       match response with
       | Some r => broadcast_can_message r
       | None => mret tt
       end
     else if svc =? 0x03 then
       response ← service3 msg; broadcast_can_message response
     else if svc =? 0x04 then
       response ← service4 msg; broadcast_can_message response
     else unserved local msg) w.
Proof.
  intros Hid Hsvc. unfold serve, index. rewrite Hid, Hsvc.
  cbn [Z.eqb Pos.eqb]. now rewrite (bind_ret _ _ _ svc w eq_refl).
Qed.

Lemma serve_no_service local msg w :
  arbitration_id msg = 0x7df -> (length (data msg) < 2)%nat ->
  serve local msg w = Raise IndexError.
Proof.
  intros Hid Hlen. unfold serve, index. rewrite Hid. cbn [Z.eqb Pos.eqb].
  rewrite (proj2 (lookup_ge_None (data msg) 1)) by lia. reflexivity.
Qed.

Lemma broadcast_ok r w :
  0 <= arbitration_id r < 2 ^ 32 -> (length (data r) < 256)%nat ->
  exists wire, codec.encode r = Ret wire
    /\ broadcast_can_message r w = Ret (tt, after_broadcast wire w).
Proof.
  intros Hid Hlen. destruct r as [arb d]. cbn in *.
  eexists. split; [now apply encode_eq|].
  apply broadcast_spec. now apply encode_eq.
Qed.

Lemma answered_after r w w1 :
  0 <= arbitration_id r < 2 ^ 32 -> (length (data r) < 256)%nat ->
  arbitration_id r = 0x7e8 ->
  bus_sent w1 = bus_sent w ++ [r] -> tcp_sent w1 = tcp_sent w ->
  client_sockets w1 = client_sockets w ->
  incoming_requests w1 = incoming_requests w -> broken w1 = broken w ->
  exists wire,
    broadcast_can_message r w1 = Ret (tt, after_broadcast wire w1)
    /\ answered w (after_broadcast wire w1) r wire
    /\ active_dtcs (after_broadcast wire w1) = active_dtcs w1.
Proof.
  intros Hid Hlen H7 Hbus Htcp Hcl Hin Hbr.
  destruct (broadcast_ok r w1 Hid Hlen) as (wire & Henc & Hb).
  exists wire. split; [exact Hb|]. split; [|reflexivity].
  assert (Hok : forall c, sendall_ok w1 c = sendall_ok w c).
  { intros c. unfold sendall_ok. now rewrite Hbr. }
  assert (Hf : filter (fun c => sendall_ok w1 c = true) (client_sockets w1)
               = filter (fun c => sendall_ok w c = true) (client_sockets w)).
  { rewrite Hcl. apply list_filter_iff. intros c. now rewrite Hok. }
  unfold answered, after_broadcast. cbn. rewrite Hf, Htcp.
  repeat split; assumption.
Qed.

Lemma crashes_raises local msg w :
  crashes local msg -> serve local msg w = Raise IndexError.
Proof.
  intros [[Hwho Hlen] | (Hid & Hsvc & Hlen)].
  - destruct (Z.eq_dec (arbitration_id msg) 0x7df) as [Hid|Hid].
    + now apply serve_no_service.
    + destruct Hwho as [? | ->]; [contradiction|].
      rewrite serve_foreign, unserved_outcome by assumption.
      cbn [andb]. now destruct (Nat.ltb_spec (length (data msg)) 2); [|lia].
  - rewrite (serve_service local msg 0x01 w Hid Hsvc). cbn [Z.eqb Pos.eqb].
    unfold mbind, ST_bind. now rewrite service1_short.
Qed.

Lemma serve_total local msg w :
  Forall byte_pair (active_dtcs w) ->
  ~ crashes local msg ->
  exists w', serve local msg w = Ret (tt, w') /\ served local msg w w'.
Proof.
  intros Hstore Hno.
  destruct (Z.eq_dec (arbitration_id msg) 0x7df) as [Hid|Hid].
  2:{ exists w. split; [|left; auto].
      rewrite serve_foreign, unserved_outcome by assumption.
      destruct local; [|reflexivity]. cbn [andb].
      destruct (Nat.ltb_spec (length (data msg)) 2); [|reflexivity].
      exfalso. apply Hno. left. auto. }
  destruct (data msg !! 1%nat) as [svc|] eqn:Hsvc.
  2:{ exfalso. apply Hno. left. apply lookup_ge_None in Hsvc. split; [auto|lia]. }
  rewrite (serve_service local msg svc w Hid Hsvc).
  destruct (Z.eqb_spec svc 0x01) as [->|H1].
  { destruct (service1_outcome msg w)
      as [[_ Hlen] | [(pid & Hpid & Hout & Hs) | (pid & r & w1 & Hpid & Hin & Hs & F)]].
    - exfalso. apply Hno. right. auto.
    - exists w. rewrite (bind_ret _ _ _ _ _ Hs). split; [reflexivity|].
      left. split; [reflexivity|]. right. exists 0x01. split; [assumption|].
      right. split; [reflexivity|]. eauto.
    - rewrite (bind_ret _ _ _ _ _ Hs).
      unfold service1_facts in F.
      destruct F as (F1 & F2 & F3 & F4 & F5 & F6 & F7 & F8 & F9 & F10 & F11 & F12).
      destruct (answered_after r w w1) as (wire & Hb & Ha & Hd);
        try assumption; [rewrite F1; lia|lia|].
      eexists. split; [exact Hb|]. right. split; [assumption|].
      exists 0x01, r, wire. split; [assumption|]. split; [in_list|].
      split; [exact Ha|]. cbn [Z.eqb Pos.eqb]. rewrite Hd, F9.
      repeat split; try assumption; try discriminate.
      intros _. now rewrite F3, Hpid. }
  destruct (Z.eqb_spec svc 0x03) as [->|H3].
  { rewrite (bind_ret _ _ _ _ _ (service3_outcome msg w Hstore)).
    pose proof (stored_codes_data_length (active_dtcs w)) as Hlen.
    set (r := {| arbitration_id := 0x7e8;
                 data := stored_codes_data (active_dtcs w) |}) in *.
    destruct (answered_after r w (with_bus (bus_sent w ++ [r]) w))
      as (wire & Hb & Ha & Hd); try reflexivity;
      [cbn; lia|cbn [data r]; destruct (active_dtcs w); lia|].
    eexists. split; [exact Hb|]. right. split; [assumption|].
    exists 0x03, r, wire. split; [assumption|]. split; [in_list|].
    split; [exact Ha|]. cbn [Z.eqb Pos.eqb]. rewrite Hd.
    repeat split; try discriminate.
    cbn [data r]. now destruct (active_dtcs w). }
  destruct (Z.eqb_spec svc 0x04) as [->|H4].
  { rewrite (bind_ret _ _ _ _ _ (service4_outcome msg w)).
    set (r := {| arbitration_id := 0x7e8;
                 data := [0x01; 0x44; 0; 0; 0; 0; 0; 0] |}) in *.
    destruct (answered_after r w (with_bus (bus_sent w ++ [r]) (with_dtcs [] w)))
      as (wire & Hb & Ha & Hd); try reflexivity; [cbn; lia|cbn; lia|].
    eexists. split; [exact Hb|]. right. split; [assumption|].
    exists 0x04, r, wire. split; [assumption|]. split; [in_list|].
    split; [exact Ha|]. cbn [Z.eqb Pos.eqb]. rewrite Hd.
    repeat split; try discriminate. }
  exists w. rewrite unserved_outcome.
  assert (Hlen : (2 <= length (data msg))%nat).
  { apply lookup_lt_Some in Hsvc. lia. }
  destruct (Nat.ltb_spec (length (data msg)) 2); [lia|].
  rewrite andb_false_r. split; [reflexivity|].
  left. split; [reflexivity|]. right. exists svc. split; [exact Hsvc|].
  left. rewrite !not_elem_of_cons. repeat split; try assumption.
  apply not_elem_of_nil.
Qed.

(** ** The generator *)






(** ** The queries of the reader *)

Lemma send_request_eq s pid r :
  0 <= s < 256 -> 0 <= pid < 256 ->
  send_request s pid r = Ret (tt, after_send s pid r).
Proof.
  intros Hs Hp. unfold send_request, after_send.
  rewrite mk_bytes by (repeat constructor; lia).
  unfold lift, mbind, ST_bind, sendall. cbv beta iota.
  rewrite encode_frame8 by (unfold REQUEST_ID; lia).
  now destruct (link_up r).
Qed.

Lemma after_send_queue s pid r :
  response_queue (after_send s pid r) = response_queue r.
Proof. unfold after_send. now destruct (link_up r). Qed.

Lemma ask_eq pid arrivals r :
  0 <= pid < 256 ->
  ask pid arrivals r
  = match answers (wait_loop arrivals (response_queue r)).1 0x41 pid with
    | Ret ok =>
        Ret (ok, with_queue (wait_loop arrivals (response_queue r)).2
                   (after_send SERVICE_CURRENT_DATA pid r))
    | Raise e => Raise e
    end.
Proof.
  intros Hp. unfold ask.
  rewrite (bind_ret _ _ _ _ _ (send_request_eq SERVICE_CURRENT_DATA pid r
                                 ltac:(unfold SERVICE_CURRENT_DATA; lia) Hp)).
  unfold wait_response, mbind, ST_bind, lift. rewrite after_send_queue.
  destruct (wait_loop arrivals (response_queue r)) as [res q']. cbn [fst snd].
  reflexivity.
Qed.

Lemma st_bind_assoc {S A B C} (m : ST S A) (f : A -> ST S B) (g : B -> ST S C) s :
  ((m ≫= f) ≫= g) s = (m ≫= λ a, f a ≫= g) s.
Proof. unfold mbind, ST_bind. destruct (m s) as [[a s']|]; reflexivity. Qed.

Lemma st_bind_ext {S A B} (m : ST S A) (f g : A -> ST S B) s :
  (forall a s', f a s' = g a s') -> (m ≫= f) s = (m ≫= g) s.
Proof.
  intros H. unfold mbind, ST_bind. destruct (m s) as [[a s']|]; [apply H|reflexivity].
Qed.

Lemma ask_then {A} pid arrivals (k : option Message -> R A) r :
  (send_request SERVICE_CURRENT_DATA pid;;
   response ← wait_response arrivals;
   ok ← lift (answers response 0x41 pid);
   k ok) r
  = (ask pid arrivals ≫= k) r.
Proof.
  unfold ask. rewrite st_bind_assoc.
  apply st_bind_ext. intros _ r1. now rewrite st_bind_assoc.
Qed.

Lemma read_rpm_ask arrivals r :
  read_rpm arrivals r
  = (ok ← ask 0x0C arrivals;
     match ok with
     | Some m =>
         a ← lift (index (data m) 3);
         b ← lift (index (data m) 4);
         mret (Some (inject_Z (a * 256 + b) / inject_Z 4)%Q)
     | None => mret None
     end) r.
Proof. unfold read_rpm. apply ask_then. Qed.

Lemma read_speed_ask arrivals r :
  read_speed arrivals r
  = (ok ← ask 0x0D arrivals;
     match ok with
     | Some m => a ← lift (index (data m) 3); mret (Some a)
     | None => mret None
     end) r.
Proof. unfold read_speed. apply ask_then. Qed.

Lemma read_coolant_temp_ask arrivals r :
  read_coolant_temp arrivals r
  = (ok ← ask 0x05 arrivals;
     match ok with
     | Some m => a ← lift (index (data m) 3); mret (Some (a - 40))
     | None => mret None
     end) r.
Proof. unfold read_coolant_temp. apply ask_then. Qed.

Lemma read_throttle_ask arrivals r :
  read_throttle arrivals r
  = (ok ← ask 0x11 arrivals;
     match ok with
     | Some m =>
         a ← lift (index (data m) 3);
         mret (Some (true_divide (a * 100) 255))
     | None => mret None
     end) r.
Proof. unfold read_throttle. apply ask_then. Qed.

Lemma read_engine_load_ask arrivals r :
  read_engine_load arrivals r
  = (ok ← ask 0x04 arrivals;
     match ok with
     | Some m =>
         a ← lift (index (data m) 3);
         mret (Some (true_divide (a * 100) 255))
     | None => mret None
     end) r.
Proof. unfold read_engine_load. apply ask_then. Qed.

Lemma read_intake_temp_ask arrivals r :
  read_intake_temp arrivals r
  = (ok ← ask 0x0F arrivals;
     match ok with
     | Some m => a ← lift (index (data m) 3); mret (Some (a - 40))
     | None => mret None
     end) r.
Proof. unfold read_intake_temp. apply ask_then. Qed.

(** *** What the wait returns *)

Lemma wait_loop_head f q a later :
  arbitration_id f = RESPONSE_ID ->
  wait_loop (a :: later) (f :: q) = (Some f, q ++ a).
Proof. intros Hid. cbn [wait_loop app]. now rewrite Hid, Z.eqb_refl. Qed.

Lemma wait_loop_arrives k f extra later :
  arbitration_id f = RESPONSE_ID ->
  wait_loop (replicate k [] ++ (f :: extra) :: later) [] = (Some f, extra).
Proof.
  intros Hid. induction k as [|k IH]; cbn [replicate app wait_loop].
  - now rewrite Hid, Z.eqb_refl.
  - exact IH.
Qed.

Lemma answers_reply b0 pid rest pid' :
  answers (Some (reply b0 pid rest)) 0x41 pid'
  = Ret (if pid =? pid' then Some (reply b0 pid rest) else None).
Proof. cbn. now destruct (pid =? pid'). Qed.

Lemma ask_reply pid' pid b0 rest arrivals r q' :
  0 <= pid' < 256 ->
  wait_loop arrivals (response_queue r) = (Some (reply b0 pid rest), q') ->
  ask pid' arrivals r
  = Ret (if pid =? pid' then Some (reply b0 pid rest) else None,
         with_queue q' (after_send SERVICE_CURRENT_DATA pid' r)).
Proof.
  intros Hp Hw. rewrite ask_eq by assumption. rewrite Hw. cbn [fst snd].
  now rewrite answers_reply.
Qed.

Lemma ask_silent pid' arrivals r q' :
  0 <= pid' < 256 ->
  wait_loop arrivals (response_queue r) = (None, q') ->
  ask pid' arrivals r
  = Ret (None, with_queue q' (after_send SERVICE_CURRENT_DATA pid' r)).
Proof. intros Hp Hw. rewrite ask_eq by assumption. now rewrite Hw. Qed.

Lemma asked_queue pid q r : response_queue (asked pid q r) = q.
Proof. reflexivity. Qed.

Ltac by_ask lem :=
  intros; rewrite lem;
  match goal with
  | Hw : wait_loop _ _ = (Some _, _) |- context [ask ?p _] =>
      rewrite (bind_ret _ _ _ _ _ (ask_reply p _ _ _ _ _ _ ltac:(lia) Hw))
  | Hw : wait_loop _ _ = (None, _) |- context [ask ?p _] =>
      rewrite (bind_ret _ _ _ _ _ (ask_silent p _ _ _ ltac:(lia) Hw))
  end;
  try match goal with
  | Hne : ?p <> ?p' |- _ => rewrite (proj2 (Z.eqb_neq p p') Hne)
  end;
  reflexivity.

Lemma read_rpm_reply arrivals r q' b0 a b rest :
  wait_loop arrivals (response_queue r) = (Some (reply b0 0x0C (a :: b :: rest)), q') ->
  read_rpm arrivals r
  = Ret (Some (inject_Z (a * 256 + b) / inject_Z 4)%Q, asked 0x0C q' r).
Proof. by_ask read_rpm_ask. Qed.






(** A query that is handed the answer to another PID returns nothing. *)
Lemma read_rpm_other arrivals r q' b0 pid rest :
  pid <> 0x0C ->
  wait_loop arrivals (response_queue r) = (Some (reply b0 pid rest), q') ->
  read_rpm arrivals r = Ret (None, asked 0x0C q' r).
Proof. by_ask read_rpm_ask. Qed.

Lemma read_speed_other arrivals r q' b0 pid rest :
  pid <> 0x0D ->
  wait_loop arrivals (response_queue r) = (Some (reply b0 pid rest), q') ->
  read_speed arrivals r = Ret (None, asked 0x0D q' r).
Proof. by_ask read_speed_ask. Qed.

Lemma read_coolant_temp_other arrivals r q' b0 pid rest :
  pid <> 0x05 ->
  wait_loop arrivals (response_queue r) = (Some (reply b0 pid rest), q') ->
  read_coolant_temp arrivals r = Ret (None, asked 0x05 q' r).
Proof. by_ask read_coolant_temp_ask. Qed.

Lemma read_throttle_other arrivals r q' b0 pid rest :
  pid <> 0x11 ->
  wait_loop arrivals (response_queue r) = (Some (reply b0 pid rest), q') ->
  read_throttle arrivals r = Ret (None, asked 0x11 q' r).
Proof. by_ask read_throttle_ask. Qed.

Lemma read_engine_load_other arrivals r q' b0 pid rest :
  pid <> 0x04 ->
  wait_loop arrivals (response_queue r) = (Some (reply b0 pid rest), q') ->
  read_engine_load arrivals r = Ret (None, asked 0x04 q' r).
Proof. by_ask read_engine_load_ask. Qed.

Lemma read_intake_temp_other arrivals r q' b0 pid rest :
  pid <> 0x0F ->
  wait_loop arrivals (response_queue r) = (Some (reply b0 pid rest), q') ->
  read_intake_temp arrivals r = Ret (None, asked 0x0F q' r).
Proof. by_ask read_intake_temp_ask. Qed.

Lemma read_rpm_silent arrivals r q' :
  wait_loop arrivals (response_queue r) = (None, q') ->
  read_rpm arrivals r = Ret (None, asked 0x0C q' r).
Proof. by_ask read_rpm_ask. Qed.


Lemma dashboard_one_late_aux r n k l3 l4 l5 l6 b1 b2 b3 b4 b5 b6
    v1 v2 v3 v4 v5 v6 :
  response_queue r = [] ->
  dashboard_reads
    (replicate n [])
    (replicate k [] ++ [[reply b1 0x0C v1; reply b2 0x0D v2]])
    ([reply b3 0x05 v3] :: l3)
    ([reply b4 0x11 v4] :: l4)
    ([reply b5 0x04 v5] :: l5)
    ([reply b6 0x0F v6] :: l6) r
  = Ret ({| rpm := None; speed := None; coolant := None;
            throttle := None; load := None; intake := None |},
         asked 0x0F [reply b6 0x0F v6] (asked 0x04 [reply b5 0x04 v5]
           (asked 0x11 [reply b4 0x11 v4] (asked 0x05 [reply b3 0x05 v3]
             (asked 0x0D [reply b2 0x0D v2] (asked 0x0C [] r)))))).
Proof.
  intros Hq. unfold dashboard_reads.
  erewrite bind_ret
    by (apply read_rpm_silent; rewrite Hq; apply wait_loop_silent).
  erewrite bind_ret
    by (eapply read_speed_other; [|rewrite asked_queue; now apply wait_loop_arrives];
        lia).
  erewrite bind_ret
    by (eapply read_coolant_temp_other;
        [|rewrite asked_queue; now apply (wait_loop_head _ [])]; lia).
  erewrite bind_ret
    by (eapply read_throttle_other;
        [|rewrite asked_queue; now apply (wait_loop_head _ [])]; lia).
  erewrite bind_ret
    by (eapply read_engine_load_other;
        [|rewrite asked_queue; now apply (wait_loop_head _ [])]; lia).
  erewrite bind_ret
    by (eapply read_intake_temp_other;
        [|rewrite asked_queue; now apply (wait_loop_head _ [])]; lia).
  reflexivity.
Qed.

Lemma request_pid s pid : data (request s pid) !! 2%nat = Some pid.
Proof. reflexivity. Qed.





(** ** The reader on short frames and a dead link *)

Lemma read_dtcs_eq arrivals r :
  read_dtcs arrivals r
  = if link_up r then
      match parse_dtcs (wait_loop arrivals (response_queue r)).1 with
      | Ret l =>
          Ret (l, sent_and_waited read_wire
                    (wait_loop arrivals (response_queue r)).2 r)
      | Raise e => Raise e
      end
    else Ret ([], r).
Proof.
  unfold read_dtcs.
  rewrite (bind_ret _ _ _ read_request r eq_refl).
  rewrite (bind_ret _ _ _ read_wire r eq_refl).
  unfold sendall at 1. unfold mbind at 1, ST_bind at 1.
  destruct (link_up r); [|reflexivity].
  unfold wait_response, mbind, ST_bind, lift. cbn [response_queue with_out].
  destruct (wait_loop arrivals (response_queue r)) as [res q']. reflexivity.
Qed.

Lemma clear_dtcs_eq arrivals r :
  clear_dtcs arrivals r
  = if link_up r then
      match (wait_loop arrivals (response_queue r)).1 with
      | None =>
          Ret (false, sent_and_waited clear_wire
                        (wait_loop arrivals (response_queue r)).2 r)
      | Some m =>
          match index (data m) 1 with
          | Ret b1 =>
              Ret (b1 =? 0x44,
                   sent_and_waited clear_wire
                     (wait_loop arrivals (response_queue r)).2 r)
          | Raise e => Raise e
          end
      end
    else Ret (false, r).
Proof.
  unfold clear_dtcs.
  rewrite (bind_ret _ _ _ clear_request r eq_refl).
  rewrite (bind_ret _ _ _ clear_wire r eq_refl).
  unfold sendall at 1. unfold mbind at 1, ST_bind at 1.
  destruct (link_up r); [|reflexivity].
  unfold wait_response. unfold mbind at 1, ST_bind at 1.
  cbn [response_queue with_out].
  destruct (wait_loop arrivals (response_queue r)) as [[m|] q']; cbn [fst snd];
    [|reflexivity].
  unfold mbind, ST_bind, lift. now destruct (index (data m) 1).
Qed.

Lemma pair_offsets_from_bound fuel : forall i stop,
  Forall (fun j => Z.of_nat j < stop) (pair_offsets_from fuel i stop).
Proof.
  induction fuel as [|fuel IH]; intros i stop; cbn [pair_offsets_from].
  - constructor.
  - destruct (Z.ltb_spec (Z.of_nat i) stop); [|constructor].
    apply Forall_cons. split; [assumption|apply IH].
Qed.

Lemma pair_offsets_from_length fuel : forall i stop,
  (2 * length (pair_offsets_from fuel i stop) <= Z.to_nat stop + 1 - i)%nat.
Proof.
  induction fuel as [|fuel IH]; intros i stop; cbn [pair_offsets_from length].
  - lia.
  - destruct (Z.ltb_spec (Z.of_nat i) stop); cbn [length]; [|lia].
    specialize (IH (i + 2)%nat stop). lia.
Qed.

Lemma parse_pairs_total d offsets :
  Forall (fun j => (j + 1 < length d)%nat) offsets ->
  exists l, parse_pairs d offsets = Ret l /\ (length l <= length offsets)%nat.
Proof.
  induction 1 as [|j offsets Hj _ (l & Hl & Hlen)]; cbn [parse_pairs].
  - exists []. split; [reflexivity|cbn; lia].
  - destruct (lookup_lt_is_Some_2 d j ltac:(lia)) as [hi Hhi].
    destruct (lookup_lt_is_Some_2 d (j + 1) ltac:(lia)) as [lo Hlo].
    rewrite (parse_pair_spec d j hi lo Hhi Hlo), Hl. cbn [mbind res_bind].
    eexists. split; [reflexivity|].
    rewrite length_app. destruct (decide (hi <> 0)); cbn [length]; lia.
Qed.

Lemma parse_dtcs_outcome f :
  ((length (data f) < 2)%nat /\ parse_dtcs (Some f) = Raise IndexError)
  \/ ((2 <= length (data f))%nat
      /\ exists l, parse_dtcs (Some f) = Ret l
           /\ (2 * length l <= length (data f) - 2)%nat
           /\ (data f !! 1%nat <> Some 0x43 -> l = [])).
Proof.
  unfold parse_dtcs, index.
  destruct (data f !! 1%nat) as [b1|] eqn:H1.
  - right. pose proof (lookup_lt_Some _ _ _ H1). split; [lia|].
    cbn [mbind res_bind].
    destruct (Z.eqb_spec b1 0x43) as [->|Hne].
    + destruct (parse_pairs_total (data f) (pair_offsets (length (data f))))
        as (l & Hl & Hlen).
      { unfold pair_offsets.
        eapply Forall_impl; [apply pair_offsets_from_bound|].
        cbn beta. intros j Hj. lia. }
      exists l. split; [exact Hl|]. split; [|congruence].
      unfold pair_offsets in Hlen.
      pose proof (pair_offsets_from_length (length (data f)) 2
                    (Z.of_nat (length (data f)) - 1)). lia.
    + exists []. split; [reflexivity|]. split; [cbn; lia|reflexivity].
  - left. apply lookup_ge_None in H1. split; [lia|reflexivity].
Qed.

Lemma read_rpm_on_frame arrivals r f :
  (wait_loop arrivals (response_queue r)).1 = Some f ->
  (rpm_crashes f /\ read_rpm arrivals r = Raise IndexError)
  \/ (~ rpm_crashes f /\ exists v r', read_rpm arrivals r = Ret (v, r')).
Proof.
  intros Hw. rewrite read_rpm_ask. unfold mbind, ST_bind.
  rewrite ask_eq by lia. rewrite Hw.
  unfold rpm_crashes, answers, lift, index.
  destruct f as [arb d]. cbn [data].
  destruct d as [|b0 [|b1 [|b2 [|b3 [|b4 rest]]]]];
    cbn [lookup list_lookup length mbind res_bind data];
    try (left; split; [left; lia|reflexivity]).
  - destruct (Z.eqb_spec b1 0x41) as [->|Hne].
    + left. split; [right; split; [reflexivity|left; lia]|reflexivity].
    + right. split; [|do 2 eexists; reflexivity]. intros [?|[[= ?] _]]; [lia|congruence].
  - destruct (Z.eqb_spec b1 0x41) as [->|Hne];
      [destruct (Z.eqb_spec b2 0x0C) as [->|Hne]|].
    + left. split; [right; split; [reflexivity|right; split; [reflexivity|lia]]|].
      reflexivity.
    + right. split; [|do 2 eexists; reflexivity].
      intros [?|[_ [?|[[= ?] _]]]]; [lia|lia|congruence].
    + right. split; [|do 2 eexists; reflexivity]. intros [?|[[= ?] _]]; [lia|congruence].
  - destruct (Z.eqb_spec b1 0x41) as [->|Hne];
      [destruct (Z.eqb_spec b2 0x0C) as [->|Hne]|].
    + left. split; [right; split; [reflexivity|right; split; [reflexivity|lia]]|].
      reflexivity.
    + right. split; [|do 2 eexists; reflexivity].
      intros [?|[_ [?|[[= ?] _]]]]; [lia|lia|congruence].
    + right. split; [|do 2 eexists; reflexivity]. intros [?|[[= ?] _]]; [lia|congruence].
  - right. split.
    + intros [?|[_ [?|[_ ?]]]]; lia.
    + destruct (b1 =? 0x41); [destruct (b2 =? 0x0C)|]; do 2 eexists; reflexivity.
Qed.

(** ** Trouble-code texts and their descriptions *)

Lemma hex_digit_code d :
  0 <= d < 16 ->
  N_of_ascii (hex_digit d) = Z.to_N (if d <? 10 then 48 + d else 55 + d).
Proof.
  intros Hd. unfold hex_digit.
  destruct (Z.ltb_spec d 10); apply N_ascii_embedding; lia.
Qed.

Lemma hex_digit_inj d d' :
  0 <= d < 16 -> 0 <= d' < 16 -> hex_digit d = hex_digit d' -> d = d'.
Proof.
  intros Hd Hd' H. apply (f_equal N_of_ascii) in H.
  rewrite !hex_digit_code in H by assumption.
  destruct (Z.ltb_spec d 10), (Z.ltb_spec d' 10); lia.
Qed.

Lemma format_02X_inj b b' :
  0 <= b < 256 -> 0 <= b' < 256 -> format_02X b = format_02X b' -> b = b'.
Proof.
  intros Hb Hb' H. unfold format_02X in H. injection H as Hhi Hlo.
  apply hex_digit_inj in Hhi, Hlo;
    try (split; [apply Z.div_pos|apply Z.div_lt_upper_bound]; lia);
    try (apply Z.mod_pos_bound; lia).
  rewrite (Z.div_mod b 16), (Z.div_mod b' 16) by lia. congruence.
Qed.

Lemma dtc_text_inj_aux d d' :
  byte_pair d -> byte_pair d' -> dtc_text d = dtc_text d' -> d = d'.
Proof.
  intros [Hh Hl] [Hh' Hl'] H. destruct d as [h l], d' as [h' l']. cbn in *.
  unfold dtc_text, format_02X in H. cbn in H.
  injection H as H1 H2 H3 H4.
  assert (E1 : format_02X h = format_02X h') by (unfold format_02X; congruence).
  assert (E2 : format_02X l = format_02X l') by (unfold format_02X; congruence).
  apply format_02X_inj in E1, E2; try assumption. congruence.
Qed.

Lemma dict_get_default d key default :
  key ∉ map fst d -> dict_get d key default = default.
Proof.
  induction d as [|[k v] d IH]; intros Hk; cbn [dict_get]; [reflexivity|].
  cbn in Hk. apply not_elem_of_cons in Hk as [Hne Hk].
  destruct (String.eqb_spec k key); [congruence|]. now apply IH.
Qed.

Lemma description_keys : map fst descriptions = map dtc_text DTC_POOL.
Proof. reflexivity. Qed.

Lemma pool_byte_pairs : Forall byte_pair DTC_POOL.
Proof. repeat constructor; cbn; lia. Qed.

Lemma pool_described d :
  d ∈ DTC_POOL -> get_dtc_description (dtc_text d) <> "Unknown DTC"%string.
Proof.
  unfold DTC_POOL. rewrite !elem_of_cons, elem_of_nil.
  intros H. repeat destruct H as [->|H]; try discriminate. destruct H.
Qed.

Lemma outside_pool_unknown d :
  byte_pair d -> d ∉ DTC_POOL ->
  get_dtc_description (dtc_text d) = "Unknown DTC"%string.
Proof.
  intros Hb Hout. unfold get_dtc_description. apply dict_get_default.
  rewrite description_keys. intros Hin.
  apply list_elem_of_fmap in Hin as (d' & Heq & Hin').
  apply Hout. 
  assert (byte_pair d').
  { pose proof pool_byte_pairs as Hp. rewrite Forall_forall in Hp. auto. }
  now rewrite (dtc_text_inj_aux d d' Hb H Heq).
Qed.

(** ** The listener of the analysis server, and the loop of the dispatcher *)

Lemma listen_frame9 a1 b1 a2 b2 a3 b3 q :
  listen_step (Recv [0xE8; 0x07; 0; 0; 9; 0x07; 0x43; a1; b1; a2; b2; a3; b3]) q
  = (Running, q ++ heard a1 b1 ++ heard a2 b2 ++ heard a3 b3).
Proof.
  unfold listen_step. cbn [length Nat.eqb struct.unpack].
  change (take (Z.to_nat 9) [0x07; 0x43; a1; b1; a2; b2; a3; b3])
    with [0x07; 0x43; a1; b1; a2; b2; a3; b3].
  unfold listen_payload. cbn [length Nat.ltb Nat.leb andb lookup list_lookup].
  rewrite bool_decide_eq_true_2 by reflexivity. cbn [andb].
  change (pair_offsets_from 8 2 (Z.of_nat 8)) with [2; 4; 6]%nat.
  cbn [flat_map]. unfold listen_pair, heard, dtc_text.
  cbn [length Nat.add Nat.ltb Nat.leb lookup list_lookup fst snd].
  now rewrite app_nil_r.
Qed.

Lemma heard_codes (dtcs : list (Z * Z)) a1 b1 a2 b2 a3 b3 :
  dtc_bytes dtcs ++ replicate (6 - length (dtc_bytes dtcs))%nat 0
  = [a1; b1; a2; b2; a3; b3] ->
  heard a1 b1 ++ heard a2 b2 ++ heard a3 b3
  = map dtc_text (filter (fun d => d <> (0, 0)) (take 3 dtcs))
  /\ chunk a1 b1 ++ chunk a2 b2 ++ chunk a3 b3
     = map dtc_text (filter (fun d => d.1 <> 0) (take 3 dtcs)).
Proof.
  intros H. unfold dtc_bytes in H.
  assert (Hh : forall a b, heard a b
             = map dtc_text (filter (fun d => d <> (0, 0)) [(a, b)])).
  { intros a b. unfold heard. rewrite filter_cons, filter_nil.
    destruct (Z.eqb_spec a 0) as [->|Ha]; cbn [andb].
    - destruct (Z.eqb_spec b 0) as [->|Hb].
      + now rewrite decide_False by (intros E; now apply E).
      + now rewrite decide_True by congruence.
    - now rewrite decide_True by congruence. }
  assert (Hc : forall a b, chunk a b
             = map dtc_text (filter (fun d => d.1 <> 0) [(a, b)])).
  { intros a b. unfold chunk. rewrite filter_cons, filter_nil. cbn [fst].
    now destruct (decide (a <> 0)). }
  assert (H0 : heard 0 0 = []) by reflexivity.
  assert (C0 : chunk 0 0 = []) by reflexivity.
  destruct dtcs as [|[h1 l1] [|[h2 l2] [|[h3 l3] rest]]];
    cbn in H; injection H as <- <- <- <- <- <-;
    rewrite ?H0, ?C0, ?app_nil_r; cbn [firstn];
    rewrite ?Hh, ?Hc, <- ?map_app, <- ?filter_app; split; reflexivity.
Qed.

Lemma serve_ret_served local msg w w' :
  Forall byte_pair (active_dtcs w) ->
  serve local msg w = Ret (tt, w') -> served local msg w w'.
Proof.
  intros Hstore Hs.
  assert (Hno : ~ crashes local msg).
  { intros Hc. rewrite (crashes_raises local msg w Hc) in Hs. discriminate. }
  destruct (serve_total local msg w Hstore Hno) as (w'' & Hs' & Hserved).
  rewrite Hs in Hs'. now injection Hs' as ->.
Qed.

Lemma served_keeps local msg w w' :
  Forall byte_pair (active_dtcs w) ->
  served local msg w w' ->
  incoming_requests w' = incoming_requests w
  /\ Forall byte_pair (active_dtcs w')
  /\ (active_dtcs w' = active_dtcs w
      \/ (active_dtcs w' = [] /\ arbitration_id msg = 0x7df
          /\ data msg !! 1%nat = Some 0x04)).
Proof.
  intros Hstore [[-> _]|(Hid & svc & r & wire & Hsvc & Hin & Ha & Hd & _)].
  - auto.
  - destruct Ha as (_ & _ & _ & _ & _ & Hinc & _). split; [exact Hinc|].
    destruct (Z.eqb_spec svc 0x04) as [->|Hne]; rewrite Hd.
    + split; [constructor|]. right. auto.
    + split; [assumption|]. now left.
Qed.

Lemma loop_turn_fifo_aux bus_msg w w' :
  Forall byte_pair (active_dtcs w) ->
  loop_turn bus_msg w = Ret (tt, w') ->
  incoming_requests w' = drop 1 (incoming_requests w)
  /\ Forall byte_pair (active_dtcs w').
Proof.
  intros Hstore Hturn. unfold loop_turn in Hturn.
  unfold mbind, ST_bind in Hturn.
  assert (Hfirst : exists w1,
            match bus_msg with Some msg => serve true msg | None => mret tt end w
            = Ret (tt, w1)
            /\ incoming_requests w1 = incoming_requests w
            /\ Forall byte_pair (active_dtcs w1)).
  { destruct bus_msg as [msg|].
    - destruct (serve true msg w) as [[[] w1]|] eqn:Hs; [|discriminate].
      exists w1. split; [reflexivity|].
      destruct (served_keeps true msg w w1 Hstore
                  (serve_ret_served _ _ _ _ Hstore Hs)) as (? & ? & _). auto.
    - exists w. auto. }
  destruct Hfirst as (w1 & H1 & Hinc & Hst). rewrite H1 in Hturn.
  unfold serve_next in Hturn. rewrite <- Hinc.
  destruct (incoming_requests w1) as [|m rest] eqn:Hq.
  - injection Hturn as <-. auto.
  - assert (Hst' : Forall byte_pair (active_dtcs (with_requests rest w1)))
      by exact Hst.
    destruct (served_keeps false m _ w' Hst'
                (serve_ret_served _ _ _ _ Hst' Hturn)) as (E & ? & _).
    split; [exact E|assumption].
Qed.

(** ** Across the bridge *)

Lemma nonempty_wire d dtcs :
  exists a1 b1 a2 b2 a3 b3,
    dtc_bytes (d :: dtcs) ++ replicate (6 - length (dtc_bytes (d :: dtcs)))%nat 0
    = [a1; b1; a2; b2; a3; b3]
    /\ stored_codes_data (d :: dtcs) = [0x07; 0x43; a1; b1; a2; b2; a3; b3; 0].
Proof.
  destruct d as [h1 l1]. destruct dtcs as [|[h2 l2] [|[h3 l3] rest]];
    do 6 eexists; split; reflexivity.
Qed.

Lemma listener_hears_aux msg w q :
  Forall byte_pair (active_dtcs w) ->
  exists r w' wire m r',
    service3 msg w = Ret (r, w')
    /\ codec.encode r = Ret wire
    /\ listen_step (Recv wire) q
       = (Running,
          q ++ map dtc_text (filter (fun d => d <> (0, 0)) (take 3 (active_dtcs w))))
    /\ codec.decode wire = Ret m
    /\ read_dtcs [[m]] (start [])
       = Ret (map dtc_text (filter (fun d => d.1 <> 0) (take 3 (active_dtcs w))), r').
Proof.
  intros Hstore. pose proof (service3_outcome msg w Hstore) as Hs.
  destruct (active_dtcs w) as [|d dtcs] eqn:Hd.
  - do 5 eexists. split; [exact Hs|]. repeat split.
  - destruct (nonempty_wire d dtcs) as (a1 & b1 & a2 & b2 & a3 & b3 & Hsix & Hdata).
    rewrite Hdata in Hs.
    assert (Hbytes : Forall (fun b => 0 <= b < 256) [a1; b1; a2; b2; a3; b3]).
    { rewrite <- Hsix. apply Forall_app. split; [now apply dtc_bytes_ok|].
      apply Forall_replicate. lia. }
    destruct (frame9_read_back a1 b1 a2 b2 a3 b3 Hbytes)
      as (_ & Henc & Hdec & Hparse).
    destruct (heard_codes (d :: dtcs) a1 b1 a2 b2 a3 b3 Hsix) as [Hh Hc].
    destruct (read_dtcs_of_frame
                {| arbitration_id := 0x7e8;
                   data := [0x07; 0x43; a1; b1; a2; b2; a3; b3] |}
                _ eq_refl Hparse) as (r' & Hread & _).
    rewrite Hc in Hread.
    do 5 eexists. split; [exact Hs|]. split; [exact Henc|].
    split; [rewrite listen_frame9; now rewrite Hh|].
    split; [exact Hdec|exact Hread].
Qed.

Lemma filters_agree (dtcs : list (Z * Z)) :
  Forall (fun d => d.1 <> 0) dtcs ->
  filter (fun d => d <> (0, 0)) dtcs = dtcs
  /\ filter (fun d => d.1 <> 0) dtcs = dtcs.
Proof.
  induction 1 as [|[h l] ds Hh _ [IH1 IH2]]; [split; reflexivity|].
  cbn in Hh. rewrite !filter_cons, IH1, IH2. cbn [fst].
  rewrite !decide_True; [split; reflexivity|assumption|congruence].
Qed.

Lemma clear_end_to_end_aux local w r k :
  link_up r = true ->
  exists w' wire m r',
    serve local clear_request w = Ret (tt, w')
    /\ active_dtcs w' = []
    /\ tcp_sent w'
       = tcp_sent w ++ map (fun c => (c, wire))
           (filter (fun c => sendall_ok w c = true) (client_sockets w))
    /\ codec.decode wire = Ret m
    /\ clear_dtcs (replicate k [] ++ [[m]]) (with_queue [] r) = Ret (true, r')
    /\ last (tcp_out r') = Some clear_wire
    /\ codec.decode clear_wire = Ret clear_request.
Proof.
  intros Hup.
  rewrite (serve_service local clear_request 0x04 w eq_refl eq_refl).
  cbn [Z.eqb Pos.eqb].
  rewrite (bind_ret _ _ _ _ _ (service4_outcome clear_request w)).
  set (f := {| arbitration_id := 0x7e8; data := [0x01; 0x44; 0; 0; 0; 0; 0; 0] |}).
  set (wire := [0xE8; 0x07; 0; 0; 8; 0x01; 0x44; 0; 0; 0; 0; 0; 0]).
  assert (Henc : codec.encode f = Ret wire) by reflexivity.
  rewrite (broadcast_spec f wire _ Henc).
  eexists. exists wire, f. eexists. split; [reflexivity|]. split; [reflexivity|].
  split; [reflexivity|]. split; [reflexivity|].
  rewrite clear_dtcs_eq. cbn [link_up with_queue response_queue]. rewrite Hup.
  rewrite (wait_loop_arrives k f [] [] eq_refl). cbn [fst snd].
  split; [reflexivity|]. split; [|reflexivity].
  unfold sent_and_waited. cbn [tcp_out with_queue with_out].
  apply last_snoc.
Qed.

Lemma link_down_aux arrivals r :
  link_up r = false ->
  read_dtcs arrivals r = Ret ([], r)
  /\ clear_dtcs arrivals r = Ret (false, r)
  /\ (forall q', wait_loop arrivals (response_queue r) = (None, q') ->
                 read_rpm arrivals r = Ret (None, with_queue q' r))
  /\ (forall b0 a b rest q',
        wait_loop arrivals (response_queue r)
        = (Some (reply b0 0x0C (a :: b :: rest)), q') ->
        read_rpm arrivals r
        = Ret (Some (inject_Z (a * 256 + b) / inject_Z 4)%Q, with_queue q' r)).
Proof.
  intros Hdown. rewrite read_dtcs_eq, clear_dtcs_eq, Hdown.
  split; [reflexivity|]. split; [reflexivity|].
  assert (E : forall q', asked 0x0C q' r = with_queue q' r).
  { intros q'. unfold asked, after_send. now rewrite Hdown. }
  split.
  - intros q' Hw. rewrite (read_rpm_silent _ _ _ Hw). now rewrite E.
  - intros b0 a b rest q' Hw. rewrite (read_rpm_reply _ _ _ _ _ _ _ Hw).
    now rewrite E.
Qed.

Lemma read_dtcs_outcome_aux arrivals r f :
  link_up r = true ->
  (wait_loop arrivals (response_queue r)).1 = Some f ->
  ((length (data f) < 2)%nat /\ read_dtcs arrivals r = Raise IndexError)
  \/ ((2 <= length (data f))%nat
      /\ exists l r', read_dtcs arrivals r = Ret (l, r')
           /\ (2 * length l <= length (data f) - 2)%nat
           /\ (data f !! 1%nat <> Some 0x43 -> l = [])
           /\ response_queue r' = (wait_loop arrivals (response_queue r)).2).
Proof.
  intros Hup Hw. rewrite read_dtcs_eq, Hup, Hw.
  destruct (parse_dtcs_outcome f) as [[Hlen ->]|(Hlen & l & -> & Hl & Hn)].
  - left. auto.
  - right. split; [assumption|]. exists l. eexists. repeat split; assumption.
Qed.

End Further.

(** ** The bridge *)

Section BridgeProperties.
Import ecu_simulator obd_reader Spec autopulse_app Notions.

(** X5. A broadcast writes the same 13 bytes once to every registered
    client whose socket takes writes, in the order of the registry; the
    clients whose write fails are taken out of the registry, all their
    entries, and none of the others is; the bus, the store and the
    request queue are untouched. *)
Theorem broadcast_fan_out (msg : Message) (wire : list Z) (w : world) :
  codec.encode msg = Ret wire ->
  exists w',
    broadcast_can_message msg w = Ret (tt, w')
    /\ tcp_sent w'
       = tcp_sent w ++ map (fun c => (c, wire))
           (filter (fun c => c ∉ broken w) (client_sockets w))
    /\ client_sockets w' = filter (fun c => c ∉ broken w) (client_sockets w)
    /\ bus_sent w' = bus_sent w
    /\ active_dtcs w' = active_dtcs w
    /\ incoming_requests w' = incoming_requests w.
Proof.
  intros Henc.
  assert (Hf : filter (fun c => sendall_ok w c = true) (client_sockets w)
               = filter (fun c => c ∉ broken w) (client_sockets w)).
  { apply list_filter_iff. intros c. apply sendall_ok_spec. }
  eexists. split; [exact (broadcast_spec msg wire w Henc)|]. cbn. rewrite Hf.
  repeat split.
Qed.

Lemma broadcast_fan_out_witness :
  exists w',
    broadcast_can_message
      {| arbitration_id := 0x7e8; data := [0x01; 0x44; 0; 0; 0; 0; 0; 0] |}
      {| gen := tape []; active_dtcs := []; client_sockets := [1; 2; 3]%nat;
         incoming_requests := []; broken := [2%nat]; bus_sent := [];
         tcp_sent := [] |}
    = Ret (tt, w')
    /\ client_sockets w' = [1; 3]%nat
    /\ tcp_sent w'
       = [(1%nat, [0xE8; 0x07; 0; 0; 8; 0x01; 0x44; 0; 0; 0; 0; 0; 0]);
          (3%nat, [0xE8; 0x07; 0; 0; 8; 0x01; 0x44; 0; 0; 0; 0; 0; 0])].
Proof.
  destruct (broadcast_fan_out
              {| arbitration_id := 0x7e8; data := [0x01; 0x44; 0; 0; 0; 0; 0; 0] |}
              [0xE8; 0x07; 0; 0; 8; 0x01; 0x44; 0; 0; 0; 0; 0; 0]
              {| gen := tape []; active_dtcs := []; client_sockets := [1; 2; 3]%nat;
                 incoming_requests := []; broken := [2%nat]; bus_sent := [];
                 tcp_sent := [] |} eq_refl)
    as (w' & Hb & Htcp & Hcl & _).
  exists w'. split; [exact Hb|]. split; [exact Hcl|exact Htcp].
Defined.

(** X6. Frames arrive in the order they were sent: when the reads of a
    receive task deliver the encodings of well-formed messages, whole and
    one per read, the task appends exactly these messages, in that order,
    to its queue, and keeps running. This holds for the ECU's task per
    client and for the reader's. *)
Theorem receive_in_order (msgs : list Message) (wires : list (list Z))
    (client : nat) (w : world) (q : list Message) :
  Forall2 (fun m wire => well_formed m /\ codec.encode m = Ret wire) msgs wires ->
  receive_from_client client (map Recv wires) w
  = (Running, with_requests (incoming_requests w ++ msgs) w)
  /\ _tcp_receiver (map Recv wires) q = (Running, q ++ msgs).
Proof.
  intros H. split.
  - unfold receive_from_client. now rewrite (receive_loop_frames msgs wires w H).
  - now apply tcp_receiver_frames.
Qed.

Lemma receive_in_order_witness :
  _tcp_receiver
    [Recv [0xDF; 0x07; 0; 0; 8; 0x02; 0x01; 0x0C; 0; 0; 0; 0; 0];
     Recv [0xDF; 0x07; 0; 0; 8; 0x01; 0x04; 0; 0; 0; 0; 0; 0]] []
  = (Running, [request 0x01 0x0C; clear_request]).
Proof.
  refine (proj2 (receive_in_order [request 0x01 0x0C; clear_request]
                   [[0xDF; 0x07; 0; 0; 8; 0x02; 0x01; 0x0C; 0; 0; 0; 0; 0];
                    [0xDF; 0x07; 0; 0; 8; 0x01; 0x04; 0; 0; 0; 0; 0; 0]]
                   0%nat (boot (tape []) []) [] _)).
  assert (Hwf : forall s pid b0, 0 <= s < 256 -> 0 <= pid < 256 -> 0 <= b0 < 256 ->
            well_formed {| arbitration_id := REQUEST_ID;
                           data := [b0; s; pid; 0; 0; 0; 0; 0] |}).
  { intros s pid b0 Hs Hp Hb. unfold well_formed, REQUEST_ID. cbn.
    split; [lia|]. split; [lia|].
    repeat (apply Forall_cons; split; [lia|]). apply Forall_nil_2. }
  apply Forall2_cons_2; [split; [apply Hwf; lia|reflexivity]|].
  apply Forall2_cons_2; [split; [apply Hwf; unfold SERVICE_CLEAR_DTCS; lia|reflexivity]|].
  apply Forall2_nil_2.
Defined.

End BridgeProperties.

(** ** The services and the dispatcher *)

Section DispatcherProperties.
Import ecu_simulator obd_reader Spec autopulse_app Notions.

(** X7. For each of the ten PIDs it serves, [service1] returns a
    response with identifier 0x7E8, 0x41 in byte 1, the requested PID
    echoed in byte 2, between 4 and 7 data bytes, all of them bytes; it
    puts the response on the local bus once, sends nothing to the bridge
    and leaves the store, the registry and the request queue alone. Byte 0
    is the number of bytes that follow it, except in the response to PID
    0x0B, where it is 4 and 3 bytes follow. *)
Theorem service1_answers (pid : Z) (msg : Message) (w : world) :
  pid ∈ supported_pids ->
  data msg !! 2%nat = Some pid ->
  exists r w',
    service1 msg w = Ret (Some r, w')
    /\ arbitration_id r = 0x7e8
    /\ data r !! 1%nat = Some 0x41
    /\ data r !! 2%nat = Some pid
    /\ (4 <= length (data r) <= 7)%nat
    /\ Forall (fun b => 0 <= b < 256) (data r)
    /\ data r !! 0%nat
       = Some (if pid =? 0x0B then Z.of_nat (length (data r))
               else Z.of_nat (length (data r)) - 1)
    /\ bus_sent w' = bus_sent w ++ [r]
    /\ tcp_sent w' = tcp_sent w
    /\ active_dtcs w' = active_dtcs w
    /\ client_sockets w' = client_sockets w
    /\ incoming_requests w' = incoming_requests w.
Proof.
  intros Hin Hpid.
  destruct (service1_supported_aux pid msg w Hin Hpid) as (r & w' & Hs & F).
  unfold service1_facts in F. exists r, w'. split; [exact Hs|]. tauto.
Qed.

Lemma service1_answers_witness :
  exists r w',
    service1 (request 0x01 0x0B) (boot (tape [5]) []) = Ret (Some r, w')
    /\ data r !! 2%nat = Some 0x0B
    /\ data r !! 0%nat = Some (Z.of_nat (length (data r))).
Proof.
  destruct (service1_answers 0x0B (request 0x01 0x0B) (boot (tape [5]) []))
    as (r & w' & Hs & _ & _ & H2 & _ & _ & H0 & _).
  - unfold supported_pids. rewrite !elem_of_cons. tauto.
  - reflexivity.
  - exists r, w'. split; [exact Hs|]. split; [exact H2|exact H0].
Defined.

(** X8. With a store of byte pairs, serving a request raises an exception
    in exactly these cases, and the exception is [IndexError]: the frame
    has fewer than two data bytes and either carries the identifier 0x7DF
    or came from the local bus (whose branch logs [data[1]] of what it
    does not serve); or it is a service 0x01 request of identifier 0x7DF
    with no PID byte. Nothing catches it: the dispatcher loop ends. *)
Theorem dispatcher_crash_condition (local : bool) (msg : Message) (w : world) :
  Forall byte_pair (active_dtcs w) ->
  (serve local msg w = Raise IndexError <-> crashes local msg)
  /\ (forall e, serve local msg w = Raise e -> e = IndexError).
Proof.
  intros Hstore.
  assert (Hdec : Decision (crashes local msg)) by (unfold crashes; apply _).
  assert (Hraise : forall e, serve local msg w = Raise e -> crashes local msg).
  { intros e He. destruct Hdec as [Hc|Hc]; [exact Hc|exfalso].
    destruct (serve_total local msg w Hstore Hc) as (w' & Hs & _). congruence. }
  split; [split|].
  - apply Hraise.
  - apply crashes_raises.
  - intros e He. pose proof (Hraise e He) as Hc.
    rewrite (crashes_raises local msg w Hc) in He. congruence.
Qed.

Lemma dispatcher_crash_condition_witness :
  serve false {| arbitration_id := 0x7df; data := [0x02; 0x01] |}
    (boot (tape []) [])
  = Raise IndexError.
Proof.
  apply (proj1 (dispatcher_crash_condition false
                  {| arbitration_id := 0x7df; data := [0x02; 0x01] |}
                  (boot (tape []) []) ltac:(constructor))).
  right. cbn. repeat split. lia.
Defined.

(** X9. With a store of byte pairs, a request the dispatcher does not die
    on is served to the end, in one of two ways. Either nothing at all
    happens: the identifier is not 0x7DF, or the service is none of 0x01,
    0x03, 0x04, or it is service 0x01 for a PID that is not served. Or the
    request is answered: the response is put on the local bus and its
    encoding written to every client that takes writes (the others leave
    the registry), byte 1 of the response is 0x40 plus the service, and
    the store is emptied by service 0x04 and unchanged otherwise. *)
Theorem dispatcher_outcome (local : bool) (msg : Message) (w : world) :
  Forall byte_pair (active_dtcs w) ->
  ~ crashes local msg ->
  exists w', serve local msg w = Ret (tt, w') /\ served local msg w w'.
Proof. apply serve_total. Qed.

Lemma dispatcher_outcome_witness :
  exists w',
    serve false read_request (with_dtcs [(0x03, 0x01)] (boot (tape []) [4%nat]))
    = Ret (tt, w')
    /\ served false read_request
         (with_dtcs [(0x03, 0x01)] (boot (tape []) [4%nat])) w'.
Proof.
  apply (dispatcher_outcome false read_request
           (with_dtcs [(0x03, 0x01)] (boot (tape []) [4%nat]))).
  - repeat constructor; cbn; lia.
  - intros [[_ H]|(_ & H & _)]; [cbn in H; lia|discriminate].
Defined.

(** X10. The dispatcher never adds a code to the store and never touches
    the queue of requests: after a request is served, the queue is as it
    was, and the store is as it was unless the request was a service 0x04
    request of identifier 0x7DF, which leaves it empty. *)
Theorem dispatcher_store_effect (local : bool) (msg : Message) (w w' : world) :
  Forall byte_pair (active_dtcs w) ->
  serve local msg w = Ret (tt, w') ->
  incoming_requests w' = incoming_requests w
  /\ (active_dtcs w' = active_dtcs w
      \/ (active_dtcs w' = [] /\ arbitration_id msg = 0x7df
          /\ data msg !! 1%nat = Some 0x04)).
Proof.
  intros Hstore Hs.
  destruct (served_keeps local msg w w' Hstore
              (serve_ret_served _ _ _ _ Hstore Hs)) as (? & _ & ?).
  auto.
Qed.

Lemma dispatcher_store_effect_witness :
  active_dtcs
    (after_broadcast [0xE8; 0x07; 0; 0; 4; 0x03; 0x41; 0x04; 0x20; 0; 0; 0; 0]
       (with_bus [{| arbitration_id := 0x7e8; data := [0x03; 0x41; 0x04; 0x20] |}]
          (with_dtcs [(0x03, 0x01)] (boot (tape []) []))))
  = [(0x03, 0x01)].
Proof.
  destruct (dispatcher_store_effect true (request 0x01 0x04)
              (with_dtcs [(0x03, 0x01)] (boot (tape []) []))
              (after_broadcast
                 [0xE8; 0x07; 0; 0; 4; 0x03; 0x41; 0x04; 0x20; 0; 0; 0; 0]
                 (with_bus
                    [{| arbitration_id := 0x7e8;
                        data := [0x03; 0x41; 0x04; 0x20] |}]
                    (with_dtcs [(0x03, 0x01)] (boot (tape []) [])))))
    as (_ & [H|(H & _)]).
  - repeat constructor; cbn; lia.
  - reflexivity.
  - exact H.
  - discriminate H.
Defined.

(** X11. One turn of the dispatcher loop takes at most one request off
    the queue of the bridge clients, and it is the oldest: whatever the
    local bus delivered and whatever was served, the queue after the turn
    is the queue before without its head. The store is still made of byte
    pairs, so the same holds of the next turn. *)
Theorem loop_turn_fifo (bus_msg : option Message) (w w' : world) :
  Forall byte_pair (active_dtcs w) ->
  loop_turn bus_msg w = Ret (tt, w') ->
  incoming_requests w' = drop 1 (incoming_requests w)
  /\ Forall byte_pair (active_dtcs w').
Proof. apply loop_turn_fifo_aux. Qed.

Lemma loop_turn_fifo_witness :
  incoming_requests
    (with_bus [{| arbitration_id := 0x7e8; data := [0x01; 0x44; 0; 0; 0; 0; 0; 0] |}]
       (with_dtcs []
          (with_requests [read_request]
             (with_requests [clear_request; read_request] (boot (tape []) [])))))
  = [read_request].
Proof.
  refine (proj1 (loop_turn_fifo None
                   (with_requests [clear_request; read_request] (boot (tape []) []))
                   _ _ _)).
  - constructor.
  - reflexivity.
Defined.

(** X12. With a store of byte pairs, service 0x03 answers from a copy of
    the store and leaves the store as it is. On a store of three codes or
    more the data are 0x07, 0x43, the first three codes in the order of
    the store, and one zero: the codes after the third are not sent. On
    any store that is not empty the message has 9 data bytes and its
    first byte is 0x07. *)
Theorem service3_first_three (msg : Message) (w : world) :
  Forall byte_pair (active_dtcs w) ->
  exists r,
    service3 msg w = Ret (r, with_bus (bus_sent w ++ [r]) w)
    /\ arbitration_id r = 0x7e8
    /\ (forall h1 l1 h2 l2 h3 l3 rest,
          active_dtcs w = (h1, l1) :: (h2, l2) :: (h3, l3) :: rest ->
          data r = [0x07; 0x43; h1; l1; h2; l2; h3; l3; 0])
    /\ (active_dtcs w <> [] ->
        length (data r) = 9%nat /\ data r !! 0%nat = Some 0x07)
    /\ (active_dtcs w = [] -> data r = [0x01; 0x43; 0; 0; 0; 0; 0; 0]).
Proof.
  intros Hstore. eexists. split; [now apply service3_outcome|].
  cbn [arbitration_id data]. split; [reflexivity|]. split; [|split].
  - intros h1 l1 h2 l2 h3 l3 rest ->. reflexivity.
  - intros Hne. pose proof (stored_codes_data_length (active_dtcs w)) as Hl.
    destruct (active_dtcs w); [contradiction|]. split; [exact Hl|reflexivity].
  - intros ->. reflexivity.
Qed.

Lemma service3_first_three_witness :
  exists r w',
    service3 read_request
      (with_dtcs [(1, 0x33); (1, 0x71); (3, 0); (3, 1); (4, 0x20)]
         (boot (tape []) []))
    = Ret (r, w')
    /\ data r = [0x07; 0x43; 1; 0x33; 1; 0x71; 3; 0; 0].
Proof.
  destruct (service3_first_three read_request
              (with_dtcs [(1, 0x33); (1, 0x71); (3, 0); (3, 1); (4, 0x20)]
                 (boot (tape []) [])))
    as (r & Hs & _ & H3 & _).
  - repeat constructor; cbn; lia.
  - exists r. eexists. split; [exact Hs|]. now apply (H3 _ _ _ _ _ _ [(3, 1); (4, 0x20)]).
Defined.


End DispatcherProperties.

(** ** The reader *)

Section ReaderProperties.
Import ecu_simulator obd_reader Spec autopulse_app Notions.


(** X15. One late answer puts a whole turn of the dashboard out of step.
    If the RPM query times out and its answer arrives during the wait of
    the speed query, ahead of the speed answer, then every later query of
    the turn is handed the answer to the query before it, drops it, and
    returns nothing: all six readings are absent although all six answers
    arrived, five of them are gone, and the answer to the last query is
    left in the queue for the next turn. *)
Theorem dashboard_one_late (r : reader) (n k : nat)
    (l3 l4 l5 l6 : list (list Message)) (b1 b2 b3 b4 b5 b6 : Z)
    (v1 v2 v3 v4 v5 v6 : list Z) :
  exists r',
    dashboard_reads
      (replicate n [])
      (replicate k [] ++ [[reply b1 0x0C v1; reply b2 0x0D v2]])
      ([reply b3 0x05 v3] :: l3)
      ([reply b4 0x11 v4] :: l4)
      ([reply b5 0x04 v5] :: l5)
      ([reply b6 0x0F v6] :: l6)
      (with_queue [] r)
    = Ret ({| rpm := None; speed := None; coolant := None;
              throttle := None; load := None; intake := None |}, r')
    /\ response_queue r' = [reply b6 0x0F v6].
Proof.
  eexists. split.
  - now apply (dashboard_one_late_aux (with_queue [] r)).
  - reflexivity.
Qed.

(** X16. When the wait hands [read_rpm] a frame, the query raises
    [IndexError] in exactly these cases, and returns otherwise: the frame
    has fewer than two data bytes; or byte 1 is 0x41 and there is no byte
    2; or bytes 1 and 2 are 0x41 and 0x0C and the frame has fewer than
    five data bytes. *)
Theorem read_rpm_crash_condition (arrivals : list (list Message)) (r : reader)
    (f : Message) :
  (wait_loop arrivals (response_queue r)).1 = Some f ->
  (read_rpm arrivals r = Raise IndexError <-> rpm_crashes f)
  /\ (~ rpm_crashes f -> exists v r', read_rpm arrivals r = Ret (v, r')).
Proof.
  intros Hw.
  destruct (read_rpm_on_frame arrivals r f Hw)
    as [[Hc Hr]|(Hc & v & r' & Hr)].
  - split; [tauto|]. intros Hn. contradiction.
  - split; [|eauto]. split; [rewrite Hr; discriminate|contradiction].
Qed.

Lemma read_rpm_crash_condition_witness :
  read_rpm [[{| arbitration_id := 0x7E8; data := [0x04; 0x41; 0x0C; 0x1A] |}]]
    (start [])
  = Raise IndexError.
Proof.
  apply (proj1 (read_rpm_crash_condition
                  [[{| arbitration_id := 0x7E8; data := [0x04; 0x41; 0x0C; 0x1A] |}]]
                  (start [])
                  {| arbitration_id := 0x7E8; data := [0x04; 0x41; 0x0C; 0x1A] |}
                  eq_refl)).
  right. split; [reflexivity|]. right. split; [reflexivity|]. cbn. lia.
Defined.

(** X17. When its request went out and the wait hands [read_dtcs] a
    frame, the query raises [IndexError] if the frame has fewer than two
    data bytes and returns otherwise, never failing inside its loop over
    the pairs. It reports at most one code for every two data bytes after
    the first two (at most three for a frame off the bridge), none at all
    unless byte 1 is 0x43, and leaves the queue as the wait left it. *)
Theorem read_dtcs_outcome (arrivals : list (list Message)) (r : reader)
    (f : Message) :
  link_up r = true ->
  (wait_loop arrivals (response_queue r)).1 = Some f ->
  ((length (data f) < 2)%nat /\ read_dtcs arrivals r = Raise IndexError)
  \/ ((2 <= length (data f))%nat
      /\ exists l r',
           read_dtcs arrivals r = Ret (l, r')
           /\ (2 * length l <= length (data f) - 2)%nat
           /\ (data f !! 1%nat <> Some 0x43 -> l = [])
           /\ response_queue r' = (wait_loop arrivals (response_queue r)).2).
Proof. apply read_dtcs_outcome_aux. Qed.

Lemma read_dtcs_outcome_witness :
  read_dtcs [[{| arbitration_id := 0x7E8; data := [0x01] |}]] (start [])
  = Raise IndexError.
Proof.
  destruct (read_dtcs_outcome
              [[{| arbitration_id := 0x7E8; data := [0x01] |}]] (start [])
              {| arbitration_id := 0x7E8; data := [0x01] |} eq_refl eq_refl)
    as [[_ H]|[H _]].
  - exact H.
  - cbn in H. lia.
Defined.

(** X18. With the link down, [read_dtcs] and [clear_dtcs] give up at
    once: they return the empty list and false without waiting and
    without touching the queue. The queries built on [send_request] do
    not notice: [read_rpm] still waits and takes frames off the queue, it
    returns nothing after a silent wait, and it returns a reading when an
    RPM answer is handed to it, although no request left. *)
Theorem link_down_queries (arrivals : list (list Message)) (r : reader) :
  link_up r = false ->
  read_dtcs arrivals r = Ret ([], r)
  /\ clear_dtcs arrivals r = Ret (false, r)
  /\ (forall q',
        wait_loop arrivals (response_queue r) = (None, q') ->
        read_rpm arrivals r = Ret (None, with_queue q' r))
  /\ (forall b0 a b rest q',
        wait_loop arrivals (response_queue r)
        = (Some (reply b0 0x0C (a :: b :: rest)), q') ->
        read_rpm arrivals r
        = Ret (Some (inject_Z (a * 256 + b) / inject_Z 4)%Q, with_queue q' r)).
Proof. apply link_down_aux. Qed.

Lemma link_down_queries_witness :
  read_dtcs [[reply 0x07 0x43 []]]
    {| response_queue := []; link_up := false; tcp_out := [] |}
  = Ret ([], {| response_queue := []; link_up := false; tcp_out := [] |}).
Proof.
  apply (proj1 (link_down_queries [[reply 0x07 0x43 []]]
                  {| response_queue := []; link_up := false; tcp_out := [] |}
                  eq_refl)).
Defined.

(** X19. Clearing, end to end: the request [clear_dtcs] sends is decoded
    by the ECU as the clear request; served by either branch of the
    dispatcher, from any store, it empties the store and its response
    goes to every client that takes writes; that response, decoded and
    arriving during the wait, makes [clear_dtcs] return true. *)
Theorem clear_end_to_end (local : bool) (w : world) (r : reader) (k : nat) :
  link_up r = true ->
  exists w' wire m r',
    serve local clear_request w = Ret (tt, w')
    /\ active_dtcs w' = []
    /\ tcp_sent w'
       = tcp_sent w ++ map (fun c => (c, wire))
           (filter (fun c => sendall_ok w c = true) (client_sockets w))
    /\ codec.decode wire = Ret m
    /\ clear_dtcs (replicate k [] ++ [[m]]) (with_queue [] r) = Ret (true, r')
    /\ last (tcp_out r') = Some clear_wire
    /\ codec.decode clear_wire = Ret clear_request.
Proof. apply clear_end_to_end_aux. Qed.

Lemma clear_end_to_end_witness :
  exists w',
    serve false clear_request
      (with_dtcs [(0x03, 0x00); (0x04, 0x20)] (boot (tape []) [1%nat]))
    = Ret (tt, w')
    /\ active_dtcs w' = [].
Proof.
  destruct (clear_end_to_end false
              (with_dtcs [(0x03, 0x00); (0x04, 0x20)] (boot (tape []) [1%nat]))
              (start []) 0 eq_refl)
    as (w' & _ & _ & _ & Hs & He & _).
  exists w'. split; [exact Hs|exact He].
Defined.

(** X20. The text of a trouble code determines the code: two pairs of
    bytes with the same text are the same pair. *)
Theorem dtc_text_injective (d d' : Z * Z) :
  byte_pair d -> byte_pair d' -> dtc_text d = dtc_text d' -> d = d'.
Proof. apply dtc_text_inj_aux. Qed.

Lemma dtc_text_injective_witness : (0x03, 0x01) = (0x03, 0x01).
Proof.
  apply (dtc_text_injective (0x03, 0x01) (0x03, 0x01));
    [split; cbn; lia|split; cbn; lia|reflexivity].
Defined.

(** X21. The dictionary of the reader describes the codes the simulator
    can raise and no other: for a pair of bytes, [get_dtc_description] of
    its text is something else than 'Unknown DTC' exactly when the pair
    is in the simulator's pool. *)
Theorem descriptions_cover_pool (d : Z * Z) :
  byte_pair d ->
  (d ∈ DTC_POOL <-> get_dtc_description (dtc_text d) <> "Unknown DTC"%string).
Proof.
  intros Hb. split.
  - apply pool_described.
  - intros Hne. destruct (decide (d ∈ DTC_POOL)) as [Hin|Hout]; [exact Hin|].
    exfalso. apply Hne. now apply outside_pool_unknown.
Qed.

Lemma descriptions_cover_pool_witness :
  get_dtc_description (dtc_text (0x05, 0x62)) <> "Unknown DTC"%string.
Proof.
  apply (proj1 (descriptions_cover_pool (0x05, 0x62) ltac:(split; cbn; lia))).
  unfold DTC_POOL. rewrite !elem_of_cons. tauto.
Defined.

(** X22. The listener of the analysis server hears the same broadcast
    with another rule than the reader. For a store of byte pairs, from
    the 13 bytes of the service 0x03 response it queues the texts of the
    first three stored codes that are not (0x00,0x00), in their order,
    while [read_dtcs] returns the texts of those whose high byte is not
    0x00; the two lists are the same, namely the texts of the first three
    codes, when no stored code has a zero high byte, as is the case of
    every code of the pool. *)
Theorem listener_hears (msg : Message) (w : world) (q : list string) :
  Forall byte_pair (active_dtcs w) ->
  (exists r w' wire m r',
      service3 msg w = Ret (r, w')
      /\ codec.encode r = Ret wire
      /\ listen_step (Recv wire) q
         = (Running,
            q ++ map dtc_text
                   (filter (fun d => d <> (0, 0)) (take 3 (active_dtcs w))))
      /\ codec.decode wire = Ret m
      /\ read_dtcs [[m]] (start [])
         = Ret (map dtc_text
                  (filter (fun d => d.1 <> 0) (take 3 (active_dtcs w))), r'))
  /\ (Forall (fun d => d.1 <> 0) (active_dtcs w) ->
      filter (fun d => d <> (0, 0)) (take 3 (active_dtcs w))
      = take 3 (active_dtcs w)
      /\ filter (fun d => d.1 <> 0) (take 3 (active_dtcs w))
         = take 3 (active_dtcs w))
  /\ Forall (fun d => d.1 <> 0) DTC_POOL.
Proof.
  intros Hstore. split; [now apply listener_hears_aux|]. split.
  - intros Hnz. apply filters_agree. now apply Forall_take.
  - repeat constructor; cbn; lia.
Qed.

Lemma listener_hears_witness :
  exists wire,
    codec.encode
      {| arbitration_id := 0x7e8;
         data := [0x07; 0x43; 0x00; 0x05; 0x03; 0x00; 0; 0; 0] |} = Ret wire
    /\ listen_step (Recv wire) [] = (Running, ["P0005"; "P0300"]%string).
Proof.
  destruct (listener_hears read_request
              (with_dtcs [(0x00, 0x05); (0x03, 0x00)] (boot (tape []) [])) [])
    as [(r & w' & wire & m & r' & Hs & Henc & Hl & _) _].
  - repeat constructor; cbn; lia.
  - exists wire. injection Hs as <- _. split; [exact Henc|exact Hl].
Defined.

End ReaderProperties.

(** ** The registry and the pool *)

Section RegistryProperties.
Import ecu_simulator obd_reader Spec autopulse_app Notions.

Lemma accept_then_broadcast_aux client msg wire w :
  codec.encode msg = Ret wire ->
  exists w1 w2,
    accept client w = Ret (tt, w1)
    /\ broadcast_can_message msg w1 = Ret (tt, w2)
    /\ (client ∉ broken w ->
        client ∈ client_sockets w2 /\ (client, wire) ∈ tcp_sent w2)
    /\ (client ∈ broken w -> client ∉ client_sockets w2).
Proof.
  intros Henc. eexists. eexists. split; [reflexivity|].
  split; [exact (broadcast_spec msg wire _ Henc)|].
  cbn [client_sockets tcp_sent with_clients with_tcp].
  assert (Hok : forall c,
            sendall_ok (with_clients (client_sockets w ++ [client]) w) c = true
            <-> c ∉ broken w).
  { intros c. apply (sendall_ok_spec (with_clients _ w)). }
  split.
  - intros Hgood.
    assert (Hin : client ∈ filter
              (fun c => sendall_ok (with_clients (client_sockets w ++ [client]) w) c
                        = true) (client_sockets w ++ [client])).
    { apply list_elem_of_filter. split; [now apply Hok|].
      apply elem_of_app. right. apply list_elem_of_here. }
    split; [exact Hin|].
    apply elem_of_app. right.
    apply (list_elem_of_fmap_2 (fun c => (c, wire))). exact Hin.
  - intros Hbad Hin. apply list_elem_of_filter in Hin as [Hgood _].
    apply Hok in Hgood. contradiction.
Qed.

Lemma pool_code_raised_aux d clients :
  d ∈ DTC_POOL ->
  exists i w',
    generator_tick (boot (tape [0; 0; i; 2 ^ 53 - 1]) clients) = Ret (tt, w')
    /\ active_dtcs w' = [d].
Proof.
  unfold DTC_POOL. rewrite !elem_of_cons, elem_of_nil.
  intros [->|[->|[->|[->|[->|[->|[->|[->|[]]]]]]]]].
  - exists 0. eexists. split; reflexivity.
  - exists 1. eexists. split; reflexivity.
  - exists 2. eexists. split; reflexivity.
  - exists 3. eexists. split; reflexivity.
  - exists 4. eexists. split; reflexivity.
  - exists 5. eexists. split; reflexivity.
  - exists 6. eexists. split; reflexivity.
  - exists 7. eexists. split; reflexivity.
Qed.

(** X23. A client that was just accepted is served by the next broadcast
    like any other: if its socket takes writes it stays in the registry
    and is sent the 13 bytes; if not, the broadcast takes it out of the
    registry. *)
Theorem accept_then_broadcast (client : nat) (msg : Message) (wire : list Z)
    (w : world) :
  codec.encode msg = Ret wire ->
  exists w1 w2,
    accept client w = Ret (tt, w1)
    /\ broadcast_can_message msg w1 = Ret (tt, w2)
    /\ (client ∉ broken w ->
        client ∈ client_sockets w2 /\ (client, wire) ∈ tcp_sent w2)
    /\ (client ∈ broken w -> client ∉ client_sockets w2).
Proof. apply accept_then_broadcast_aux. Qed.

Lemma accept_then_broadcast_witness :
  exists w1 w2,
    accept 9 (boot (tape []) [4%nat]) = Ret (tt, w1)
    /\ broadcast_can_message
         {| arbitration_id := 0x7e8; data := [0x01; 0x44; 0; 0; 0; 0; 0; 0] |} w1
       = Ret (tt, w2)
    /\ client_sockets w2 = [4; 9]%nat.
Proof.
  destruct (accept_then_broadcast 9
              {| arbitration_id := 0x7e8; data := [0x01; 0x44; 0; 0; 0; 0; 0; 0] |}
              [0xE8; 0x07; 0; 0; 8; 0x01; 0x44; 0; 0; 0; 0; 0; 0]
              (boot (tape []) [4%nat]) eq_refl)
    as (w1 & w2 & Ha & Hb & _).
  exists w1, w2. split; [exact Ha|]. split; [exact Hb|].
  injection Ha as <-. injection Hb as <-. reflexivity.
Defined.

(** X24. Every code of the pool can be raised: for each of them there is
    a sequence of draws on which one turn of the generator, started on an
    empty store, leaves exactly that code in the store. *)
Theorem pool_code_raised (d : Z * Z) (clients : list nat) :
  d ∈ DTC_POOL ->
  exists i w',
    generator_tick (boot (tape [0; 0; i; 2 ^ 53 - 1]) clients) = Ret (tt, w')
    /\ active_dtcs w' = [d].
Proof. apply pool_code_raised_aux. Qed.

Lemma pool_code_raised_witness :
  exists i w',
    generator_tick (boot (tape [0; 0; i; 2 ^ 53 - 1]) []) = Ret (tt, w')
    /\ active_dtcs w' = [(0x05, 0x62)].
Proof.
  apply (pool_code_raised (0x05, 0x62) []).
  unfold DTC_POOL. rewrite !elem_of_cons. tauto.
Defined.

End RegistryProperties.
